(** * ocb-dhcp: the address-allocation core (subnet.go, data.go)

    A shallow embedding of the subnet model, its free-address bitset, the
    lease and binding life cycle and the repository operations of the
    DataTracker, followed by the properties of the specification that were
    checked against it.

    Conventions of the embedding:
    - an IPv4 address ([net.IP] after [To4]) is the value of its four
      bytes read big-endian, a [Z] in [0, 2^32);
    - a [time.Time] is a [Z] (nanoseconds), the zero time is [0]; a
      [time.Duration] is its int64 count of nanoseconds;
    - Go maps keyed by MAC or by subnet name are [gmap string _];
    - a method that mutates its receiver returns the new receiver; a method
      that may call [save_data] also returns whether it did;
    - locks are not modelled: every operation runs alone. *)

From Stdlib Require Import ZArith Lia.
From stdpp Require Import gmap strings list fin_maps pretty.

Local Open Scope Z_scope.

(** ** Machine integers *)

(** Conversion of a Go [int] to [uint] on a 64-bit platform. *)
Definition to_uint (z : Z) : Z := z mod 2 ^ 64.

(** Conversion to [uint32]. *)
Definition to_uint32 (z : Z) : Z := z mod 2 ^ 32.

(** Wrap-around of int64 arithmetic. *)
Definition wrap_int64 (z : Z) : Z := (z + 2 ^ 63) mod 2 ^ 64 - 2 ^ 63.

(** [binary.BigEndian.PutUint32]: the four bytes of a uint32. *)
Definition PutUint32 (v : Z) : list Z :=
  [Z.land (Z.shiftr v 24) 255; Z.land (Z.shiftr v 16) 255;
   Z.land (Z.shiftr v 8) 255; Z.land v 255].

(** [binary.BigEndian.Uint32]. *)
Definition Uint32 (b : list Z) : Z :=
  match b with
  | [b0; b1; b2; b3] =>
      Z.lor (Z.lor (Z.shiftl b0 24) (Z.shiftl b1 16)) (Z.lor (Z.shiftl b2 8) b3)
  | _ => 0
  end.

(** ** The bit set (github.com/willf/bitset) *)

(** Modelled from the spec: the bitset package is imported, not part of
    src/.  The spec's [activeBits] is a bit vector of a given length; the
    package's [Set] grows the vector when the index is past its end, while
    [Clear] and [Test] leave it alone there.  A [BitSet] is the list of its
    [Len] bits, lowest first. *)
Abbreviation BitSet := (list bool).

Module bitset.

Definition New (length : Z) : BitSet := replicate (Z.to_nat length) false.

Definition Len (b : BitSet) : Z := Z.of_nat (length b).

Definition Test (i : Z) (b : BitSet) : bool :=
  if Len b <=? i then false else default false (b !! Z.to_nat i).

Definition extendSetMaybe (i : Z) (b : BitSet) : BitSet :=
  if Len b <=? i then b ++ replicate (Z.to_nat (i + 1 - Len b)) false else b.

Definition Set_ (i : Z) (b : BitSet) : BitSet :=
  <[Z.to_nat i := true]> (extendSetMaybe i b).

Definition Clear (i : Z) (b : BitSet) : BitSet :=
  if Len b <=? i then b else <[Z.to_nat i := false]> b.

End bitset.

(** ** Addresses (net, github.com/krolaw/dhcp4) *)

Abbreviation IP := Z (only parsing).

Module dhcp.

(** Modelled from the spec: the dhcp4 helpers are imported, not part of
    src/.  [IPRange start stop] is the number of addresses from [start]
    to [stop] inclusive, the spec's [ipDistance start stop + 1], computed
    on Go [int]s. *)
Definition IPRange (start stop : IP) : Z := stop - start + 1.

(** Modelled from the spec: [IPAdd start add] is the address [add] past
    [start], in uint32 arithmetic. *)
Definition IPAdd (start : IP) (add : Z) : IP := to_uint32 (start + add).

(** Modelled from the spec: address order. *)
Definition IPLess (a b : IP) : bool := a <? b.

(** Modelled from the spec: [ip] lies in [[start, stop]], bounds
    included. *)
Definition IPInRange (start stop ip : IP) : bool :=
  negb (IPLess ip start || IPLess stop ip).

Definition OptionSubnetMask : Z := 1.
Definition OptionBroadcastAddress : Z := 28.
Definition OptionRenewalTimeValue : Z := 58.
Definition OptionRebindingTimeValue : Z := 59.

End dhcp.

(** A [net.IPNet] with a canonical mask: the network number and the length
    of the prefix.  Every network of the program comes out of
    [net.ParseCIDR], whose masks are canonical. *)
Record MyIPNet := { IPNet_IP : IP; IPNet_ones : Z }.

(** [net.CIDRMask ones 32] as a uint32. *)
Definition CIDRMask (ones : Z) : Z := 2 ^ 32 - 2 ^ (32 - ones).

Definition IPNet_Mask (n : MyIPNet) : Z := CIDRMask (IPNet_ones n).

(** [Contains] of [net.IPNet]. *)
Definition Contains (n : MyIPNet) (ip : IP) : bool :=
  Z.land (IPNet_IP n) (IPNet_Mask n) =? Z.land ip (IPNet_Mask n).

(** [net.ParseCIDR] on the text [a.b.c.d/ones]: the text is taken as
    already split into its address and its prefix length; the result is
    the network with the address masked. *)
Definition ParseCIDR (text : MyIPNet) : option MyIPNet :=
  if (0 <=? IPNet_IP text) && (IPNet_IP text <? 2 ^ 32)
     && (0 <=? IPNet_ones text) && (IPNet_ones text <=? 32)
  then Some {| IPNet_IP := Z.land (IPNet_IP text) (IPNet_Mask text);
               IPNet_ones := IPNet_ones text |}
  else None.

(** ** Records of subnet.go *)

Record Option := { Code : Z; Value : string }.

Record Lease := {
  Lease_Ip : IP;
  Lease_Mac : string;
  Valid : bool;
  ExpireTime : Z
}.

Record Binding := {
  Binding_Ip : IP;
  Binding_Mac : string;
  Binding_Options : list Option;
  Binding_NextServer : option string
}.

Record Subnet := {
  Name : string;
  Subnet_Subnet : MyIPNet;
  NextServer : option IP;
  ActiveStart : IP;
  ActiveEnd : IP;
  ActiveLeaseTime : Z;
  ActiveBits : BitSet;
  ReservedLeaseTime : Z;
  Leases : gmap string Lease;
  Bindings : gmap string Binding;
  Options : list Option
}.

(** Field updates ([subnet.ActiveBits = ...], [subnet.Leases[k] = ...]). *)
Definition with_ActiveBits (bits : BitSet) (s : Subnet) : Subnet :=
  {| Name := Name s; Subnet_Subnet := Subnet_Subnet s;
     NextServer := NextServer s; ActiveStart := ActiveStart s;
     ActiveEnd := ActiveEnd s; ActiveLeaseTime := ActiveLeaseTime s;
     ActiveBits := bits; ReservedLeaseTime := ReservedLeaseTime s;
     Leases := Leases s; Bindings := Bindings s; Options := Options s |}.

Definition with_Leases (leases : gmap string Lease) (s : Subnet) : Subnet :=
  {| Name := Name s; Subnet_Subnet := Subnet_Subnet s;
     NextServer := NextServer s; ActiveStart := ActiveStart s;
     ActiveEnd := ActiveEnd s; ActiveLeaseTime := ActiveLeaseTime s;
     ActiveBits := ActiveBits s; ReservedLeaseTime := ReservedLeaseTime s;
     Leases := leases; Bindings := Bindings s; Options := Options s |}.

Definition with_Bindings (bindings : gmap string Binding) (s : Subnet) : Subnet :=
  {| Name := Name s; Subnet_Subnet := Subnet_Subnet s;
     NextServer := NextServer s; ActiveStart := ActiveStart s;
     ActiveEnd := ActiveEnd s; ActiveLeaseTime := ActiveLeaseTime s;
     ActiveBits := ActiveBits s; ReservedLeaseTime := ReservedLeaseTime s;
     Leases := Leases s; Bindings := bindings; Options := Options s |}.

Definition with_ExpireTime (t : Z) (l : Lease) : Lease :=
  {| Lease_Ip := Lease_Ip l; Lease_Mac := Lease_Mac l; Valid := Valid l;
     ExpireTime := t |}.

(** [time.Second] and the defaults of [UnmarshalJSON], in nanoseconds. *)
Definition Second : Z := 1000000000.
Definition Hour : Z := 3600 * Second.

(** ** Free-address search (subnet.go) *)

(** The loop of [firstClearBit]: [i] runs from its start value up to
    [bs.Len()]; [n] bounds the number of iterations. *)
Fixpoint firstClearBit_loop (n : nat) (i : Z) (bs : BitSet) : option Z :=
  match n with
  | O => None
  | S n' =>
      if i <? bitset.Len bs then
        if negb (bitset.Test i bs) then Some i
        else firstClearBit_loop n' (i + 1) bs
      else None
  end.

(** [firstClearBit]: [Some i] for [(i, true)], [None] for [(0, false)]. *)
Definition firstClearBit (bs : BitSet) : option Z :=
  firstClearBit_loop (length bs) 0 bs.

(** One iteration of the sweep of [getFreeIP] over [subnet.Leases]. *)
Definition sweep_lease (now : Z) (acc : Subnet * bool) (kl : string * Lease)
  : Subnet * bool :=
  let '(subnet, save_me) := acc in
  let '(k, lease) := kl in
  if ExpireTime lease <? now then
    let subnet :=
      if dhcp.IPInRange (ActiveStart subnet) (ActiveEnd subnet) (Lease_Ip lease)
      then with_ActiveBits
             (bitset.Clear
                (to_uint (dhcp.IPRange (Lease_Ip lease) (ActiveStart subnet) - 1))
                (ActiveBits subnet)) subnet
      else subnet in
    (with_Leases (delete k (Leases subnet)) subnet, true)
  else (subnet, save_me).

(** The whole sweep: every entry of the map is visited once. *)
Definition sweep_leases (now : Z) (subnet : Subnet) : Subnet * bool :=
  fold_left (sweep_lease now) (map_to_list (Leases subnet)) (subnet, false).

(** [getFreeIP]: the address (if any), the returned flag, the subnet
    afterwards.  [now] is the reading of [time.Now()]. *)
Definition getFreeIP (subnet : Subnet) (now : Z) : option IP * bool * Subnet :=
  match firstClearBit (ActiveBits subnet) with
  | Some bit =>
      let subnet := with_ActiveBits (bitset.Set_ bit (ActiveBits subnet)) subnet in
      (Some (dhcp.IPAdd (ActiveStart subnet) bit), true, subnet)
  | None =>
      let '(subnet, save_me) := sweep_leases now subnet in
      match firstClearBit (ActiveBits subnet) with
      | Some bit =>
          let subnet :=
            with_ActiveBits (bitset.Set_ bit (ActiveBits subnet)) subnet in
          (Some (dhcp.IPAdd (ActiveStart subnet) bit), true, subnet)
      | None => (None, save_me, subnet)
      end
  end.

(** ** Lease life cycle (subnet.go) *)

(** [free_lease]: the subnet afterwards and whether [save_data] ran. *)
Definition free_lease (subnet : Subnet) (nic : string) : Subnet * bool :=
  match Leases subnet !! nic with
  | Some lease =>
      let subnet :=
        if dhcp.IPInRange (ActiveStart subnet) (ActiveEnd subnet) (Lease_Ip lease)
        then with_ActiveBits
               (bitset.Clear
                  (to_uint (dhcp.IPRange (Lease_Ip lease) (ActiveStart subnet) - 1))
                  (ActiveBits subnet)) subnet
        else subnet in
      (with_Leases (delete nic (Leases subnet)) subnet, true)
  | None => (subnet, false)
  end.

Definition find_info (subnet : Subnet) (nic : string)
  : option Lease * option Binding :=
  (Leases subnet !! nic, Bindings subnet !! nic).

(** [lease != nil && binding != nil && lease.Ip.Equal(binding.Ip)]. *)
Definition lease_matches_binding (lease : option Lease) (binding : option Binding)
  : bool :=
  match lease, binding with
  | Some l, Some b => Lease_Ip l =? Binding_Ip b
  | _, _ => false
  end.

(** The slow path of [find_or_get_info], under the write lock. *)
Definition find_or_get_info_slow (subnet : Subnet) (nic : string) (now : Z)
  : (option Lease * option Binding) * Subnet * bool :=
  let lease := Leases subnet !! nic in
  let binding := Bindings subnet !! nic in
  let theip := Binding_Ip <$> binding in
  if lease_matches_binding lease binding then ((lease, binding), subnet, false)
  else
    let '(theip, save_me, subnet) :=
      match theip with
      | Some ip => (Some ip, false, subnet)
      | None => getFreeIP subnet now
      end in
    match theip with
    | None => ((None, None), subnet, save_me)
    | Some ip =>
        let lease :=
          {| Lease_Ip := ip; Lease_Mac := nic; Valid := true; ExpireTime := 0 |} in
        ((Some lease, binding),
         with_Leases (<[nic := lease]> (Leases subnet)) subnet, true)
    end.

(** [find_or_get_info]: the pair returned, the subnet afterwards and
    whether [save_data] ran.  [suggest] is the requested address. *)
Definition find_or_get_info (subnet : Subnet) (nic : string) (suggest : IP)
    (now : Z) : (option Lease * option Binding) * Subnet * bool :=
  let binding := Bindings subnet !! nic in
  let lease := Leases subnet !! nic in
  if lease_matches_binding lease binding then ((lease, binding), subnet, false)
  else
    let lease :=
      match lease, binding with
      | Some _, Some _ => None
      | _, _ => lease
      end in
    match lease with
    | Some _ => ((lease, binding), subnet, false)
    | None => find_or_get_info_slow subnet nic now
    end.

(** [update_lease_time]: the lease pointer handed in is the entry of
    [s.Leases] under [nic]; the write goes through to the map. *)
Definition update_lease_time (s : Subnet) (nic : string) (d now : Z)
  : Subnet * bool :=
  (with_Leases (alter (with_ExpireTime (now + d)) nic (Leases s)) s, true).

(** ** Option composition (subnet.go) *)

Section build_options.

(** What [build_options] takes from outside src/: the packet and its
    decoded options ([p.ParseOptions] through [convertByteToOptionValue]),
    template execution (text/template) and the conversion of the rendered
    text to the option's payload ([convertOptionValueToByte]). *)
Variable Packet : Type.
Variable decode_options : Packet → gmap Z string.
Variable template_execute : string → gmap Z string → option string.
Variable convertOptionValueToByte : Z → string → option (list Z).

(** [RenderToDHCP]: [None] stands for a returned error. *)
Definition RenderToDHCP (o : Option) (srcOpts : gmap Z string)
  : option (Z * list Z) :=
  match template_execute (Value o) srcOpts with
  | None => None
  | Some text =>
      match convertOptionValueToByte (Code o) text with
      | None => None
      | Some val => Some (Code o, val)
      end
  end.

(** One iteration of the loops folding options into [opts]. *)
Definition fold_option (srcOpts : gmap Z string) (opts : gmap Z (list Z))
    (opt : Option) : gmap Z (list Z) :=
  match RenderToDHCP opt srcOpts with
  | None => opts
  | Some (c, v) => <[c := v]> opts
  end.

Definition build_options (s : Subnet) (lease : Lease) (binding : option Binding)
    (p : Packet) : gmap Z (list Z) * Z :=
  let lt :=
    match binding with
    | None => ActiveLeaseTime s
    | Some _ => ReservedLeaseTime s
    end in
  let srcOpts := decode_options p in
  let opts : gmap Z (list Z) := ∅ in
  let opts :=
    <[dhcp.OptionRenewalTimeValue := PutUint32 (to_uint32 lt / 2)]> opts in
  let opts :=
    <[dhcp.OptionRebindingTimeValue :=
        PutUint32 (to_uint32 (to_uint32 lt * 3) / 4)]> opts in
  let opts := fold_left (fold_option srcOpts) (Options s) opts in
  let opts :=
    match binding with
    | None => opts
    | Some b => fold_left (fold_option srcOpts) (Binding_Options b) opts
    end in
  (opts, lt).

End build_options.

(** ** Snapshot form of a subnet (subnet.go) *)

(** The textual fields of the JSON document are kept as the values their
    text denotes: [String] of an address or network followed by
    [net.ParseIP] or [net.ParseCIDR] is taken to give the value back; a
    text that is no IPv4 address is a value outside [0, 2^32). *)
Record apiSubnet := {
  api_Name : string;
  api_Subnet : MyIPNet;
  api_NextServer : option IP;
  api_ActiveStart : IP;
  api_ActiveEnd : IP;
  api_ActiveLeaseTime : Z;
  api_ReservedLeaseTime : Z;
  api_Leases : list Lease;
  api_Bindings : list Binding;
  api_Options : list Option
}.

(** [int(d.Seconds())]: whole seconds, rounded towards zero. *)
Definition Seconds (d : Z) : Z := Z.quot d Second.

(** [MarshalJSON] copies the leases and the bindings out of their maps by
    [range], whose order of visit Go leaves open: [MarshalJSON_order] takes
    the two lists in the order visited. *)
Definition MarshalJSON_order (leases : list Lease) (bindings : list Binding)
    (s : Subnet) : apiSubnet :=
  {| api_Name := Name s;
     api_Subnet := Subnet_Subnet s;
     api_NextServer := NextServer s;
     api_ActiveStart := ActiveStart s;
     api_ActiveEnd := ActiveEnd s;
     api_ActiveLeaseTime := Seconds (ActiveLeaseTime s);
     api_ReservedLeaseTime := Seconds (ReservedLeaseTime s);
     api_Leases := leases;
     api_Bindings := bindings;
     api_Options := Options s |}.

(** [MarshalJSON] with the entries visited in the order of [map_to_list]. *)
Definition MarshalJSON (s : Subnet) : apiSubnet :=
  MarshalJSON_order (map_to_list (Leases s)).*2 (map_to_list (Bindings s)).*2 s.

(** [net.ParseIP(text).To4()]: [None] is the nil address. *)
Definition ParseIP (text : IP) : option IP :=
  if (0 <=? text) && (text <? 2 ^ 32) then Some text else None.

(** [String] of an IPv4 address: dotted decimal. *)
Definition IP_String (ip : IP) : string :=
  pretty (Z.land (Z.shiftr ip 24) 255) +:+ "." +:+
  pretty (Z.land (Z.shiftr ip 16) 255) +:+ "." +:+
  pretty (Z.land (Z.shiftr ip 8) 255) +:+ "." +:+
  pretty (Z.land ip 255).

(** The bodies of the two loops of [UnmarshalJSON]. *)
Definition load_lease (s : Subnet) (v : Lease) : Subnet :=
  let s := with_Leases (<[Lease_Mac v := v]> (Leases s)) s in
  if dhcp.IPInRange (ActiveStart s) (ActiveEnd s) (Lease_Ip v)
  then with_ActiveBits
         (bitset.Set_ (to_uint (dhcp.IPRange (ActiveStart s) (Lease_Ip v) - 1))
                      (ActiveBits s)) s
  else s.

Definition load_binding (s : Subnet) (v : Binding) : Subnet :=
  let s := with_Bindings (<[Binding_Mac v := v]> (Bindings s)) s in
  if dhcp.IPInRange (ActiveStart s) (ActiveEnd s) (Binding_Ip v)
  then with_ActiveBits
         (bitset.Set_ (to_uint (dhcp.IPRange (ActiveStart s) (Binding_Ip v) - 1))
                      (ActiveBits s)) s
  else s.

(** [UnmarshalJSON] on the receiver [s]; [None] stands for a returned
    error. *)
Definition UnmarshalJSON (s : Subnet) (as_ : apiSubnet) : option Subnet :=
  match ParseCIDR (api_Subnet as_) with
  | None => None
  | Some netdata =>
      match ParseIP (api_ActiveStart as_), ParseIP (api_ActiveEnd as_) with
      | Some start, Some stop =>
          if negb (Contains netdata start) then None
          else if negb (Contains netdata stop) then None
          else
            let alt := wrap_int64 (api_ActiveLeaseTime as_ * Second) in
            let rlt := wrap_int64 (api_ReservedLeaseTime as_ * Second) in
            let s :=
              {| Name := api_Name as_;
                 Subnet_Subnet := netdata;
                 NextServer :=
                   match api_NextServer as_ with
                   | Some ip => Some ip
                   | None => NextServer s
                   end;
                 ActiveStart := start;
                 ActiveEnd := stop;
                 ActiveLeaseTime := if alt =? 0 then 30 * Second else alt;
                 ActiveBits := bitset.New (to_uint (dhcp.IPRange start stop));
                 ReservedLeaseTime := if rlt =? 0 then 2 * Hour else rlt;
                 Leases := Leases s;
                 Bindings := Bindings s;
                 Options := Options s |} in
            let s := fold_left load_lease (api_Leases as_) s in
            let s := fold_left load_binding (api_Bindings as_) s in
            let mask := IPNet_Mask netdata in
            let bcastBits := Z.lor (IPNet_IP netdata) (to_uint32 (Z.lnot mask)) in
            Some
              {| Name := Name s; Subnet_Subnet := Subnet_Subnet s;
                 NextServer := NextServer s; ActiveStart := ActiveStart s;
                 ActiveEnd := ActiveEnd s; ActiveLeaseTime := ActiveLeaseTime s;
                 ActiveBits := ActiveBits s;
                 ReservedLeaseTime := ReservedLeaseTime s;
                 Leases := Leases s; Bindings := Bindings s;
                 Options :=
                   api_Options as_
                   ++ [ {| Code := dhcp.OptionSubnetMask;
                           Value := IP_String mask |} ]
                   ++ [ {| Code := dhcp.OptionBroadcastAddress;
                           Value := IP_String bcastBits |} ] |}
      | _, _ => None
      end
  end.

(** The receiver the decoder starts from: [&Subnet{}], maps nil (empty).
    Its network and bit set are never read by [UnmarshalJSON]. *)
Definition zero_Subnet : Subnet :=
  {| Name := ""; Subnet_Subnet := {| IPNet_IP := 0; IPNet_ones := 0 |};
     NextServer := None; ActiveStart := 0; ActiveEnd := 0;
     ActiveLeaseTime := 0; ActiveBits := []; ReservedLeaseTime := 0;
     Leases := ∅; Bindings := ∅; Options := [] |}.

(** ** The repository (data.go) *)

(** [Subnets] is the map of the tracker; [database] is the content of
    [data_dir/database.json], the snapshot last written by [save_data]. *)
Record DataTracker := {
  Subnets : gmap string Subnet;
  database : gmap string apiSubnet
}.

Definition with_Subnets (m : gmap string Subnet) (dt : DataTracker)
  : DataTracker :=
  {| Subnets := m; database := database dt |}.

(** The pair [(error, int)] returned by the repository operations. *)
Abbreviation result := (option string * Z)%type.

Definition StatusOK : Z := 200.
Definition StatusBadRequest : Z := 400.
Definition StatusNotFound : Z := 404.
Definition StatusConflict : Z := 409.

Definition save_data (dt : DataTracker) : DataTracker :=
  {| Subnets := Subnets dt; database := MarshalJSON <$> Subnets dt |}.

(** The test in the loop of [subnetsOverlap]. *)
Definition overlaps (subnet es : Subnet) : bool :=
  Contains (Subnet_Subnet es) (IPNet_IP (Subnet_Subnet subnet))
  || Contains (Subnet_Subnet subnet) (IPNet_IP (Subnet_Subnet es)).

Definition subnetsOverlap (dt : DataTracker) (subnet : Subnet) : bool :=
  existsb (overlaps subnet) (map_to_list (Subnets dt)).*2.

Definition AddSubnet (dt : DataTracker) (s : Subnet) : result * DataTracker :=
  match Subnets dt !! Name s with
  | Some _ => ((Some "Already exists"%string, StatusConflict), dt)
  | None =>
      if subnetsOverlap dt s
      then ((Some "Subnet overlaps with existing subnet"%string,
             StatusBadRequest), dt)
      else
        let dt := with_Subnets (<[Name s := s]> (Subnets dt)) dt in
        ((None, StatusOK), save_data dt)
  end.

Definition RemoveSubnet (dt : DataTracker) (subnetName : string)
  : result * DataTracker :=
  match Subnets dt !! subnetName with
  | None => ((Some "Not Found"%string, StatusNotFound), dt)
  | Some _ =>
      let dt := with_Subnets (delete subnetName (Subnets dt)) dt in
      ((None, StatusOK), save_data dt)
  end.

(** [ReplaceSubnet]: the result, the caller's subnet object afterwards
    (its fields are overwritten before the overlap test) and the tracker
    afterwards. *)
Definition ReplaceSubnet (dt : DataTracker) (subnetName : string)
    (subnet : Subnet) : result * Subnet * DataTracker :=
  match Subnets dt !! subnetName with
  | None => ((Some "Not Found"%string, StatusNotFound), subnet, dt)
  | Some lsubnet =>
      let subnet := with_Leases (Leases lsubnet) subnet in
      let subnet := with_Bindings (Bindings lsubnet) subnet in
      let subnet := with_ActiveBits (ActiveBits lsubnet) subnet in
      let dt := with_Subnets (delete (Name lsubnet) (Subnets dt)) dt in
      if subnetsOverlap dt subnet
      then
        let dt := with_Subnets (<[Name lsubnet := lsubnet]> (Subnets dt)) dt in
        ((Some "Subnet overlaps with existing subnet"%string,
          StatusBadRequest), subnet, dt)
      else
        let dt := with_Subnets (<[Name subnet := subnet]> (Subnets dt)) dt in
        ((None, StatusOK), subnet, save_data dt)
  end.

(** [AddBinding]: [lsubnet] is a pointer, so the writes land in the entry
    of [dt.Subnets] under [subnetName]. *)
Definition AddBinding (dt : DataTracker) (subnetName : string)
    (binding : Binding) : result * DataTracker :=
  match Subnets dt !! subnetName with
  | None => ((Some "Not Found"%string, StatusNotFound), dt)
  | Some lsubnet =>
      let lsubnet :=
        match Bindings lsubnet !! Binding_Mac binding with
        | Some b =>
            if dhcp.IPInRange (ActiveStart lsubnet) (ActiveEnd lsubnet)
                 (Binding_Ip b)
            then with_ActiveBits
                   (bitset.Clear
                      (to_uint
                         (dhcp.IPRange (ActiveStart lsubnet) (Binding_Ip b) - 1))
                      (ActiveBits lsubnet)) lsubnet
            else lsubnet
        | None => lsubnet
        end in
      let lsubnet :=
        if dhcp.IPInRange (ActiveStart lsubnet) (ActiveEnd lsubnet)
             (Binding_Ip binding)
        then with_ActiveBits
               (bitset.Set_
                  (to_uint
                     (dhcp.IPRange (ActiveStart lsubnet) (Binding_Ip binding) - 1))
                  (ActiveBits lsubnet)) lsubnet
        else lsubnet in
      let lsubnet :=
        with_Bindings (<[Binding_Mac binding := binding]> (Bindings lsubnet))
          lsubnet in
      let dt := with_Subnets (<[subnetName := lsubnet]> (Subnets dt)) dt in
      ((None, StatusOK), save_data dt)
  end.

Definition DeleteBinding (dt : DataTracker) (subnetName mac : string)
  : result * DataTracker :=
  match Subnets dt !! subnetName with
  | None => ((Some "Subnet Not Found"%string, StatusNotFound), dt)
  | Some lsubnet =>
      match Bindings lsubnet !! mac with
      | None => ((Some "Binding Not Found"%string, StatusNotFound), dt)
      | Some b =>
          let lsubnet :=
            if dhcp.IPInRange (ActiveStart lsubnet) (ActiveEnd lsubnet)
                 (Binding_Ip b)
            then with_ActiveBits
                   (bitset.Clear
                      (to_uint
                         (dhcp.IPRange (ActiveStart lsubnet) (Binding_Ip b) - 1))
                      (ActiveBits lsubnet)) lsubnet
            else lsubnet in
          let lsubnet := with_Bindings (delete mac (Bindings lsubnet)) lsubnet in
          let dt := with_Subnets (<[subnetName := lsubnet]> (Subnets dt)) dt in
          ((None, StatusOK), save_data dt)
      end
  end.

(** ** Predicates used in the statements *)

(** [bit] is the lowest clear bit of [bs]. *)
Definition lowest_clear_bit (bs : BitSet) (bit : Z) : Prop :=
  0 ≤ bit < bitset.Len bs ∧ bitset.Test bit bs = false
  ∧ ∀ j, 0 ≤ j < bit → bitset.Test j bs = true.

Definition all_bits_set (bs : BitSet) : Prop :=
  ∀ j, 0 ≤ j < bitset.Len bs → bitset.Test j bs = true.

(** What the sweep of [getFreeIP] leaves of the entry of one MAC. *)
Definition lease_after_sweep (now : Z) (l : option Lease) : option Lease :=
  match l with
  | Some lease => if ExpireTime lease <? now then None else Some lease
  | None => None
  end.

(** Two subnets that differ in their leases and bits at most. *)
Definition same_settings (s1 s2 : Subnet) : Prop :=
  Name s1 = Name s2 ∧ Subnet_Subnet s1 = Subnet_Subnet s2
  ∧ NextServer s1 = NextServer s2 ∧ ActiveStart s1 = ActiveStart s2
  ∧ ActiveEnd s1 = ActiveEnd s2 ∧ ActiveLeaseTime s1 = ActiveLeaseTime s2
  ∧ ReservedLeaseTime s1 = ReservedLeaseTime s2
  ∧ Bindings s1 = Bindings s2 ∧ Options s1 = Options s2.

(** The effect of the sweep on the map of leases, one entry at a time. *)
Definition drop_expired (now : Z) (m : gmap string Lease)
    (kl : string * Lease) : gmap string Lease :=
  if ExpireTime kl.2 <? now then delete kl.1 m else m.

(** The result of [getFreeIP] when it hands out bit [bit] of [subnet]. *)
Definition takes_bit (subnet : Subnet) (bit : Z) : option IP * bool * Subnet :=
  (Some (dhcp.IPAdd (ActiveStart subnet) bit), true,
   with_ActiveBits (bitset.Set_ bit (ActiveBits subnet)) subnet).

(** Where the address of a lease returned by [find_or_get_info] can come
    from: the binding of the MAC, the lease the MAC already has, or a bit
    of the bit set. *)
Definition address_source (subnet : Subnet) (nic : string) (ip : IP) : Prop :=
  match Bindings subnet !! nic with
  | Some b => ip = Binding_Ip b
  | None =>
      match Leases subnet !! nic with
      | Some l => ip = Lease_Ip l
      | None =>
          ∃ bit, 0 ≤ bit < bitset.Len (ActiveBits subnet)
                 ∧ ip = dhcp.IPAdd (ActiveStart subnet) bit
      end
  end.

Definition granted_address
    (r : (option Lease * option Binding) * Subnet * bool) : option IP :=
  Lease_Ip <$> r.1.1.1.

(** The binding of [nic], if any, does not contradict its lease. *)
Definition no_conflicting_binding (subnet : Subnet) (nic : string)
    (l : Lease) : Prop :=
  match Bindings subnet !! nic with
  | Some b => Lease_Ip l = Binding_Ip b
  | None => True
  end.

(** The lease [l] returned for [nic] was made by the call. *)
Definition fresh_lease (subnet : Subnet) (nic : string) (l : Lease) : Prop :=
  Leases subnet !! nic ≠ Some l.

(** Every subnet is stored under its own name. *)
Definition names_are_keys (dt : DataTracker) : Prop :=
  map_Forall (λ k s, Name s = k) (Subnets dt).

(** The subnet [ReplaceSubnet] puts in place of [lsubnet]. *)
Definition carried_forward (lsubnet subnet : Subnet) : Subnet :=
  with_ActiveBits (ActiveBits lsubnet)
    (with_Bindings (Bindings lsubnet) (with_Leases (Leases lsubnet) subnet)).

(** Some subnet of [m] overlaps [subnet]: one network contains the base
    address of the other. *)
Definition overlaps_some (m : gmap string Subnet) (subnet : Subnet) : Prop :=
  ∃ k es, m !! k = Some es ∧ overlaps subnet es = true.

(** The bit of [ip] lies inside the bit set of [s] and is clear. *)
Definition bit_is_free (s : Subnet) (ip : IP) : Prop :=
  let i := to_uint (dhcp.IPRange (ActiveStart s) ip - 1) in
  i < bitset.Len (ActiveBits s) ∧ bitset.Test i (ActiveBits s) = false.

(** A duration the snapshot keeps: whole seconds, not zero, an int64. *)
Definition whole_seconds (d : Z) : Prop :=
  d ≠ 0 ∧ d mod Second = 0 ∧ - 2 ^ 63 ≤ d < 2 ^ 63.

(** A subnet as [UnmarshalJSON] and the operations leave it: records
    stored under their own MAC, a masked network, an active range inside
    it, lease times in whole seconds. *)
Definition snapshot_wf (s : Subnet) : Prop :=
  map_Forall (λ k l, Lease_Mac l = k) (Leases s)
  ∧ map_Forall (λ k b, Binding_Mac b = k) (Bindings s)
  ∧ ParseCIDR (Subnet_Subnet s) = Some (Subnet_Subnet s)
  ∧ 0 ≤ ActiveStart s ∧ ActiveStart s ≤ ActiveEnd s ∧ ActiveEnd s < 2 ^ 32
  ∧ Contains (Subnet_Subnet s) (ActiveStart s) = true
  ∧ Contains (Subnet_Subnet s) (ActiveEnd s) = true
  ∧ whole_seconds (ActiveLeaseTime s)
  ∧ whole_seconds (ReservedLeaseTime s).

(** A lease or a binding of [s] holds the address [ip]. *)
Definition holds_address (s : Subnet) (ip : IP) : Prop :=
  (∃ k l, Leases s !! k = Some l ∧ Lease_Ip l = ip)
  ∨ (∃ k b, Bindings s !! k = Some b ∧ Binding_Ip b = ip).

(** [bits] has the length of the active range of [s], and bit [i] is set
    exactly when a lease or a binding holds [ActiveStart + i]. *)
Definition bits_match_records (s : Subnet) (bits : BitSet) : Prop :=
  bitset.Len bits = dhcp.IPRange (ActiveStart s) (ActiveEnd s)
  ∧ ∀ i, 0 ≤ i < bitset.Len bits →
         (bitset.Test i bits = true ↔ holds_address s (ActiveStart s + i)).

(** The two options [UnmarshalJSON] appends. *)
Definition synthetic_options (n : MyIPNet) : list Option :=
  [ {| Code := dhcp.OptionSubnetMask; Value := IP_String (IPNet_Mask n) |};
    {| Code := dhcp.OptionBroadcastAddress;
       Value :=
         IP_String (Z.lor (IPNet_IP n) (to_uint32 (Z.lnot (IPNet_Mask n)))) |} ].

(** The bit of [ip] set when [ip] lies in the range, as the two loops of
    [UnmarshalJSON] do. *)
Definition mark_bits (start stop ip : IP) (bits : BitSet) : BitSet :=
  if dhcp.IPInRange start stop ip
  then bitset.Set_ (to_uint (dhcp.IPRange start ip - 1)) bits
  else bits.

(** [m[key v] = v]. *)
Definition insert_by {A : Type} (key : A → string) (m : gmap string A)
    (v : A) : gmap string A :=
  <[key v := v]> m.

(** ** The scenarios of the specification *)

Definition ip4 (a b c d : Z) : IP :=
  Z.lor (Z.lor (Z.shiftl a 24) (Z.shiftl b 16)) (Z.lor (Z.shiftl c 8) d).

(** Subnet 10.0.0.0/24 with the active range 10.0.0.10 to 10.0.0.12 and a
    lease time of 60 s, as decoded from its JSON form. *)
Module S1.

Definition lan_json : apiSubnet :=
  {| api_Name := "lan";
     api_Subnet := {| IPNet_IP := ip4 10 0 0 0; IPNet_ones := 24 |};
     api_NextServer := None;
     api_ActiveStart := ip4 10 0 0 10;
     api_ActiveEnd := ip4 10 0 0 12;
     api_ActiveLeaseTime := 60;
     api_ReservedLeaseTime := 0;
     api_Leases := []; api_Bindings := []; api_Options := [] |}.

Definition lan : Subnet :=
  default zero_Subnet (UnmarshalJSON zero_Subnet lan_json).

Definition mac1 : string := "aa:bb:cc:00:00:01".
Definition mac2 : string := "aa:bb:cc:00:00:02".
Definition mac3 : string := "aa:bb:cc:00:00:03".
Definition mac4 : string := "aa:bb:cc:00:00:04".

(** Two clients have been given addresses, at time 100. *)
Definition lan_two_leases : Subnet :=
  let s := (find_or_get_info lan mac1 0 100).1.2 in
  (find_or_get_info s mac2 0 100).1.2.

(** A third client takes the last address: the range is full. *)
Definition lan_full : Subnet :=
  (find_or_get_info lan_two_leases mac3 0 100).1.2.

End S1.

Module Repo.

Definition empty : DataTracker := {| Subnets := ∅; database := ∅ |}.

Definition with_lan : DataTracker := (AddSubnet empty S1.lan).2.

(** 10.0.0.128/25, inside the network of [lan]. *)
Definition upper_half_json : apiSubnet :=
  {| api_Name := "upper";
     api_Subnet := {| IPNet_IP := ip4 10 0 0 128; IPNet_ones := 25 |};
     api_NextServer := None;
     api_ActiveStart := ip4 10 0 0 130;
     api_ActiveEnd := ip4 10 0 0 140;
     api_ActiveLeaseTime := 60;
     api_ReservedLeaseTime := 0;
     api_Leases := []; api_Bindings := []; api_Options := [] |}.

Definition upper_half : Subnet :=
  default zero_Subnet (UnmarshalJSON zero_Subnet upper_half_json).

Definition lab_json : apiSubnet :=
  {| api_Name := "lab";
     api_Subnet := {| IPNet_IP := ip4 192 168 1 0; IPNet_ones := 24 |};
     api_NextServer := None;
     api_ActiveStart := ip4 192 168 1 10;
     api_ActiveEnd := ip4 192 168 1 20;
     api_ActiveLeaseTime := 60;
     api_ReservedLeaseTime := 0;
     api_Leases := []; api_Bindings := []; api_Options := [] |}.

Definition lab : Subnet :=
  default zero_Subnet (UnmarshalJSON zero_Subnet lab_json).

Definition with_lan_lab : DataTracker := (AddSubnet with_lan lab).2.

(** A replacement for [lan] that takes the name of [lab]. *)
Definition renamed_json : apiSubnet :=
  {| api_Name := "lab";
     api_Subnet := {| IPNet_IP := ip4 10 0 0 0; IPNet_ones := 24 |};
     api_NextServer := None;
     api_ActiveStart := ip4 10 0 0 10;
     api_ActiveEnd := ip4 10 0 0 12;
     api_ActiveLeaseTime := 60;
     api_ReservedLeaseTime := 0;
     api_Leases := []; api_Bindings := []; api_Options := [] |}.

Definition renamed : Subnet :=
  default zero_Subnet (UnmarshalJSON zero_Subnet renamed_json).

(** The repository holding [lan] with its two leases. *)
Definition with_leases : DataTracker :=
  save_data {| Subnets := {[ "lan"%string := S1.lan_two_leases ]};
               database := ∅ |}.

End Repo.

Module Bound.

(** A reservation outside the active range. *)
Definition b1 : Binding :=
  {| Binding_Ip := ip4 10 0 0 50; Binding_Mac := S1.mac2;
     Binding_Options := []; Binding_NextServer := None |}.

(** A reservation of 10.0.0.11 for the same MAC. *)
Definition b2 : Binding :=
  {| Binding_Ip := ip4 10 0 0 11; Binding_Mac := S1.mac2;
     Binding_Options := []; Binding_NextServer := None |}.

(** A reservation of 10.0.0.11, the address leased to [mac2], for
    [mac3]. *)
Definition b3 : Binding :=
  {| Binding_Ip := ip4 10 0 0 11; Binding_Mac := S1.mac3;
     Binding_Options := []; Binding_NextServer := None |}.

(** A reservation of the free address 10.0.0.12. *)
Definition b4 : Binding :=
  {| Binding_Ip := ip4 10 0 0 12; Binding_Mac := S1.mac3;
     Binding_Options := []; Binding_NextServer := None |}.

(** [lan] with the reservation [b1] for [mac2]. *)
Definition with_b1 : DataTracker := (AddBinding Repo.with_lan "lan" b1).2.

End Bound.

(** ** The rest of data.go *)

(** [FindSubnet]: the loop returns the first subnet visited whose network
    contains [ip]; [visit] is the order in which [range] goes through the
    map. *)
Definition FindSubnet_order (visit : list Subnet) (ip : IP) : option Subnet :=
  find (λ s, Contains (Subnet_Subnet s) ip) visit.

Definition FindSubnet (dt : DataTracker) (ip : IP) : option Subnet :=
  FindSubnet_order (map_to_list (Subnets dt)).*2 ip.

(** The inner loop of [FindBoundIP]: some binding of [s] has the MAC.
    [mac] is the text of the hardware address, [mac.String()]. *)
Definition has_binding_of (mac : string) (s : Subnet) : bool :=
  existsb (λ b, bool_decide (Binding_Mac b = mac))
          (map_to_list (Bindings s)).*2.

Definition FindBoundIP_order (visit : list Subnet) (mac : string)
  : option Subnet :=
  find (has_binding_of mac) visit.

Definition FindBoundIP (dt : DataTracker) (mac : string) : option Subnet :=
  FindBoundIP_order (map_to_list (Subnets dt)).*2 mac.

Definition with_NextServer (ns : option string) (b : Binding) : Binding :=
  {| Binding_Ip := Binding_Ip b; Binding_Mac := Binding_Mac b;
     Binding_Options := Binding_Options b; Binding_NextServer := ns |}.

(** The test of the loop of [SetNextServer]:
    [v.Ip.Equal(ip) && (v.NextServer == nil || *v.NextServer != server)]. *)
Definition next_server_differs (ip : IP) (server : string) (v : Binding)
  : bool :=
  (Binding_Ip v =? ip)
  && match Binding_NextServer v with
     | None => true
     | Some ns => negb (bool_decide (ns = server))
     end.

(** The body of the loop: the binding is updated in place. *)
Definition set_next_server (ip : IP) (server : string) (v : Binding)
  : Binding :=
  if next_server_differs ip server v then with_NextServer (Some server) v
  else v.

(** [SetNextServer]; [server] is the field of the [NextServer] body. *)
Definition SetNextServer (dt : DataTracker) (subnetName : string) (ip : IP)
    (server : string) : result * DataTracker :=
  match Subnets dt !! subnetName with
  | None => ((Some "Not Found"%string, StatusNotFound), dt)
  | Some lsubnet =>
      let save_me :=
        existsb (next_server_differs ip server)
                (map_to_list (Bindings lsubnet)).*2 in
      let lsubnet :=
        with_Bindings (set_next_server ip server <$> Bindings lsubnet) lsubnet in
      let dt := with_Subnets (<[subnetName := lsubnet]> (Subnets dt)) dt in
      ((None, StatusOK), if save_me then save_data dt else dt)
  end.

(** [NewDataTracker]: no subnet yet; the file of the data directory is
    what it is. *)
Definition NewDataTracker (file : gmap string apiSubnet) : DataTracker :=
  {| Subnets := ∅; database := file |}.

(** [load_data]: [json.Unmarshal] decodes every entry of the document
    into a fresh subnet and puts it into the map, whose other entries
    stay; an entry that fails to decode makes the call panic ([None]). *)
Definition load_data (dt : DataTracker) : option DataTracker :=
  let decoded := UnmarshalJSON zero_Subnet <$> database dt in
  if bool_decide (map_Forall (λ _ o, is_Some o) decoded)
  then Some (with_Subnets (omap id decoded ∪ Subnets dt) dt)
  else None.

(** [NewSubnet]. *)
Definition NewSubnet : Subnet :=
  {| Name := ""; Subnet_Subnet := {| IPNet_IP := 0; IPNet_ones := 0 |};
     NextServer := None; ActiveStart := 0; ActiveEnd := 0;
     ActiveLeaseTime := 0; ActiveBits := bitset.New 0; ReservedLeaseTime := 0;
     Leases := ∅; Bindings := ∅; Options := [] |}.

(** ** More predicates *)

(** No two subnets of the map overlap. *)
Definition no_overlap (m : gmap string Subnet) : Prop :=
  ∀ k1 k2 s1 s2, k1 ≠ k2 → m !! k1 = Some s1 → m !! k2 = Some s2 →
                 overlaps s1 s2 = false.

(** The prefix lengths of the networks are those of IPv4. *)
Definition prefixes_valid (m : gmap string Subnet) : Prop :=
  map_Forall (λ _ s, 0 ≤ IPNet_ones (Subnet_Subnet s) ≤ 32) m.

(** The active range of [s] is an IPv4 range and the bit set has one bit
    per address of it. *)
Definition range_wf (s : Subnet) : Prop :=
  0 ≤ ActiveStart s ∧ ActiveEnd s < 2 ^ 32
  ∧ bitset.Len (ActiveBits s) = dhcp.IPRange (ActiveStart s) (ActiveEnd s).

(** No lease of [s] both holds [ip] and has expired at [now]. *)
Definition no_expired_lease_on (now : Z) (s : Subnet) (ip : IP) : Prop :=
  map_Forall (λ _ l, ExpireTime l < now → Lease_Ip l ≠ ip) (Leases s).

(** No lease of [s] has expired at [now]. *)
Definition none_expired (now : Z) (s : Subnet) : Prop :=
  map_Forall (λ _ l, now ≤ ExpireTime l) (Leases s).

(** ** The management handlers (api.go) *)

(** What a handler writes: [rest.Error], [w.WriteJson] or
    [w.WriteHeader]. *)
Inductive reply (A : Type) : Type :=
| rest_Error (msg : string) (code : Z)
| WriteJson (v : A)
| WriteHeader (code : Z).

Arguments rest_Error {A} msg code.
Arguments WriteJson {A} v.
Arguments WriteHeader {A} code.

Definition StatusForbidden : Z := 403.

Definition with_Mac (mac : string) (b : Binding) : Binding :=
  {| Binding_Ip := Binding_Ip b; Binding_Mac := mac;
     Binding_Options := Binding_Options b;
     Binding_NextServer := Binding_NextServer b |}.

Section api.

(** What the handlers take from outside src/: the capability map made
    from the request ([multitenancy.NewCapabilityMap]) with its test
    [HasCapability], the tenant a subnet belongs to (the field [TenantId],
    which the [Subnet] of subnet.go does not declare) and
    [strings.ToLower]. *)
Variable CapabilityMap : Type.
Variable Tenant : Type.
Variable HasCapability : CapabilityMap → Tenant → string → bool.
Variable TenantId : Subnet → Tenant.
Variable ToLower : string → string.

(** The refusal shared by the handlers that change a stored subnet: 404
    for a caller that may not even read it, 403 otherwise. *)
Definition refuse {A : Type} (capMap : CapabilityMap) (subnet : Subnet)
  : reply A :=
  if negb (HasCapability capMap (TenantId subnet) "SUBNET_READ")
  then rest_Error "Not Found" StatusNotFound
  else rest_Error "Forbidden" StatusForbidden.

(** The request of a handler, as far as it is read: [body] is [None] for
    [r.Body == nil], [Some (inl msg)] when [DecodeJsonPayload] fails with
    the message [msg], [Some (inr v)] when it yields [v]; [capMap] is
    [None] when [NewCapabilityMap] fails. *)

(** [CreateSubnet]; [DecodeJsonPayload] runs [UnmarshalJSON] on a new
    subnet, [inr s] is that subnet. *)
Definition CreateSubnet (dt : DataTracker) (body : option (string + Subnet))
    (capMap : option CapabilityMap) : reply Subnet * DataTracker :=
  match body with
  | None => (rest_Error "Must have body" StatusBadRequest, dt)
  | Some (inl _) => (rest_Error "Bad Request" StatusBadRequest, dt)
  | Some (inr s) =>
      match capMap with
      | None => (rest_Error "Bad Request" StatusBadRequest, dt)
      | Some capMap =>
          if negb (HasCapability capMap (TenantId s) "SUBNET_CREATE")
          then (rest_Error "Forbidden" StatusForbidden, dt)
          else
            match AddSubnet dt s with
            | ((Some msg, code), dt) => (rest_Error msg code, dt)
            | ((None, _), dt) => (WriteJson s, dt)
            end
      end
  end.

Definition UpdateSubnet (dt : DataTracker) (id : string)
    (body : option (string + Subnet)) (capMap : option CapabilityMap)
  : reply Subnet * DataTracker :=
  match body with
  | None => (rest_Error "Must have body" StatusBadRequest, dt)
  | Some payload =>
      match Subnets dt !! id with
      | None => (rest_Error "Not Found" StatusNotFound, dt)
      | Some net =>
          match capMap with
          | None => (rest_Error "Bad Request" StatusBadRequest, dt)
          | Some capMap =>
              if negb (HasCapability capMap (TenantId net) "SUBNET_UPDATE")
              then (refuse capMap net, dt)
              else
                match payload with
                | inl msg => (rest_Error msg StatusBadRequest, dt)
                | inr s =>
                    match ReplaceSubnet dt id s with
                    | ((Some msg, code), _, dt) => (rest_Error msg code, dt)
                    | ((None, _), s, dt) => (WriteJson s, dt)
                    end
                end
          end
      end
  end.

Definition DeleteSubnet (dt : DataTracker) (id : string)
    (capMap : option CapabilityMap) : reply unit * DataTracker :=
  match Subnets dt !! id with
  | None => (rest_Error "Not Found" StatusNotFound, dt)
  | Some subnet =>
      match capMap with
      | None => (rest_Error "Bad Request" StatusBadRequest, dt)
      | Some capMap =>
          if negb (HasCapability capMap (TenantId subnet) "SUBNET_DESTROY")
          then (refuse capMap subnet, dt)
          else
            match RemoveSubnet dt id with
            | ((Some msg, code), dt) => (rest_Error msg code, dt)
            | ((None, code), dt) => (WriteHeader code, dt)
            end
      end
  end.

Definition BindSubnet (dt : DataTracker) (id : string)
    (body : option (string + Binding)) (capMap : option CapabilityMap)
  : reply Binding * DataTracker :=
  match body with
  | None => (rest_Error "Must have body" StatusBadRequest, dt)
  | Some (inl msg) => (rest_Error msg StatusBadRequest, dt)
  | Some (inr binding) =>
      let binding := with_Mac (ToLower (Binding_Mac binding)) binding in
      match Subnets dt !! id with
      | None => (rest_Error "Not Found" StatusNotFound, dt)
      | Some subnet =>
          match capMap with
          | None => (rest_Error "Bad Request" StatusBadRequest, dt)
          | Some capMap =>
              if negb (HasCapability capMap (TenantId subnet) "SUBNET_UPDATE")
              then (refuse capMap subnet, dt)
              else
                match AddBinding dt id binding with
                | ((Some msg, code), dt) => (rest_Error msg code, dt)
                | ((None, _), dt) => (WriteJson binding, dt)
                end
          end
      end
  end.

Definition UnbindSubnet (dt : DataTracker) (id mac : string)
    (capMap : option CapabilityMap) : reply unit * DataTracker :=
  let mac := ToLower mac in
  match Subnets dt !! id with
  | None => (rest_Error "Not Found" StatusNotFound, dt)
  | Some subnet =>
      match capMap with
      | None => (rest_Error "Bad Request" StatusBadRequest, dt)
      | Some capMap =>
          if negb (HasCapability capMap (TenantId subnet) "SUBNET_UPDATE")
          then (refuse capMap subnet, dt)
          else
            match DeleteBinding dt id mac with
            | ((Some msg, code), dt) => (rest_Error msg code, dt)
            | ((None, _), dt) => (WriteHeader StatusOK, dt)
            end
      end
  end.

(** The handler [NextServer]; [server] is the decoded body, [ip] the
    address of the path. *)
Definition NextServer_handler (dt : DataTracker) (id : string) (ip : IP)
    (body : option (string + string)) (capMap : option CapabilityMap)
  : reply string * DataTracker :=
  match body with
  | None => (rest_Error "Must have body" StatusBadRequest, dt)
  | Some (inl msg) => (rest_Error msg StatusBadRequest, dt)
  | Some (inr server) =>
      match Subnets dt !! id with
      | None => (rest_Error "Not Found" StatusNotFound, dt)
      | Some subnet =>
          match capMap with
          | None => (rest_Error "Bad Request" StatusBadRequest, dt)
          | Some capMap =>
              if negb (HasCapability capMap (TenantId subnet) "SUBNET_UPDATE")
              then (refuse capMap subnet, dt)
              else
                match SetNextServer dt id ip server with
                | ((Some msg, code), dt) => (rest_Error msg code, dt)
                | ((None, _), dt) => (WriteJson server, dt)
                end
          end
      end
  end.

End api.

(** A refusal: an error with status 400, 403 or 404. *)
Definition refused {A : Type} (r : reply A) : Prop :=
  ∃ msg code, r = rest_Error msg code
              ∧ (code = StatusBadRequest ∨ code = StatusForbidden
                 ∨ code = StatusNotFound).

(** [strings.ToLower] on ASCII text, letter by letter. *)
Definition lower_ascii (c : Ascii.ascii) : Ascii.ascii :=
  let n := Ascii.nat_of_ascii c in
  if ((65 <=? n) && (n <=? 90))%nat then Ascii.ascii_of_nat (n + 32) else c.

Fixpoint lower_ASCII (s : string) : string :=
  match s with
  | EmptyString => EmptyString
  | String c s => String (lower_ascii c) (lower_ASCII s)
  end.

(** ** More data for the scenarios *)

Module Plain.

(** A rendering without templates: no client options, a text renders to
    itself, and the payload of an option is the bytes of its text. *)
Definition Packet : Type := unit.

Definition decode_options (p : Packet) : gmap Z string := ∅.

Definition template_execute (text : string) (srcOpts : gmap Z string)
  : option string := Some text.

Fixpoint string_bytes (s : string) : list Z :=
  match s with
  | EmptyString => []
  | String c s => Z.of_nat (Ascii.nat_of_ascii c) :: string_bytes s
  end.

Definition convertOptionValueToByte (code : Z) (text : string)
  : option (list Z) := Some (string_bytes text).

(** A capability map that grants reading only, and one that grants
    everything; a single tenant. *)
Definition read_only (cm : unit) (t : unit) (cap : string) : bool :=
  bool_decide (cap = "SUBNET_READ"%string).

Definition grant_all (cm : unit) (t : unit) (cap : string) : bool := true.

Definition TenantId (s : Subnet) : unit := tt.

End Plain.

Module More.

(** The subnet [lan] of the repository that holds the reservation
    [Bound.b1]. *)
Definition lan_b1 : Subnet :=
  default zero_Subnet (Subnets Bound.with_b1 !! "lan"%string).

(** A binding sent with an upper-case MAC. *)
Definition b_upper : Binding :=
  {| Binding_Ip := ip4 10 0 0 50; Binding_Mac := "AA:BB:CC:00:00:0F";
     Binding_Options := []; Binding_NextServer := None |}.

End More.

(** * Properties

    ** Bit sets *)

Section bitset_facts.
Implicit Types (b : BitSet) (i j : Z).

Lemma Len_nonneg b : 0 ≤ bitset.Len b.
Proof. unfold bitset.Len. lia. Qed.

Lemma Test_true b i :
  0 ≤ i → (bitset.Test i b = true ↔ b !! Z.to_nat i = Some true).
Proof.
  intros Hi. unfold bitset.Test, bitset.Len.
  destruct (Z.leb_spec (Z.of_nat (length b)) i) as [Hle | Hlt].
  - rewrite lookup_ge_None_2 by lia. split; discriminate.
  - destruct (b !! Z.to_nat i) as [[]|] eqn:E; simpl; split; congruence.
Qed.

Lemma Test_ge b i : bitset.Len b ≤ i → bitset.Test i b = false.
Proof.
  intros H. unfold bitset.Test.
  destruct (Z.leb_spec (bitset.Len b) i); [done | lia].
Qed.

Lemma Len_New n : 0 ≤ n → bitset.Len (bitset.New n) = n.
Proof. intros. unfold bitset.Len, bitset.New. rewrite length_replicate. lia. Qed.

Lemma Test_New n i : bitset.Test i (bitset.New n) = false.
Proof.
  unfold bitset.Test. case_match; [done|].
  unfold bitset.New.
  destruct (replicate (Z.to_nat n) false !! Z.to_nat i) as [x|] eqn:E; [|done].
  apply lookup_replicate in E as [-> _]. done.
Qed.

Lemma Len_Set_lt b i : 0 ≤ i < bitset.Len b → bitset.Len (bitset.Set_ i b) = bitset.Len b.
Proof.
  intros H. unfold bitset.Set_, bitset.extendSetMaybe.
  destruct (Z.leb_spec (bitset.Len b) i); [lia|].
  unfold bitset.Len. by rewrite length_insert.
Qed.

Lemma Test_Set_lt b i j :
  0 ≤ i < bitset.Len b → 0 ≤ j →
  bitset.Test j (bitset.Set_ i b) = if decide (i = j) then true else bitset.Test j b.
Proof.
  intros Hi Hj. unfold bitset.Set_, bitset.extendSetMaybe.
  destruct (Z.leb_spec (bitset.Len b) i); [lia|].
  unfold bitset.Test, bitset.Len in *. rewrite length_insert.
  destruct (Z.leb_spec (Z.of_nat (length b)) j).
  - case_decide; [lia | done].
  - case_decide as Hd.
    + subst j. rewrite list_lookup_insert_eq by lia. done.
    + rewrite list_lookup_insert_ne by lia. done.
Qed.

Lemma Len_Clear b i : bitset.Len (bitset.Clear i b) = bitset.Len b.
Proof.
  unfold bitset.Clear. case_match; [done|].
  unfold bitset.Len. by rewrite length_insert.
Qed.

Lemma Clear_ge b i : bitset.Len b ≤ i → bitset.Clear i b = b.
Proof.
  intros H. unfold bitset.Clear.
  destruct (Z.leb_spec (bitset.Len b) i); [done | lia].
Qed.

Lemma Test_Clear b i j :
  0 ≤ i → 0 ≤ j →
  bitset.Test j (bitset.Clear i b)
  = if decide (i = j) then false else bitset.Test j b.
Proof.
  intros Hi Hj. unfold bitset.Clear.
  destruct (Z.leb_spec (bitset.Len b) i) as [Hle|Hlt].
  - case_decide; [subst; by apply Test_ge | done].
  - unfold bitset.Test, bitset.Len in *. rewrite length_insert.
    destruct (Z.leb_spec (Z.of_nat (length b)) j).
    + by case_decide.
    + case_decide.
      * subst j. rewrite list_lookup_insert_eq by lia. done.
      * rewrite list_lookup_insert_ne by lia. done.
Qed.

(** Two bit sets of one length with the same bits are the same. *)
Lemma BitSet_eq b1 b2 :
  bitset.Len b1 = bitset.Len b2 →
  (∀ i, 0 ≤ i < bitset.Len b1 → bitset.Test i b1 = bitset.Test i b2) →
  b1 = b2.
Proof.
  intros Hlen Hbits. apply list_eq_same_length with (length b1);
    [unfold bitset.Len in *; lia | done |].
  intros n x y Hn Hx Hy.
  specialize (Hbits (Z.of_nat n)).
  unfold bitset.Test, bitset.Len in *.
  destruct (Z.leb_spec (Z.of_nat (length b1)) (Z.of_nat n)); [lia|].
  destruct (Z.leb_spec (Z.of_nat (length b2)) (Z.of_nat n)); [lia|].
  rewrite Nat2Z.id, Hx, Hy in Hbits. simpl in Hbits. apply Hbits. lia.
Qed.

Lemma Clear_Set_free b i :
  0 ≤ i < bitset.Len b → bitset.Test i b = false →
  bitset.Clear i (bitset.Set_ i b) = b.
Proof.
  intros Hi Hfree. apply BitSet_eq.
  - rewrite Len_Clear. by apply Len_Set_lt.
  - intros j Hj. rewrite Len_Clear, Len_Set_lt in Hj by done.
    rewrite Test_Clear by lia. case_decide; [by subst|].
    rewrite Test_Set_lt by lia. by case_decide.
Qed.

End bitset_facts.

(** ** Integers and address ranges *)

Lemma to_uint_nonneg z : 0 ≤ to_uint z.
Proof. unfold to_uint. apply Z.mod_pos_bound. lia. Qed.

Lemma to_uint_small z : 0 ≤ z < 2 ^ 64 → to_uint z = z.
Proof. intros. unfold to_uint. by apply Z.mod_small. Qed.

Lemma IPInRange_true start stop ip :
  dhcp.IPInRange start stop ip = true ↔ start ≤ ip ≤ stop.
Proof.
  unfold dhcp.IPInRange, dhcp.IPLess.
  rewrite negb_true_iff, orb_false_iff, !Z.ltb_ge. lia.
Qed.

(** ** The scan for the lowest clear bit *)

Section free_ip_facts.

Lemma firstClearBit_loop_spec n i bs :
  0 ≤ i → bitset.Len bs ≤ i + Z.of_nat n →
  match firstClearBit_loop n i bs with
  | Some k => i ≤ k < bitset.Len bs ∧ bitset.Test k bs = false
              ∧ ∀ j, i ≤ j < k → bitset.Test j bs = true
  | None => ∀ j, i ≤ j < bitset.Len bs → bitset.Test j bs = true
  end.
Proof.
  revert i. induction n as [|n IH]; intros i Hi Hn; simpl.
  - intros j Hj. lia.
  - destruct (Z.ltb_spec i (bitset.Len bs)) as [Hlt|Hge]; [|intros j Hj; lia].
    assert (Hi' : 0 ≤ i + 1) by lia.
    assert (Hn' : bitset.Len bs ≤ i + 1 + Z.of_nat n) by lia.
    specialize (IH (i + 1) Hi' Hn').
    destruct (bitset.Test i bs) eqn:Ht; simpl.
    + destruct (firstClearBit_loop n (i + 1) bs) as [k|].
      * destruct IH as (Hk & Hc & Hlow).
        split; [lia|]. split; [done|].
        intros j Hj. destruct (decide (j = i)) as [->|]; [done|].
        apply Hlow. lia.
      * intros j Hj. destruct (decide (j = i)) as [->|]; [done|].
        apply IH. lia.
    + split; [lia|]. split; [done|]. intros j Hj. lia.
Qed.

(** The scan always ends, with the lowest clear bit or with the news
    that there is none. *)
Lemma firstClearBit_spec bs :
  match firstClearBit bs with
  | Some bit => lowest_clear_bit bs bit
  | None => all_bits_set bs
  end.
Proof.
  unfold firstClearBit.
  assert (H0 : bitset.Len bs ≤ 0 + Z.of_nat (length bs))
    by (unfold bitset.Len; lia).
  pose proof (firstClearBit_loop_spec (length bs) 0 bs (Z.le_refl 0) H0) as H.
  destruct (firstClearBit_loop (length bs) 0 bs); exact H.
Qed.

Lemma firstClearBit_Some bs bit :
  firstClearBit bs = Some bit → lowest_clear_bit bs bit.
Proof.
  intros H. pose proof (firstClearBit_spec bs) as Hs. by rewrite H in Hs.
Qed.

Lemma lowest_clear_bit_unique bs b1 b2 :
  lowest_clear_bit bs b1 → lowest_clear_bit bs b2 → b1 = b2.
Proof.
  intros (H1 & Hc1 & Hl1) (H2 & Hc2 & Hl2).
  destruct (Z.lt_trichotomy b1 b2) as [Hlt | [-> | Hgt]]; [|done|].
  - rewrite Hl2 in Hc1 by lia. done.
  - rewrite Hl1 in Hc2 by lia. done.
Qed.

Lemma lowest_clear_bit_first bs bit :
  lowest_clear_bit bs bit → firstClearBit bs = Some bit.
Proof.
  intros H. pose proof (firstClearBit_spec bs) as Hs.
  destruct (firstClearBit bs) as [b|].
  - f_equal. by eapply lowest_clear_bit_unique.
  - destruct H as (Hb & Hc & _). rewrite Hs in Hc by done. done.
Qed.

Lemma all_bits_set_first bs : all_bits_set bs → firstClearBit bs = None.
Proof.
  intros H. pose proof (firstClearBit_spec bs) as Hs.
  destruct (firstClearBit bs) as [b|]; [|done].
  destruct Hs as (Hb & Hc & _). rewrite H in Hc by done. done.
Qed.

(** One of the two cases of [getFreeIP] always applies. *)
Lemma lowest_clear_bit_or_full bs :
  (∃ bit, lowest_clear_bit bs bit) ∨ all_bits_set bs.
Proof.
  pose proof (firstClearBit_spec bs) as Hs.
  destruct (firstClearBit bs) as [b|]; eauto.
Qed.

End free_ip_facts.

(** ** The sweep of expired leases *)

Section sweep_facts.
Variable now : Z.

Lemma same_settings_refl s : same_settings s s.
Proof. by repeat split. Qed.

Lemma same_settings_trans s1 s2 s3 :
  same_settings s1 s2 → same_settings s2 s3 → same_settings s1 s3.
Proof.
  unfold same_settings. intros H1 H2.
  destruct_and!. split_and!; congruence.
Qed.

Lemma sweep_lease_settings acc kl :
  same_settings acc.1 (sweep_lease now acc kl).1
  ∧ bitset.Len (ActiveBits (sweep_lease now acc kl).1)
    = bitset.Len (ActiveBits acc.1).
Proof.
  destruct acc as [s b], kl as [k l]. unfold sweep_lease. simpl.
  repeat case_match; simpl; rewrite ?Len_Clear;
    (split; [by repeat split | done]).
Qed.

Lemma sweep_fold_settings l acc :
  same_settings acc.1 (fold_left (sweep_lease now) l acc).1
  ∧ bitset.Len (ActiveBits (fold_left (sweep_lease now) l acc).1)
    = bitset.Len (ActiveBits acc.1).
Proof.
  revert acc. induction l as [|kl l IH]; intros acc; simpl.
  - split; [apply same_settings_refl | done].
  - destruct (IH (sweep_lease now acc kl)) as [H1 H2].
    destruct (sweep_lease_settings acc kl) as [H3 H4].
    split; [by eapply same_settings_trans | congruence].
Qed.

Lemma sweep_fold_Leases l acc :
  Leases (fold_left (sweep_lease now) l acc).1
  = fold_left (drop_expired now) l (Leases acc.1).
Proof.
  revert acc. induction l as [|[k v] l IH]; intros [s b]; [done|].
  simpl. rewrite IH. f_equal.
  unfold sweep_lease, drop_expired. simpl. by repeat case_match.
Qed.

Lemma sweep_fold_flag l acc :
  (fold_left (sweep_lease now) l acc).2
  = acc.2 || existsb (λ kl : string * Lease, ExpireTime kl.2 <? now) l.
Proof.
  revert acc. induction l as [|[k v] l IH]; intros [s b]; simpl.
  - by rewrite orb_false_r.
  - rewrite IH. unfold sweep_lease. simpl.
    by destruct b, (ExpireTime v <? now).
Qed.

Lemma lookup_drop_expired l m k :
  fold_left (drop_expired now) l m !! k
  = if existsb (λ kl : string * Lease,
                  bool_decide (kl.1 = k) && (ExpireTime kl.2 <? now)) l
    then None else m !! k.
Proof.
  revert m. induction l as [|[k' v] l IH]; intros m; [done|].
  simpl. rewrite IH. unfold drop_expired. simpl.
  destruct (ExpireTime v <? now); simpl.
  - case_bool_decide as Hk; simpl.
    + subst. case_match; [done | apply lookup_delete_eq].
    + case_match; [done | by apply lookup_delete_ne].
  - by rewrite andb_false_r.
Qed.

(** The sweep removes the expired leases and no other. *)
Lemma sweep_leases_lookup subnet k :
  Leases (sweep_leases now subnet).1 !! k
  = lease_after_sweep now (Leases subnet !! k).
Proof.
  unfold sweep_leases. rewrite sweep_fold_Leases, lookup_drop_expired. simpl.
  unfold lease_after_sweep.
  destruct (existsb _ _) eqn:E.
  - apply existsb_exists in E as ([k' v] & Hin & Hv). simpl in Hv.
    apply andb_prop in Hv as [Hk Hv]. apply bool_decide_eq_true in Hk.
    subst k'.
    apply list_elem_of_In, elem_of_map_to_list in Hin. by rewrite Hin, Hv.
  - destruct (Leases subnet !! k) as [v|] eqn:Hl; [|done].
    destruct (ExpireTime v <? now) eqn:Hv; [|done].
    assert (existsb (λ kl : string * Lease,
              bool_decide (kl.1 = k) && (ExpireTime kl.2 <? now))
              (map_to_list (Leases subnet)) = true) as E'; [|congruence].
    apply existsb_exists. exists (k, v). split.
    + by apply list_elem_of_In, elem_of_map_to_list.
    + simpl. by rewrite bool_decide_eq_true_2, Hv.
Qed.

Lemma sweep_leases_flag subnet :
  (sweep_leases now subnet).2 = true
  ↔ ∃ k l, Leases subnet !! k = Some l ∧ ExpireTime l < now.
Proof.
  unfold sweep_leases. rewrite sweep_fold_flag. simpl.
  rewrite existsb_exists. split.
  - intros ([k v] & Hin & Hv). exists k, v.
    apply list_elem_of_In, elem_of_map_to_list in Hin. simpl in Hv.
    split; [done | lia].
  - intros (k & v & Hin & Hv). exists (k, v). split.
    + by apply list_elem_of_In, elem_of_map_to_list.
    + simpl. lia.
Qed.

End sweep_facts.

(** ** Free-address search and lease release *)

Lemma firstClearBit_None bs : firstClearBit bs = None → all_bits_set bs.
Proof.
  intros H. pose proof (firstClearBit_spec bs) as Hs. by rewrite H in Hs.
Qed.

(** What the index computed by [free_lease] and by the sweep amounts to:
    for a lease above [ActiveStart] it lies past the end of any bit set
    of an IPv4 range, and the bits stay as they are. *)
Lemma free_lease_keeps_bits s nic lease :
  Leases s !! nic = Some lease →
  ActiveStart s < Lease_Ip lease ≤ ActiveEnd s →
  0 ≤ ActiveStart s → ActiveEnd s < 2 ^ 32 →
  bitset.Len (ActiveBits s) ≤ 2 ^ 32 →
  ActiveBits (free_lease s nic).1 = ActiveBits s
  ∧ Leases (free_lease s nic).1 = delete nic (Leases s).
Proof.
  intros Hl Hip Hs He Hlen. unfold free_lease. rewrite Hl.
  assert (dhcp.IPInRange (ActiveStart s) (ActiveEnd s) (Lease_Ip lease) = true)
    as -> by (apply IPInRange_true; lia).
  simpl. split; [|done].
  apply Clear_ge. unfold to_uint, dhcp.IPRange.
  assert ((ActiveStart s - Lease_Ip lease + 1 - 1) mod 2 ^ 64
          = 2 ^ 64 + (ActiveStart s - Lease_Ip lease)) as ->; [|lia].
  symmetry. apply Z.mod_unique with (-1); lia.
Qed.

(** C1 (code at the failing input).  In subnet 10.0.0.0/24 with the active
    range 10.0.0.10 to 10.0.0.12, two clients hold 10.0.0.10 and 10.0.0.11.
    The lease of the second lies in the active range at offset 1, and
    [free_lease] removes it, but bit 1 of [ActiveBits] stays set although
    no lease and no binding holds 10.0.0.11 any more: the index handed to
    [Clear] is [uint (ActiveStart - lease.Ip)], far past the end of the bit
    set, so nothing is cleared. *)
Theorem free_lease_leaves_bit_set :
  let s := S1.lan_two_leases in
  let s' := (free_lease s S1.mac2).1 in
  Leases s !! S1.mac2
  = Some {| Lease_Ip := ip4 10 0 0 11; Lease_Mac := S1.mac2; Valid := true;
            ExpireTime := 0 |}
  ∧ dhcp.IPInRange (ActiveStart s) (ActiveEnd s) (ip4 10 0 0 11) = true
  ∧ ActiveStart s + 1 = ip4 10 0 0 11
  ∧ to_uint (dhcp.IPRange (ip4 10 0 0 11) (ActiveStart s) - 1) = 2 ^ 64 - 1
  ∧ ActiveBits s = [true; true; false]
  ∧ Leases s'
    = {[ S1.mac1 := {| Lease_Ip := ip4 10 0 0 10; Lease_Mac := S1.mac1;
                       Valid := true; ExpireTime := 0 |} ]}
  ∧ Bindings s' = ∅
  ∧ ActiveBits s' = [true; true; false]
  ∧ bitset.Test 1 (ActiveBits s') = true.
Proof. vm_compute. repeat split. Qed.

(** C2 (counterexample).  The fresh subnet has bit 0 clear, and [getFreeIP]
    hands out bit 0, yet what it returns is not the triple with the flag
    [false] that the claim describes: the flag is [true]. *)
Lemma getFreeIP_flag_not_false :
  lowest_clear_bit (ActiveBits S1.lan) 0
  ∧ getFreeIP S1.lan 100
    ≠ (Some (dhcp.IPAdd (ActiveStart S1.lan) 0), false,
       with_ActiveBits (bitset.Set_ 0 (ActiveBits S1.lan)) S1.lan).
Proof.
  split.
  - apply firstClearBit_Some. vm_compute. reflexivity.
  - vm_compute. discriminate.
Qed.

(** C2 (amended).  [getFreeIP]: when the bit set has a clear bit, the
    lowest clear bit is set and its address returned, with the flag [true];
    when the bit set is full, every lease with [ExpireTime < now] is
    removed and no other, nothing but leases and bits changes, and the
    rescan of the swept bit set decides: its lowest clear bit is set and
    its address returned with the flag [true], or nothing is returned
    together with the flag that tells whether a lease was removed. *)
Theorem getFreeIP_algorithm subnet now :
  (∀ bit, lowest_clear_bit (ActiveBits subnet) bit →
     getFreeIP subnet now = takes_bit subnet bit)
  ∧ (all_bits_set (ActiveBits subnet) →
       let swept := (sweep_leases now subnet).1 in
       let reclaimed := (sweep_leases now subnet).2 in
       (∀ k, Leases swept !! k = lease_after_sweep now (Leases subnet !! k))
       ∧ same_settings subnet swept
       ∧ (reclaimed = true ↔
            ∃ k l, Leases subnet !! k = Some l ∧ ExpireTime l < now)
       ∧ (∀ bit, lowest_clear_bit (ActiveBits swept) bit →
            getFreeIP subnet now = takes_bit swept bit)
       ∧ (all_bits_set (ActiveBits swept) →
            getFreeIP subnet now = (None, reclaimed, swept))).
Proof.
  split.
  - intros bit Hbit. unfold getFreeIP.
    by rewrite (lowest_clear_bit_first _ _ Hbit).
  - intros Hfull. simpl.
    split; [intros k; apply sweep_leases_lookup|].
    split; [apply (sweep_fold_settings now _ (subnet, false))|].
    split; [apply sweep_leases_flag|].
    unfold getFreeIP. rewrite (all_bits_set_first _ Hfull).
    destruct (sweep_leases now subnet) as [swept reclaimed]. simpl.
    split.
    + intros bit Hbit. by rewrite (lowest_clear_bit_first _ _ Hbit).
    + intros Hfull'. by rewrite (all_bits_set_first _ Hfull').
Qed.

Lemma getFreeIP_algorithm_witness :
  (lowest_clear_bit (ActiveBits S1.lan) 0
   ∧ getFreeIP S1.lan 100 = takes_bit S1.lan 0)
  ∧ (all_bits_set (ActiveBits S1.lan_full)
     ∧ ∀ k, Leases (sweep_leases 100 S1.lan_full).1 !! k
            = lease_after_sweep 100 (Leases S1.lan_full !! k)).
Proof.
  assert (H0 : lowest_clear_bit (ActiveBits S1.lan) 0)
    by (apply firstClearBit_Some; vm_compute; reflexivity).
  assert (H1 : all_bits_set (ActiveBits S1.lan_full))
    by (apply firstClearBit_None; vm_compute; reflexivity).
  split.
  - split; [exact H0|].
    exact (proj1 (getFreeIP_algorithm S1.lan 100) 0 H0).
  - split; [exact H1|].
    exact (proj1 (proj2 (getFreeIP_algorithm S1.lan_full 100) H1)).
Defined.

(** ** Find or allocate *)

Lemma getFreeIP_address subnet now ip flag subnet' :
  getFreeIP subnet now = (Some ip, flag, subnet') →
  ∃ bit, 0 ≤ bit < bitset.Len (ActiveBits subnet)
         ∧ ip = dhcp.IPAdd (ActiveStart subnet) bit.
Proof.
  unfold getFreeIP. intros H.
  destruct (firstClearBit (ActiveBits subnet)) as [bit|] eqn:E.
  - apply firstClearBit_Some in E as (Hb & _). simplify_eq/=. eauto.
  - pose proof (sweep_fold_settings now (map_to_list (Leases subnet))
                  (subnet, false)) as [Hs Hl].
    fold (sweep_leases now subnet) in Hs, Hl.
    destruct (sweep_leases now subnet) as [swept reclaimed]. simpl in *.
    destruct (firstClearBit (ActiveBits swept)) as [bit|] eqn:E'; [|done].
    apply firstClearBit_Some in E' as (Hb & _). simplify_eq/=.
    exists bit. split; [lia|]. destruct Hs as (_ & _ & _ & -> & _). done.
Qed.

(** C3.  The requested address never changes what [find_or_get_info] does:
    for any two suggestions the pair returned, the subnet afterwards and
    the decision to save are the same; and the address of the lease
    returned is the one of the binding of the MAC, else the one of the
    lease the MAC already has, else the address of a bit of the bit set,
    never one taken from the request. *)
Theorem find_or_get_info_ignores_suggestion subnet nic now (s1 s2 : IP) :
  find_or_get_info subnet nic s1 now = find_or_get_info subnet nic s2 now
  ∧ match granted_address (find_or_get_info subnet nic s1 now) with
    | Some ip => address_source subnet nic ip
    | None => True
    end.
Proof.
  split; [reflexivity|].
  unfold granted_address, address_source, find_or_get_info,
    find_or_get_info_slow, lease_matches_binding.
  destruct (Leases subnet !! nic) as [l|] eqn:Hl,
           (Bindings subnet !! nic) as [b|] eqn:Hb; simpl.
  - destruct (Z.eqb_spec (Lease_Ip l) (Binding_Ip b)); simpl; done.
  - done.
  - done.
  - destruct (getFreeIP subnet now) as [[[ip|] flag] subnet'] eqn:E; simpl;
      [|done].
    by eapply getFreeIP_address.
Qed.

Lemma find_or_get_info_ignores_suggestion_witness :
  find_or_get_info S1.lan_two_leases S1.mac3 (ip4 10 0 0 10) 100
  = find_or_get_info S1.lan_two_leases S1.mac3 (ip4 10 0 0 99) 100
  ∧ granted_address
      (find_or_get_info S1.lan_two_leases S1.mac3 (ip4 10 0 0 10) 100)
    = Some (ip4 10 0 0 12).
Proof.
  split.
  - exact (proj1 (find_or_get_info_ignores_suggestion S1.lan_two_leases S1.mac3
                    100 (ip4 10 0 0 10) (ip4 10 0 0 99))).
  - vm_compute. reflexivity.
Defined.

(** C9.  Outside [getFreeIP] the expiry of a lease is never looked at: a
    MAC that has a lease and no binding with another address gets that
    very lease back from [find_info] and from [find_or_get_info], whatever
    the clock says, and nothing is changed or saved; a lease made by
    [find_or_get_info] has the zero [ExpireTime] and is the one stored;
    [update_lease_time] is what sets it, to [now + d]. *)
Theorem lease_expiry_not_consulted subnet nic suggest now :
  (∀ l, Leases subnet !! nic = Some l → no_conflicting_binding subnet nic l →
     find_info subnet nic = (Some l, Bindings subnet !! nic)
     ∧ find_or_get_info subnet nic suggest now
       = ((Some l, Bindings subnet !! nic), subnet, false))
  ∧ (∀ l b subnet' saved,
       find_or_get_info subnet nic suggest now = ((Some l, b), subnet', saved) →
       fresh_lease subnet nic l →
       ExpireTime l = 0 ∧ Leases subnet' !! nic = Some l)
  ∧ (∀ l d, Leases subnet !! nic = Some l →
       Leases (update_lease_time subnet nic d now).1 !! nic
       = Some (with_ExpireTime (now + d) l)).
Proof.
  split; [|split].
  - intros l Hl Hb. unfold find_info, no_conflicting_binding in *.
    rewrite Hl. split; [done|].
    unfold find_or_get_info, lease_matches_binding. rewrite Hl.
    destruct (Bindings subnet !! nic) as [b|]; [|done].
    by rewrite Hb, Z.eqb_refl.
  - intros l b subnet' saved H Hfresh. unfold fresh_lease in Hfresh.
    unfold find_or_get_info, find_or_get_info_slow, lease_matches_binding in H.
    destruct (Leases subnet !! nic) as [l0|] eqn:Hl,
             (Bindings subnet !! nic) as [b0|] eqn:Hb; simpl in H.
    + destruct (Z.eqb_spec (Lease_Ip l0) (Binding_Ip b0)); simplify_eq/=.
      split; [done | apply lookup_insert_eq].
    + simplify_eq/=.
    + simplify_eq/=. split; [done | apply lookup_insert_eq].
    + destruct (getFreeIP subnet now) as [[[ip|] flag] s'] eqn:E; simplify_eq/=.
      split; [done | apply lookup_insert_eq].
  - intros l d Hl. unfold update_lease_time. simpl.
    by rewrite lookup_alter_eq, Hl.
Qed.

(** The lease of [mac1] was made at time 100 with the zero expiry; at time
    10^12 it is long past, and still returned. *)
Lemma lease_expiry_not_consulted_witness :
  let l := {| Lease_Ip := ip4 10 0 0 10; Lease_Mac := S1.mac1; Valid := true;
              ExpireTime := 0 |} in
  Leases S1.lan_two_leases !! S1.mac1 = Some l
  ∧ no_conflicting_binding S1.lan_two_leases S1.mac1 l
  ∧ ExpireTime l < 10 ^ 12
  ∧ find_or_get_info S1.lan_two_leases S1.mac1 0 (10 ^ 12)
    = ((Some l, Bindings S1.lan_two_leases !! S1.mac1),
       S1.lan_two_leases, false).
Proof.
  intros l.
  assert (H1 : Leases S1.lan_two_leases !! S1.mac1 = Some l)
    by (vm_compute; reflexivity).
  assert (H2 : no_conflicting_binding S1.lan_two_leases S1.mac1 l)
    by (vm_compute; exact I).
  split; [exact H1|]. split; [exact H2|]. split; [vm_compute; reflexivity|].
  exact (proj2 (proj1 (lease_expiry_not_consulted S1.lan_two_leases S1.mac1 0
                         (10 ^ 12)) l H1 H2)).
Defined.

(** ** The repository *)

Lemma subnetsOverlap_true dt subnet :
  subnetsOverlap dt subnet = true ↔ overlaps_some (Subnets dt) subnet.
Proof.
  unfold subnetsOverlap, overlaps_some. rewrite existsb_exists. split.
  - intros (es & Hin & Hov).
    apply list_elem_of_In, list_elem_of_fmap in Hin as ([k es'] & -> & Hin).
    apply elem_of_map_to_list in Hin. eauto.
  - intros (k & es & Hk & Hov). exists es. split; [|done].
    apply list_elem_of_In, list_elem_of_fmap. exists (k, es). split; [done|].
    by apply elem_of_map_to_list.
Qed.

Lemma subnetsOverlap_false dt subnet :
  subnetsOverlap dt subnet = false ↔ ¬ overlaps_some (Subnets dt) subnet.
Proof.
  rewrite <- subnetsOverlap_true. by destruct (subnetsOverlap dt subnet).
Qed.

Lemma subnetsOverlap_rest_false m dt subnet :
  subnetsOverlap (with_Subnets m dt) subnet = false ↔ ¬ overlaps_some m subnet.
Proof. apply subnetsOverlap_false. Qed.

Lemma overlaps_carried_forward old new es :
  overlaps (carried_forward old new) es = overlaps new es.
Proof. reflexivity. Qed.

(** The operations keep every subnet under its own name. *)
Lemma names_are_keys_empty : names_are_keys {| Subnets := ∅; database := ∅ |}.
Proof. apply map_Forall_empty. Qed.

Lemma AddSubnet_names_are_keys dt s :
  names_are_keys dt → names_are_keys (AddSubnet dt s).2.
Proof.
  intros H. unfold AddSubnet. repeat case_match; try done.
  simpl. by apply map_Forall_insert_2.
Qed.

Lemma RemoveSubnet_names_are_keys dt name :
  names_are_keys dt → names_are_keys (RemoveSubnet dt name).2.
Proof.
  intros H. unfold RemoveSubnet. case_match; [|done].
  simpl. by apply map_Forall_delete.
Qed.

Lemma ReplaceSubnet_names_are_keys dt name subnet :
  names_are_keys dt → names_are_keys (ReplaceSubnet dt name subnet).2.
Proof.
  intros H. unfold ReplaceSubnet.
  destruct (Subnets dt !! name) as [old|] eqn:Hold; [|done].
  case_match; simpl.
  - apply map_Forall_insert_2; [done|]. by apply map_Forall_delete.
  - apply map_Forall_insert_2; [done|]. by apply map_Forall_delete.
Qed.

Lemma AddBinding_names_are_keys dt name b :
  names_are_keys dt → names_are_keys (AddBinding dt name b).2.
Proof.
  intros H. unfold AddBinding.
  destruct (Subnets dt !! name) as [s|] eqn:Hs; [|done].
  simpl. apply map_Forall_insert_2; [|done].
  apply H in Hs. by repeat case_match.
Qed.

Lemma DeleteBinding_names_are_keys dt name mac :
  names_are_keys dt → names_are_keys (DeleteBinding dt name mac).2.
Proof.
  intros H. unfold DeleteBinding.
  destruct (Subnets dt !! name) as [s|] eqn:Hs; [|done].
  destruct (Bindings s !! mac) as [b|]; [|done].
  simpl. apply map_Forall_insert_2; [|done].
  apply H in Hs. by case_match.
Qed.

(** C6 (counterexample).  The repository holds [lan]; adding [lan] once
    more is adding a subnet whose network overlaps an existing one, and
    the answer is not BadRequest: the name is looked up first. *)
Lemma AddSubnet_overlap_without_BadRequest :
  overlaps_some (Subnets Repo.with_lan) S1.lan
  ∧ (AddSubnet Repo.with_lan S1.lan).1.2 = StatusConflict
  ∧ (AddSubnet Repo.with_lan S1.lan).1.2 ≠ StatusBadRequest.
Proof.
  split; [|split].
  - apply subnetsOverlap_true. vm_compute. reflexivity.
  - vm_compute. reflexivity.
  - vm_compute. discriminate.
Qed.

(** C6 (amended).  [AddSubnet] answers Conflict (409) exactly when the
    name is taken, and BadRequest (400) exactly when the name is free and
    the network overlaps the one of an existing subnet (one contains the
    base address of the other); in both cases an error is returned and
    the tracker is unchanged; otherwise the answer is 200 with no error,
    the subnet is stored under its name and the snapshot is written. *)
Theorem AddSubnet_outcomes dt s :
  let r := (AddSubnet dt s).1 in
  let dt' := (AddSubnet dt s).2 in
  (r.2 = StatusConflict ↔ is_Some (Subnets dt !! Name s))
  ∧ (r.2 = StatusBadRequest ↔
       Subnets dt !! Name s = None ∧ overlaps_some (Subnets dt) s)
  ∧ (r.2 = StatusConflict ∨ r.2 = StatusBadRequest → is_Some r.1 ∧ dt' = dt)
  ∧ (r.2 ≠ StatusConflict ∧ r.2 ≠ StatusBadRequest →
       r = (None, StatusOK)
       ∧ Subnets dt' = <[Name s := s]> (Subnets dt)
       ∧ database dt' = MarshalJSON <$> Subnets dt').
Proof.
  unfold AddSubnet.
  destruct (Subnets dt !! Name s) as [old|] eqn:Hold; simpl.
  { unfold StatusConflict, StatusBadRequest. split_and!.
    - split; eauto.
    - split; [intros [=] | intros [[=] _]].
    - intros _. eauto.
    - intros [? _]. done. }
  destruct (subnetsOverlap dt s) eqn:Hov; simpl.
  - apply subnetsOverlap_true in Hov.
    unfold StatusConflict, StatusBadRequest. split_and!.
    + split; [intros [=] | intros [? [=]]].
    + split; eauto.
    + intros _. eauto.
    + intros [_ ?]. done.
  - apply subnetsOverlap_false in Hov.
    unfold StatusConflict, StatusBadRequest, StatusOK. split_and!.
    + split; [intros [=] | intros [? [=]]].
    + split; [intros [=] | intros [_ ?]; done].
    + intros [[=]|[=]].
    + intros _. done.
Qed.

(** Scenario S6: 10.0.0.128/25 is refused next to 10.0.0.0/24, and the
    repository stays as it was. *)
Lemma AddSubnet_outcomes_witness :
  (AddSubnet Repo.with_lan Repo.upper_half).1.2 = StatusBadRequest
  ∧ Subnets Repo.with_lan !! Name Repo.upper_half = None
  ∧ overlaps_some (Subnets Repo.with_lan) Repo.upper_half
  ∧ (AddSubnet Repo.with_lan Repo.upper_half).2 = Repo.with_lan.
Proof.
  assert (H : (AddSubnet Repo.with_lan Repo.upper_half).1.2 = StatusBadRequest)
    by (vm_compute; reflexivity).
  pose proof (AddSubnet_outcomes Repo.with_lan Repo.upper_half)
    as (_ & H400 & Hfail & _).
  split; [exact H|].
  split; [exact (proj1 (proj1 H400 H))|].
  split; [exact (proj2 (proj1 H400 H))|].
  exact (proj2 (Hfail (or_intror H))).
Defined.

(** C5.  [ReplaceSubnet] in a repository whose subnets are stored under
    their names: an unknown name gives NotFound and nothing changes, not
    even the caller's subnet; otherwise the new subnet takes the leases,
    the bindings and the bit set of the old one as they are, and either
    it overlaps one of the remaining subnets, BadRequest is returned and
    the tracker is exactly what it was, or it is stored under its own name
    in place of the old one and the snapshot is written. *)
Theorem ReplaceSubnet_outcomes dt name new :
  names_are_keys dt →
  match Subnets dt !! name with
  | None =>
      ReplaceSubnet dt name new
      = ((Some "Not Found"%string, StatusNotFound), new, dt)
  | Some old =>
      let new' := carried_forward old new in
      let rest := delete name (Subnets dt) in
      Leases new' = Leases old ∧ Bindings new' = Bindings old
      ∧ ActiveBits new' = ActiveBits old
      ∧ (overlaps_some rest new →
           ReplaceSubnet dt name new
           = ((Some "Subnet overlaps with existing subnet"%string,
               StatusBadRequest), new', dt))
      ∧ (¬ overlaps_some rest new →
           ReplaceSubnet dt name new
           = ((None, StatusOK), new',
              {| Subnets := <[Name new := new']> rest;
                 database := MarshalJSON <$> <[Name new := new']> rest |}))
  end.
Proof.
  intros Hkeys. unfold ReplaceSubnet.
  destruct (Subnets dt !! name) as [old|] eqn:Hold; [|done].
  apply Hkeys in Hold as Hname. simpl in Hname. rewrite Hname. simpl.
  fold (carried_forward old new).
  split_and!; try done.
  - intros Hov.
    apply (subnetsOverlap_true (with_Subnets (delete name (Subnets dt)) dt)
             (carried_forward old new)) in Hov.
    rewrite Hov. unfold with_Subnets. simpl.
    rewrite insert_delete_id by done. by destruct dt.
  - intros Hov.
    apply (subnetsOverlap_false (with_Subnets (delete name (Subnets dt)) dt)
             (carried_forward old new)) in Hov.
    rewrite Hov. done.
Qed.

(** Replacing [lan], which has two leases, by a subnet of the same
    network (scenario S5), in a repository with two subnets. *)
Lemma ReplaceSubnet_outcomes_witness :
  let dt := (AddSubnet Repo.with_leases Repo.lab).2 in
  names_are_keys dt
  ∧ ¬ overlaps_some (delete "lan"%string (Subnets dt)) S1.lan
  ∧ ReplaceSubnet dt "lan" S1.lan
    = ((None, StatusOK), S1.lan_two_leases,
       {| Subnets := <[ "lan"%string := S1.lan_two_leases ]>
                       (delete "lan"%string (Subnets dt));
          database := MarshalJSON <$> <[ "lan"%string := S1.lan_two_leases ]>
                                        (delete "lan"%string (Subnets dt)) |}).
Proof.
  intros dt.
  assert (Hk : names_are_keys dt).
  { apply (bool_decide_unpack _). vm_compute. exact I. }
  assert (Hov : ¬ overlaps_some (delete "lan"%string (Subnets dt)) S1.lan).
  { apply (proj1 (subnetsOverlap_rest_false _ dt S1.lan)).
    vm_compute. reflexivity. }
  split; [exact Hk|]. split; [exact Hov|].
  exact (proj2 (proj2 (proj2 (proj2
           (ReplaceSubnet_outcomes dt "lan" S1.lan Hk)))) Hov).
Defined.

(** C10.  [ReplaceSubnet] does not look at the name of the replacement:
    when the new subnet bears the name of another stored subnet and
    overlaps none of the remaining ones, the call succeeds, the other
    subnet is overwritten by the new one, the replaced name is gone, and
    the repository has one subnet less. *)
Theorem ReplaceSubnet_overwrites_namesake dt name new old other :
  Subnets dt !! name = Some old →
  Name old = name →
  Name new ≠ name →
  Subnets dt !! Name new = Some other →
  ¬ overlaps_some (delete name (Subnets dt)) new →
  let r := ReplaceSubnet dt name new in
  r.1.1 = (None, StatusOK)
  ∧ Subnets r.2
    = <[Name new := carried_forward old new]> (delete name (Subnets dt))
  ∧ Subnets r.2 !! Name new = Some (carried_forward old new)
  ∧ Subnets r.2 !! name = None
  ∧ size (Subnets r.2) = pred (size (Subnets dt)).
Proof.
  intros Hold Hname Hne Hother Hfree. unfold ReplaceSubnet.
  rewrite Hold, Hname. simpl. fold (carried_forward old new).
  assert (subnetsOverlap (with_Subnets (delete name (Subnets dt)) dt)
            (carried_forward old new) = false) as ->.
  { by apply subnetsOverlap_false. }
  simpl. split_and!; try done.
  - apply lookup_insert_eq.
  - rewrite lookup_insert_ne by done. apply lookup_delete_eq.
  - rewrite map_size_insert_Some.
    + by rewrite map_size_delete, Hold.
    + rewrite lookup_delete_ne by done. eauto.
Qed.

(** [lan] is replaced by a subnet named [lab] while another [lab]
    (192.168.1.0/24) is stored: that one is lost. *)
Lemma ReplaceSubnet_overwrites_namesake_witness :
  Subnets Repo.with_lan_lab !! "lab"%string = Some Repo.lab
  ∧ Repo.lab ≠ carried_forward S1.lan Repo.renamed
  ∧ (ReplaceSubnet Repo.with_lan_lab "lan" Repo.renamed).1.1 = (None, StatusOK)
  ∧ Subnets (ReplaceSubnet Repo.with_lan_lab "lan" Repo.renamed).2
      !! "lab"%string
    = Some (carried_forward S1.lan Repo.renamed)
  ∧ size (Subnets (ReplaceSubnet Repo.with_lan_lab "lan" Repo.renamed).2) = 1%nat.
Proof.
  assert (H1 : Subnets Repo.with_lan_lab !! "lan"%string = Some S1.lan)
    by (vm_compute; reflexivity).
  assert (H2 : Name S1.lan = "lan"%string) by (vm_compute; reflexivity).
  assert (H3 : Name Repo.renamed ≠ "lan"%string) by (vm_compute; discriminate).
  assert (H4 : Subnets Repo.with_lan_lab !! Name Repo.renamed = Some Repo.lab)
    by (vm_compute; reflexivity).
  assert (H5 : ¬ overlaps_some (delete "lan"%string (Subnets Repo.with_lan_lab))
                   Repo.renamed).
  { apply (proj1 (subnetsOverlap_rest_false _ Repo.with_lan_lab Repo.renamed)).
    vm_compute. reflexivity. }
  pose proof (ReplaceSubnet_overwrites_namesake Repo.with_lan_lab "lan"
                Repo.renamed S1.lan Repo.lab H1 H2 H3 H4 H5)
    as (Hr & _ & Hnew & _ & Hsize).
  split; [exact H4|]. split; [vm_compute; discriminate|].
  split; [exact Hr|]. split; [exact Hnew|].
  rewrite Hsize. vm_compute. reflexivity.
Defined.

(** ** Bindings *)

(** C8 (counterexample).  Two states in which adding a binding and
    deleting it again does not give the state back.  In the first the MAC
    already has a binding (10.0.0.50): the new one replaces it and the
    deletion leaves none.  In the second 10.0.0.11 is leased to another
    client: the deletion clears bit 1, which the lease still needs. *)
Lemma add_delete_binding_not_restored :
  (let dt := Bound.with_b1 in
   let dt1 := (AddBinding dt "lan" Bound.b2).2 in
   let dt2 := (DeleteBinding dt1 "lan" (Binding_Mac Bound.b2)).2 in
   Bindings <$> (Subnets dt !! "lan"%string) = Some {[ S1.mac2 := Bound.b1 ]}
   ∧ Bindings <$> (Subnets dt2 !! "lan"%string) = Some ∅
   ∧ Subnets dt2 ≠ Subnets dt)
  ∧ (let dt := Repo.with_leases in
     let dt1 := (AddBinding dt "lan" Bound.b3).2 in
     let dt2 := (DeleteBinding dt1 "lan" (Binding_Mac Bound.b3)).2 in
     ActiveBits <$> (Subnets dt !! "lan"%string) = Some [true; true; false]
     ∧ ActiveBits <$> (Subnets dt2 !! "lan"%string) = Some [true; false; false]
     ∧ Leases <$> (Subnets dt2 !! "lan"%string)
       = Leases <$> (Subnets dt !! "lan"%string)
     ∧ Subnets dt2 ≠ Subnets dt).
Proof.
  split.
  - intros dt dt1 dt2.
    assert (H1 : Bindings <$> (Subnets dt !! "lan"%string)
                 = Some {[ S1.mac2 := Bound.b1 ]}) by (vm_compute; reflexivity).
    assert (H2 : Bindings <$> (Subnets dt2 !! "lan"%string) = Some ∅)
      by (vm_compute; reflexivity).
    split; [exact H1|]. split; [exact H2|].
    intros H. rewrite H, H1 in H2. vm_compute in H2. discriminate.
  - intros dt dt1 dt2.
    assert (H1 : ActiveBits <$> (Subnets dt !! "lan"%string)
                 = Some [true; true; false]) by (vm_compute; reflexivity).
    assert (H2 : ActiveBits <$> (Subnets dt2 !! "lan"%string)
                 = Some [true; false; false]) by (vm_compute; reflexivity).
    split; [exact H1|]. split; [exact H2|].
    split; [vm_compute; reflexivity|].
    intros H. rewrite H, H1 in H2. discriminate.
Qed.

(** C8 (amended).  When the MAC has no binding yet and the address of the
    new binding is outside the active range, or its bit lies inside the
    bit set and is clear, [AddBinding] followed by [DeleteBinding] for the
    same MAC both succeed and give the map of subnets back as it was:
    bindings, leases and bits of every subnet. *)
Theorem add_delete_binding_restores dt name b s :
  Subnets dt !! name = Some s →
  Bindings s !! Binding_Mac b = None →
  (dhcp.IPInRange (ActiveStart s) (ActiveEnd s) (Binding_Ip b) = true →
   bit_is_free s (Binding_Ip b)) →
  let r1 := AddBinding dt name b in
  let r2 := DeleteBinding r1.2 name (Binding_Mac b) in
  r1.1 = (None, StatusOK) ∧ r2.1 = (None, StatusOK)
  ∧ Subnets r2.2 = Subnets dt.
Proof.
  intros Hs Hnone Hfree. unfold AddBinding. rewrite Hs, Hnone. simpl.
  unfold DeleteBinding. simpl. rewrite lookup_insert_eq.
  destruct (dhcp.IPInRange (ActiveStart s) (ActiveEnd s) (Binding_Ip b)) eqn:Hr;
    simpl; rewrite lookup_insert_eq; simpl; rewrite ?Hr; simpl.
  - split_and!; try done. rewrite insert_insert_eq.
    destruct (Hfree eq_refl) as [Hlt Hclear].
    rewrite Clear_Set_free; [|split; [apply to_uint_nonneg | done] | done].
    rewrite delete_insert_id by done.
    destruct s; simpl. by apply insert_id.
  - split_and!; try done. rewrite insert_insert_eq, delete_insert_id by done.
    destruct s; simpl. by apply insert_id.
Qed.

(** The free address 10.0.0.12 is reserved for [mac3] and released again
    while two leases are held. *)
Lemma add_delete_binding_restores_witness :
  let dt := Repo.with_leases in
  Subnets dt !! "lan"%string = Some S1.lan_two_leases
  ∧ dhcp.IPInRange (ActiveStart S1.lan_two_leases) (ActiveEnd S1.lan_two_leases)
      (Binding_Ip Bound.b4) = true
  ∧ bit_is_free S1.lan_two_leases (Binding_Ip Bound.b4)
  ∧ Subnets (DeleteBinding (AddBinding dt "lan" Bound.b4).2 "lan"
               (Binding_Mac Bound.b4)).2
    = Subnets dt.
Proof.
  intros dt.
  assert (H1 : Subnets dt !! "lan"%string = Some S1.lan_two_leases)
    by (vm_compute; reflexivity).
  assert (H2 : Bindings S1.lan_two_leases !! Binding_Mac Bound.b4 = None)
    by (vm_compute; reflexivity).
  assert (H3 : bit_is_free S1.lan_two_leases (Binding_Ip Bound.b4))
    by (vm_compute; split; reflexivity).
  split; [exact H1|]. split; [vm_compute; reflexivity|]. split; [exact H3|].
  exact (proj2 (proj2 (add_delete_binding_restores dt "lan" Bound.b4
                         S1.lan_two_leases H1 H2 (λ _, H3)))).
Defined.

(** ** Scenarios S1 to S3 of the specification, run on the model *)

(** S1: the first client is offered 10.0.0.10.  S2: a client bound to
    10.0.0.50, outside the active range, is given that address and no bit
    is set.  S3: with 10.0.0.11 reserved and 10.0.0.10 leased, the next
    client gets 10.0.0.12. *)
Example scenarios_S1_S2_S3 :
  granted_address (find_or_get_info S1.lan S1.mac1 0 100)
  = Some (ip4 10 0 0 10)
  ∧ (let s := default zero_Subnet (Subnets Bound.with_b1 !! "lan"%string) in
     let r := find_or_get_info s S1.mac2 0 100 in
     granted_address r = Some (ip4 10 0 0 50)
     ∧ ActiveBits r.1.2 = [false; false; false])
  ∧ (let dt := (AddBinding Repo.with_lan "lan" Bound.b3).2 in
     let s := default zero_Subnet (Subnets dt !! "lan"%string) in
     let r1 := find_or_get_info s S1.mac1 0 100 in
     let r4 := find_or_get_info r1.1.2 S1.mac4 0 100 in
     granted_address r1 = Some (ip4 10 0 0 10)
     ∧ granted_address r4 = Some (ip4 10 0 0 12)
     ∧ ActiveBits r4.1.2 = [true; true; true]).
Proof. vm_compute. repeat split. Qed.

(** ** Option composition *)

Section build_options_facts.
Context (Packet : Type) (decode_options : Packet → gmap Z string)
        (template_execute : string → gmap Z string → option string)
        (convertOptionValueToByte : Z → string → option (list Z)).

Lemma fold_option_other srcOpts opts o c :
  Code o ≠ c →
  fold_option template_execute convertOptionValueToByte srcOpts opts o !! c
  = opts !! c.
Proof.
  intros Hc. unfold fold_option, RenderToDHCP.
  repeat case_match; simplify_eq; try done. by rewrite lookup_insert_ne.
Qed.

Lemma fold_options_other srcOpts l opts c :
  Forall (λ o, Code o ≠ c) l →
  fold_left (fold_option template_execute convertOptionValueToByte srcOpts)
            l opts !! c
  = opts !! c.
Proof.
  intros Hl. revert opts.
  induction Hl as [|o l Ho Hl IH]; intros opts; [done|].
  simpl. rewrite IH. by apply fold_option_other.
Qed.

(** What the code puts under options 58 and 59 when no configured
    option bears these codes: the low 32 bits of the duration, a count
    of nanoseconds, halved, and three quarters of them in uint32
    arithmetic. *)
Lemma build_options_times s lease binding p :
  Forall (λ o, Code o ≠ 58 ∧ Code o ≠ 59) (Options s) →
  Forall (λ o, Code o ≠ 58 ∧ Code o ≠ 59)
         (from_option Binding_Options [] binding) →
  let lt := match binding with
            | None => ActiveLeaseTime s
            | Some _ => ReservedLeaseTime s
            end in
  let r := build_options Packet decode_options template_execute
             convertOptionValueToByte s lease binding p in
  r.2 = lt
  ∧ r.1 !! 58 = Some (PutUint32 (to_uint32 lt / 2))
  ∧ r.1 !! 59 = Some (PutUint32 (to_uint32 (to_uint32 lt * 3) / 4)).
Proof.
  intros Hs Hb. unfold build_options. simpl.
  split; [done|].
  assert (∀ c l, (c = 58 ∨ c = 59) →
                 Forall (λ o, Code o ≠ 58 ∧ Code o ≠ 59) l →
                 Forall (λ o, Code o ≠ c) l) as Hc.
  { intros c l Hcode Hl. eapply Forall_impl; [exact Hl|].
    intros o [? ?]. by destruct Hcode as [-> | ->]. }
  destruct binding as [b|]; simpl in *;
    rewrite !fold_options_other by (apply Hc; auto); done.
Qed.

(** C7 (code at the failing input).  The subnet of scenario S1 has a
    lease time of 60 s and no option with code 58 or 59.  For a client
    without binding [build_options] returns that lease time, but the
    renewal time it emits is the big-endian form of 2082712576 where 30
    is due, and the rebinding time that of 976585216 where 45 is due:
    the duration is taken in nanoseconds and cut to 32 bits. *)
Theorem build_options_times_not_seconds (p : Packet) (lease : Lease) :
  let r := build_options Packet decode_options template_execute
             convertOptionValueToByte S1.lan lease None p in
  r.2 = 60 * Second
  ∧ r.1 !! dhcp.OptionRenewalTimeValue = Some [124; 35; 172; 0]
  ∧ Uint32 [124; 35; 172; 0] = 2082712576
  ∧ PutUint32 (60 / 2) = [0; 0; 0; 30]
  ∧ r.1 !! dhcp.OptionRebindingTimeValue = Some [58; 53; 130; 0]
  ∧ Uint32 [58; 53; 130; 0] = 976585216
  ∧ PutUint32 (60 * 3 / 4) = [0; 0; 0; 45].
Proof.
  intros r.
  destruct (build_options_times S1.lan lease None p) as (H1 & H2 & H3).
  - vm_compute. repeat constructor; discriminate.
  - constructor.
  - fold r in H1, H2, H3.
    unfold dhcp.OptionRenewalTimeValue, dhcp.OptionRebindingTimeValue.
    rewrite H1, H2, H3. vm_compute. repeat split.
Qed.

End build_options_facts.

(** ** The snapshot *)

Section insert_by_key.
Context {A : Type} (key : A → string).

Lemma lookup_fold_insert_by (l : list A) (m0 : gmap string A) k :
  NoDup (key <$> l) →
  (∀ v, v ∈ l → key v = k → fold_left (insert_by key) l m0 !! k = Some v)
  ∧ ((∀ v, v ∈ l → key v ≠ k) → fold_left (insert_by key) l m0 !! k = m0 !! k).
Proof.
  revert m0. induction l as [|a l IH]; intros m0 Hnd.
  - split; [by intros v ?%elem_of_nil | done].
  - rewrite fmap_cons in Hnd. apply NoDup_cons in Hnd as [Ha Hnd].
    destruct (IH (insert_by key m0 a) Hnd) as [IH1 IH2]. simpl. split.
    + intros v [-> | Hv]%elem_of_cons Hk.
      * rewrite IH2; [unfold insert_by; rewrite Hk; apply lookup_insert_eq|].
        intros w Hw Hkw. apply Ha. rewrite Hk, <- Hkw.
        by apply list_elem_of_fmap_2.
      * by apply IH1.
    + intros Hno. rewrite IH2.
      * unfold insert_by. apply lookup_insert_ne, Hno, elem_of_cons. by left.
      * intros v Hv. apply Hno, elem_of_cons. by right.
Qed.

(** Putting the values of a map back under their keys, in any order,
    gives the map again. *)
Lemma fold_insert_by_values (m : gmap string A) l :
  map_Forall (λ k v, key v = k) m →
  l ≡ₚ (map_to_list m).*2 →
  fold_left (insert_by key) l ∅ = m.
Proof.
  intros Hkey Hperm.
  assert (key <$> (map_to_list m).*2 = (map_to_list m).*1) as Hkeys.
  { rewrite <- list_fmap_compose. apply list_fmap_ext.
    intros i [k v] Hi. simpl. apply (Hkey k v).
    by eapply elem_of_map_to_list, list_elem_of_lookup_2. }
  assert (NoDup (key <$> l)) as Hnd.
  { rewrite Hperm, Hkeys. apply NoDup_fst_map_to_list. }
  assert (∀ v, v ∈ l ↔ ∃ k, m !! k = Some v) as Hin.
  { intros v. rewrite Hperm, list_elem_of_fmap. split.
    - intros ([k v'] & -> & H). apply elem_of_map_to_list in H. eauto.
    - intros (k & H). exists (k, v). split; [done|].
      by apply elem_of_map_to_list. }
  apply map_eq. intros k.
  destruct (lookup_fold_insert_by l ∅ k Hnd) as [H1 H2].
  destruct (m !! k) as [v|] eqn:Hk.
  - apply H1; [apply Hin; eauto | by apply (Hkey k v)].
  - rewrite H2; [done|]. intros v [k' Hv]%Hin Hkv.
    apply Hkey in Hv as Hk'. simpl in Hk'. congruence.
Qed.
End insert_by_key.

Lemma load_lease_eq s v :
  load_lease s v
  = with_ActiveBits
      (mark_bits (ActiveStart s) (ActiveEnd s) (Lease_Ip v) (ActiveBits s))
      (with_Leases (insert_by Lease_Mac (Leases s) v) s).
Proof. unfold load_lease, mark_bits. simpl. by case_match; destruct s. Qed.

Lemma load_binding_eq s v :
  load_binding s v
  = with_ActiveBits
      (mark_bits (ActiveStart s) (ActiveEnd s) (Binding_Ip v) (ActiveBits s))
      (with_Bindings (insert_by Binding_Mac (Bindings s) v) s).
Proof. unfold load_binding, mark_bits. simpl. by case_match; destruct s. Qed.

(** The first loop of [UnmarshalJSON] as a whole. *)
Lemma fold_load_lease l s :
  fold_left load_lease l s
  = with_ActiveBits
      (fold_left (λ b v, mark_bits (ActiveStart s) (ActiveEnd s) (Lease_Ip v) b)
                 l (ActiveBits s))
      (with_Leases (fold_left (insert_by Lease_Mac) l (Leases s)) s).
Proof.
  revert s. induction l as [|v l IH]; intros s; simpl.
  - by destruct s.
  - rewrite IH, load_lease_eq. by destruct s.
Qed.

(** The second loop. *)
Lemma fold_load_binding l s :
  fold_left load_binding l s
  = with_ActiveBits
      (fold_left (λ b v, mark_bits (ActiveStart s) (ActiveEnd s) (Binding_Ip v) b)
                 l (ActiveBits s))
      (with_Bindings (fold_left (insert_by Binding_Mac) l (Bindings s)) s).
Proof.
  revert s. induction l as [|v l IH]; intros s; simpl.
  - by destruct s.
  - rewrite IH, load_binding_eq. by destruct s.
Qed.

Section mark_bits_facts.
Context (start stop : Z).
Hypothesis Hstart : 0 ≤ start.
Hypothesis Hstop : stop < 2 ^ 32.

Lemma mark_bits_spec ip bits :
  bitset.Len bits = dhcp.IPRange start stop →
  bitset.Len (mark_bits start stop ip bits) = bitset.Len bits
  ∧ ∀ i, 0 ≤ i < bitset.Len bits →
         (bitset.Test i (mark_bits start stop ip bits) = true
          ↔ bitset.Test i bits = true ∨ ip = start + i).
Proof.
  intros Hlen. unfold mark_bits, dhcp.IPRange in *.
  destruct (dhcp.IPInRange start stop ip) eqn:Hr.
  - apply IPInRange_true in Hr.
    rewrite to_uint_small by lia.
    split; [apply Len_Set_lt; lia|].
    intros i Hi. rewrite Test_Set_lt by lia.
    case_decide; [split; [right; lia | done]|].
    split; [by left | intros [? | ?]; [done | lia]].
  - split; [done|]. intros i Hi.
    split; [by left | intros [? | ->]; [done|]].
    apply not_true_iff_false in Hr. exfalso. apply Hr.
    apply IPInRange_true. lia.
Qed.

Lemma fold_mark_bits_spec {A} (ipof : A → Z) (l : list A) bits :
  bitset.Len bits = dhcp.IPRange start stop →
  let bits' := fold_left (λ b v, mark_bits start stop (ipof v) b) l bits in
  bitset.Len bits' = bitset.Len bits
  ∧ ∀ i, 0 ≤ i < bitset.Len bits →
         (bitset.Test i bits' = true
          ↔ bitset.Test i bits = true ∨ ∃ v, v ∈ l ∧ ipof v = start + i).
Proof.
  revert bits. induction l as [|v l IH]; intros bits Hlen; simpl.
  - split; [done|]. intros i Hi. split; [by left|].
    intros [? | (v & Hv & _)]; [done|]. by apply elem_of_nil in Hv.
  - destruct (mark_bits_spec (ipof v) bits Hlen) as [Hl1 Ht1].
    destruct (IH (mark_bits start stop (ipof v) bits)) as [Hl2 Ht2];
      [congruence|].
    split; [congruence|]. intros i Hi.
    rewrite Ht2, Ht1 by (rewrite ?Hl1; done). split.
    + intros [[? | ?] | (w & Hw & ?)];
        [by left | right; exists v | right; exists w].
      * split; [by left | done].
      * split; [by right | done].
    + intros [? | (w & [-> | Hw]%elem_of_cons & ?)];
        [by left; left | by left; right | right; eauto].
Qed.
End mark_bits_facts.

Lemma whole_seconds_roundtrip d :
  whole_seconds d → wrap_int64 (Seconds d * Second) = d.
Proof.
  intros (Hnz & Hmod & Hrange). unfold Seconds, wrap_int64.
  assert (d = d / Second * Second) as Hd.
  { unfold Second in *. pose proof (Z.div_mod d 1000000000). lia. }
  assert (Z.quot d Second = d / Second) as ->.
  { rewrite Hd at 1. apply Z.quot_mul. done. }
  rewrite <- Hd. rewrite Z.mod_small by lia. lia.
Qed.

Lemma ParseIP_ok ip : 0 ≤ ip < 2 ^ 32 → ParseIP ip = Some ip.
Proof.
  intros H. unfold ParseIP.
  destruct (Z.leb_spec 0 ip); [|lia].
  destruct (Z.ltb_spec ip (2 ^ 32)); [done | lia].
Qed.

(** C4 (counterexample).  The subnet of scenario S1, itself the result of
    a load, carries the two synthetic options.  Written out and read back
    it carries them twice: they are appended whether present or not. *)
Lemma snapshot_roundtrip_grows_options :
  ∃ s', UnmarshalJSON zero_Subnet (MarshalJSON S1.lan) = Some s'
        ∧ Options S1.lan
          = [ {| Code := 1; Value := "255.255.255.0" |};
              {| Code := 28; Value := "10.0.0.255" |} ]
        ∧ Options s'
          = [ {| Code := 1; Value := "255.255.255.0" |};
              {| Code := 28; Value := "10.0.0.255" |};
              {| Code := 1; Value := "255.255.255.0" |};
              {| Code := 28; Value := "10.0.0.255" |} ]
        ∧ Options s' ≠ Options S1.lan.
Proof.
  eexists. split; [vm_compute; reflexivity|].
  split; [vm_compute; reflexivity|].
  split; [vm_compute; reflexivity|].
  vm_compute. discriminate.
Qed.

(** C4 (amended).  For a subnet whose records are stored under their own
    MAC, whose network is masked, whose active range lies inside it and
    whose lease times are whole seconds and not zero: whatever the order
    in which [MarshalJSON] visits the leases and the bindings, reading its
    output back succeeds and gives the same name, network, next server,
    active range, lease times, leases and bindings; the options are the
    old ones followed by the two synthetic options; the new bit set has
    the length of the active range and bit [i] set exactly when a lease or
    a binding holds [ActiveStart + i]; it is the old bit set whenever the
    old one had that property. *)
Theorem snapshot_roundtrip s ls bs :
  snapshot_wf s →
  ls ≡ₚ (map_to_list (Leases s)).*2 →
  bs ≡ₚ (map_to_list (Bindings s)).*2 →
  ∃ s',
    UnmarshalJSON zero_Subnet (MarshalJSON_order ls bs s) = Some s'
    ∧ Name s' = Name s
    ∧ Subnet_Subnet s' = Subnet_Subnet s
    ∧ NextServer s' = NextServer s
    ∧ ActiveStart s' = ActiveStart s
    ∧ ActiveEnd s' = ActiveEnd s
    ∧ ActiveLeaseTime s' = ActiveLeaseTime s
    ∧ ReservedLeaseTime s' = ReservedLeaseTime s
    ∧ Leases s' = Leases s
    ∧ Bindings s' = Bindings s
    ∧ Options s' = Options s ++ synthetic_options (Subnet_Subnet s)
    ∧ bits_match_records s (ActiveBits s')
    ∧ (bits_match_records s (ActiveBits s) → ActiveBits s' = ActiveBits s).
Proof.
  intros (Hlk & Hbk & Hcidr & Hs0 & Hse & He & Hcs & Hce & Halt & Hrlt) Hls Hbs.
  unfold UnmarshalJSON. simpl.
  rewrite Hcidr, !ParseIP_ok, Hcs, Hce by lia. simpl.
  rewrite !whole_seconds_roundtrip by done.
  destruct Halt as (Halt & _), Hrlt as (Hrlt & _).
  apply Z.eqb_neq in Halt, Hrlt. rewrite Halt, Hrlt.
  rewrite fold_load_lease. simpl. rewrite fold_load_binding. simpl.
  rewrite (fold_insert_by_values Lease_Mac (Leases s) ls Hlk Hls).
  rewrite (fold_insert_by_values Binding_Mac (Bindings s) bs Hbk Hbs).
  eexists. split; [reflexivity|]. simpl.
  assert (to_uint (dhcp.IPRange (ActiveStart s) (ActiveEnd s))
          = dhcp.IPRange (ActiveStart s) (ActiveEnd s)) as Hn.
  { apply to_uint_small. unfold dhcp.IPRange. lia. }
  rewrite Hn.
  assert (bitset.Len (bitset.New (dhcp.IPRange (ActiveStart s) (ActiveEnd s)))
          = dhcp.IPRange (ActiveStart s) (ActiveEnd s)) as Hlen0.
  { apply Len_New. unfold dhcp.IPRange. lia. }
  destruct (fold_mark_bits_spec (ActiveStart s) (ActiveEnd s) Hs0 He Lease_Ip ls
              _ Hlen0) as [Hl1 Ht1].
  match type of Hl1 with bitset.Len ?b = _ => set (bits1 := b) in * end.
  assert (bitset.Len bits1 = dhcp.IPRange (ActiveStart s) (ActiveEnd s))
    as Hlen1 by congruence.
  destruct (fold_mark_bits_spec (ActiveStart s) (ActiveEnd s) Hs0 He Binding_Ip
              bs _ Hlen1) as [Hl2 Ht2].
  match type of Hl2 with bitset.Len ?b = _ => set (bits2 := b) in * end.
  assert (bits_match_records s bits2) as Hmatch.
  { split; [congruence|]. intros i Hi.
    rewrite Ht2, Ht1 by (rewrite ?Hlen0; lia). rewrite Test_New.
    unfold holds_address. split.
    - intros [[? | (l & Hl & Hip)] | (b & Hb & Hip)]; [done | left | right].
      + rewrite Hls in Hl. apply list_elem_of_fmap in Hl as ([k l'] & -> & Hl).
        apply elem_of_map_to_list in Hl. eauto.
      + rewrite Hbs in Hb. apply list_elem_of_fmap in Hb as ([k b'] & -> & Hb).
        apply elem_of_map_to_list in Hb. eauto.
    - intros [(k & l & Hl & Hip) | (k & b & Hb & Hip)];
        [left; right; exists l | right; exists b].
      + split; [|done]. rewrite Hls. apply list_elem_of_fmap. exists (k, l).
        split; [done|]. by apply elem_of_map_to_list.
      + split; [|done]. rewrite Hbs. apply list_elem_of_fmap. exists (k, b).
        split; [done|]. by apply elem_of_map_to_list. }
  split_and!; try done; [by destruct (NextServer s)|].
  intros [Hlen Hbits]. destruct Hmatch as [Hlen' Hbits'].
  apply BitSet_eq; [congruence|].
  intros i Hi. specialize (Hbits' i Hi).
  assert (0 ≤ i < bitset.Len (ActiveBits s)) as Hi' by lia.
  specialize (Hbits i Hi').
  destruct (bitset.Test i bits2), (bitset.Test i (ActiveBits s)); try done.
  - symmetry. by apply Hbits, Hbits'.
  - by apply Hbits', Hbits.
Qed.

(** The subnet of scenario S1 with its two leases goes through the
    snapshot and back. *)
Lemma snapshot_roundtrip_witness :
  snapshot_wf S1.lan_two_leases
  ∧ ∃ s',
      UnmarshalJSON zero_Subnet (MarshalJSON S1.lan_two_leases) = Some s'
      ∧ Leases s' = Leases S1.lan_two_leases
      ∧ Bindings s' = Bindings S1.lan_two_leases
      ∧ Options s'
        = Options S1.lan_two_leases
          ++ synthetic_options (Subnet_Subnet S1.lan_two_leases)
      ∧ bits_match_records S1.lan_two_leases (ActiveBits s').
Proof.
  assert (Hwf : snapshot_wf S1.lan_two_leases).
  { split; [apply (bool_decide_unpack _); vm_compute; exact I|].
    split; [apply (bool_decide_unpack _); vm_compute; exact I|].
    split; [vm_compute; reflexivity|].
    split; [vm_compute; discriminate|].
    split; [vm_compute; discriminate|].
    split; [vm_compute; reflexivity|].
    split; [vm_compute; reflexivity|].
    split; [vm_compute; reflexivity|].
    split.
    - split; [vm_compute; discriminate|].
      split; [vm_compute; reflexivity|].
      split; [vm_compute; discriminate | vm_compute; reflexivity].
    - split; [vm_compute; discriminate|].
      split; [vm_compute; reflexivity|].
      split; [vm_compute; discriminate | vm_compute; reflexivity]. }
  split; [exact Hwf|].
  destruct (snapshot_roundtrip S1.lan_two_leases
              (map_to_list (Leases S1.lan_two_leases)).*2
              (map_to_list (Bindings S1.lan_two_leases)).*2
              Hwf (Permutation_refl _) (Permutation_refl _))
    as (s' & H0 & _ & _ & _ & _ & _ & _ & _ & Hl & Hb & Ho & Hbits & _).
  exists s'. split; [exact H0|]. split; [exact Hl|]. split; [exact Hb|].
  split; [exact Ho | exact Hbits].
Defined.

(** ** Networks *)

Lemma CIDRMask_testbit ones i :
  0 ≤ ones ≤ 32 → 0 ≤ i →
  Z.testbit (CIDRMask ones) i = (32 - ones <=? i) && (i <? 32).
Proof.
  intros Ho Hi. unfold CIDRMask.
  assert (2 ^ 32 - 2 ^ (32 - ones) = Z.shiftl (Z.ones ones) (32 - ones)) as ->.
  { rewrite Z.shiftl_mul_pow2, Z.ones_equiv by lia.
    replace (2 ^ 32) with (2 ^ ones * 2 ^ (32 - ones)).
    - lia.
    - rewrite <- Z.pow_add_r by lia. f_equal. lia. }
  rewrite Z.shiftl_spec by lia.
  destruct (Z.leb_spec (32 - ones) i) as [Hle|Hlt]; simpl.
  - destruct (Z.ltb_spec i 32).
    + apply Z.ones_spec_low. lia.
    + apply Z.ones_spec_high. lia.
  - apply Z.testbit_neg_r. lia.
Qed.

(** The mask of a shorter prefix is part of the mask of a longer one. *)
Lemma CIDRMask_land a b :
  0 ≤ a → a ≤ b → b ≤ 32 →
  Z.land (CIDRMask a) (CIDRMask b) = CIDRMask a.
Proof.
  intros Ha Hab Hb. apply Z.bits_inj'. intros i Hi.
  rewrite Z.land_spec, !CIDRMask_testbit by lia.
  destruct (Z.leb_spec (32 - a) i), (Z.leb_spec (32 - b) i),
    (Z.ltb_spec i 32); simpl; try done; lia.
Qed.

Lemma Contains_nested n1 n2 ip :
  0 ≤ IPNet_ones n1 → IPNet_ones n1 ≤ IPNet_ones n2 → IPNet_ones n2 ≤ 32 →
  Contains n1 ip = true → Contains n2 ip = true →
  Contains n1 (IPNet_IP n2) = true.
Proof.
  unfold Contains, IPNet_Mask. intros H0 H12 H2 H1%Z.eqb_eq Hc2%Z.eqb_eq.
  apply Z.eqb_eq. rewrite H1.
  rewrite <- (CIDRMask_land (IPNet_ones n1) (IPNet_ones n2)) by done.
  rewrite (Z.land_comm (CIDRMask _) (CIDRMask _)), !Z.land_assoc.
  by rewrite Hc2.
Qed.

(** Two networks that contain one address overlap. *)
Lemma Contains_both_overlaps s1 s2 ip :
  0 ≤ IPNet_ones (Subnet_Subnet s1) ≤ 32 →
  0 ≤ IPNet_ones (Subnet_Subnet s2) ≤ 32 →
  Contains (Subnet_Subnet s1) ip = true →
  Contains (Subnet_Subnet s2) ip = true →
  overlaps s1 s2 = true.
Proof.
  intros H1 H2 Hc1 Hc2. unfold overlaps.
  destruct (Z.le_ge_cases (IPNet_ones (Subnet_Subnet s1))
                          (IPNet_ones (Subnet_Subnet s2))).
  - rewrite (Contains_nested (Subnet_Subnet s1) (Subnet_Subnet s2) ip)
      by (done || lia).
    by rewrite orb_true_r.
  - rewrite (Contains_nested (Subnet_Subnet s2) (Subnet_Subnet s1) ip)
      by (done || lia).
    done.
Qed.

Lemma overlaps_sym s1 s2 : overlaps s1 s2 = overlaps s2 s1.
Proof. unfold overlaps. apply orb_comm. Qed.

Lemma overlaps_self s : overlaps s s = true.
Proof. unfold overlaps, Contains. by rewrite Z.eqb_refl. Qed.

(** ** Lookup of a subnet by address *)

Lemma elem_of_values {A} (m : gmap string A) (visit : list A) x :
  visit ≡ₚ (map_to_list m).*2 →
  x ∈ visit ↔ ∃ k, m !! k = Some x.
Proof.
  intros ->. rewrite list_elem_of_fmap. split.
  - intros ([k y] & -> & H). apply elem_of_map_to_list in H. eauto.
  - intros (k & H). exists (k, x). split; [done|]. by apply elem_of_map_to_list.
Qed.

(** X1.  [FindSubnet], in whatever order the map is visited: a subnet
    returned is stored and its network contains the address; nothing is
    returned only when no stored network contains it; and when no two
    stored subnets overlap, the subnet returned is the only stored one
    that contains the address. *)
Theorem FindSubnet_finds_the_owner dt visit ip :
  visit ≡ₚ (map_to_list (Subnets dt)).*2 →
  prefixes_valid (Subnets dt) →
  no_overlap (Subnets dt) →
  match FindSubnet_order visit ip with
  | Some s =>
      (∃ k, Subnets dt !! k = Some s)
      ∧ Contains (Subnet_Subnet s) ip = true
      ∧ ∀ k' s', Subnets dt !! k' = Some s' →
                 Contains (Subnet_Subnet s') ip = true → s' = s
  | None =>
      ∀ k s, Subnets dt !! k = Some s → Contains (Subnet_Subnet s) ip = false
  end.
Proof.
  intros Hvisit Hvalid Hno. unfold FindSubnet_order.
  destruct (find _ visit) as [s|] eqn:Hfind.
  - apply find_some in Hfind as [Hin Hc].
    apply list_elem_of_In, (elem_of_values _ _ _ Hvisit) in Hin as [k Hk].
    split; [eauto|]. split; [done|].
    intros k' s' Hk' Hc'.
    destruct (decide (k' = k)) as [->|Hne]; [congruence|].
    pose proof (Hno k' k s' s Hne Hk' Hk) as Hov.
    rewrite (Contains_both_overlaps s' s ip) in Hov; [done | | | done | done].
    + by apply (Hvalid k' s').
    + by apply (Hvalid k s).
  - intros k s Hk. apply not_true_iff_false. intros Hc.
    pose proof (find_none _ _ Hfind s) as Hn. simpl in Hn.
    rewrite Hn in Hc; [done|].
    apply list_elem_of_In, (elem_of_values _ _ _ Hvisit). eauto.
Qed.

(** ** The repository never holds overlapping subnets *)

Lemma no_overlap_empty : no_overlap ∅.
Proof. intros k1 k2 s1 s2 _ H. by rewrite lookup_empty in H. Qed.

Lemma no_overlap_delete m k : no_overlap m → no_overlap (delete k m).
Proof.
  intros H k1 k2 s1 s2 Hne H1 H2.
  apply lookup_delete_Some in H1 as [_ H1].
  apply lookup_delete_Some in H2 as [_ H2]. exact (H k1 k2 s1 s2 Hne H1 H2).
Qed.

Lemma no_overlap_insert m k s :
  no_overlap m → ¬ overlaps_some (delete k m) s → no_overlap (<[k := s]> m).
Proof.
  intros H Hfree k1 k2 s1 s2 Hne H1 H2.
  apply lookup_insert_Some in H1 as [[<- <-] | [Hk1 H1]];
    apply lookup_insert_Some in H2 as [[<- <-] | [Hk2 H2]].
  - done.
  - apply not_true_iff_false. intros Hov. apply Hfree.
    exists k2, s2. by rewrite lookup_delete_ne.
  - apply not_true_iff_false. intros Hov. apply Hfree.
    exists k1, s1. rewrite lookup_delete_ne by done. by rewrite overlaps_sym.
  - exact (H k1 k2 s1 s2 Hne H1 H2).
Qed.

(** Replacing a subnet by one with the same network keeps the property. *)
Lemma no_overlap_same_net m k s s' :
  no_overlap m → m !! k = Some s → Subnet_Subnet s' = Subnet_Subnet s →
  no_overlap (<[k := s']> m).
Proof.
  intros H Hk Hnet. apply no_overlap_insert; [done|].
  intros (k' & es & Hk' & Hov).
  apply lookup_delete_Some in Hk' as [Hne Hk'].
  pose proof (H k k' s es Hne Hk Hk') as Hno.
  unfold overlaps in *. rewrite Hnet in Hov. congruence.
Qed.

Lemma AddSubnet_no_overlap dt s :
  no_overlap (Subnets dt) → no_overlap (Subnets (AddSubnet dt s).2).
Proof.
  intros H. unfold AddSubnet.
  destruct (Subnets dt !! Name s) eqn:Hs; [done|].
  destruct (subnetsOverlap dt s) eqn:Hov; [done|].
  simpl. apply no_overlap_insert; [done|].
  apply subnetsOverlap_false in Hov. by rewrite delete_id.
Qed.

Lemma RemoveSubnet_no_overlap dt name :
  no_overlap (Subnets dt) → no_overlap (Subnets (RemoveSubnet dt name).2).
Proof.
  intros H. unfold RemoveSubnet. case_match; [|done].
  simpl. by apply no_overlap_delete.
Qed.

Lemma ReplaceSubnet_no_overlap dt name subnet :
  names_are_keys dt → no_overlap (Subnets dt) →
  no_overlap (Subnets (ReplaceSubnet dt name subnet).2).
Proof.
  intros Hkeys H. unfold ReplaceSubnet.
  destruct (Subnets dt !! name) as [old|] eqn:Hold; [|done].
  apply Hkeys in Hold as Hname. simpl in Hname. rewrite Hname.
  destruct (subnetsOverlap _ _) eqn:Hov; simpl.
  - by rewrite insert_delete_id.
  - apply (subnetsOverlap_rest_false (delete name (Subnets dt)) dt) in Hov.
    apply no_overlap_insert; [by apply no_overlap_delete|].
    intros (k & es & Hk & Ho). apply Hov. exists k, es. split; [|done].
    by apply lookup_delete_Some in Hk as [_ Hk].
Qed.

Lemma AddBinding_no_overlap dt name b :
  no_overlap (Subnets dt) → no_overlap (Subnets (AddBinding dt name b).2).
Proof.
  intros H. unfold AddBinding.
  destruct (Subnets dt !! name) as [s|] eqn:Hs; [|done].
  simpl. eapply no_overlap_same_net; [done | done |].
  by repeat case_match.
Qed.

Lemma DeleteBinding_no_overlap dt name mac :
  no_overlap (Subnets dt) → no_overlap (Subnets (DeleteBinding dt name mac).2).
Proof.
  intros H. unfold DeleteBinding.
  destruct (Subnets dt !! name) as [s|] eqn:Hs; [|done].
  destruct (Bindings s !! mac); [|done].
  simpl. eapply no_overlap_same_net; [done | done |].
  by case_match.
Qed.

Lemma SetNextServer_Subnets dt name ip server :
  Subnets (SetNextServer dt name ip server).2
  = match Subnets dt !! name with
    | Some s =>
        <[name := with_Bindings (set_next_server ip server <$> Bindings s) s]>
          (Subnets dt)
    | None => Subnets dt
    end.
Proof.
  unfold SetNextServer. destruct (Subnets dt !! name); [|done].
  by case_match.
Qed.

Lemma SetNextServer_no_overlap dt name ip server :
  no_overlap (Subnets dt) →
  no_overlap (Subnets (SetNextServer dt name ip server).2).
Proof.
  intros H. rewrite SetNextServer_Subnets.
  destruct (Subnets dt !! name) as [s|] eqn:Hs; [|done].
  by eapply no_overlap_same_net.
Qed.

Lemma SetNextServer_names_are_keys dt name ip server :
  names_are_keys dt → names_are_keys (SetNextServer dt name ip server).2.
Proof.
  intros H. unfold names_are_keys. rewrite SetNextServer_Subnets.
  destruct (Subnets dt !! name) as [s|] eqn:Hs; [|done].
  apply map_Forall_insert_2; [|done]. by apply H in Hs.
Qed.

(** X2.  In a repository whose subnets are stored under their names and
    do not overlap, no administrative operation, whatever its arguments
    and whether it succeeds or fails, leaves two overlapping subnets, and
    all subnets stay under their names. *)
Theorem admin_operations_keep_no_overlap dt :
  names_are_keys dt → no_overlap (Subnets dt) →
  (∀ s, names_are_keys (AddSubnet dt s).2
        ∧ no_overlap (Subnets (AddSubnet dt s).2))
  ∧ (∀ name, names_are_keys (RemoveSubnet dt name).2
             ∧ no_overlap (Subnets (RemoveSubnet dt name).2))
  ∧ (∀ name s, names_are_keys (ReplaceSubnet dt name s).2
               ∧ no_overlap (Subnets (ReplaceSubnet dt name s).2))
  ∧ (∀ name b, names_are_keys (AddBinding dt name b).2
               ∧ no_overlap (Subnets (AddBinding dt name b).2))
  ∧ (∀ name mac, names_are_keys (DeleteBinding dt name mac).2
                 ∧ no_overlap (Subnets (DeleteBinding dt name mac).2))
  ∧ (∀ name ip server,
       names_are_keys (SetNextServer dt name ip server).2
       ∧ no_overlap (Subnets (SetNextServer dt name ip server).2)).
Proof.
  intros Hk Hn. split_and!; intros; split;
    auto using AddSubnet_names_are_keys, AddSubnet_no_overlap,
      RemoveSubnet_names_are_keys, RemoveSubnet_no_overlap,
      ReplaceSubnet_names_are_keys, ReplaceSubnet_no_overlap,
      AddBinding_names_are_keys, AddBinding_no_overlap,
      DeleteBinding_names_are_keys, DeleteBinding_no_overlap,
      SetNextServer_names_are_keys, SetNextServer_no_overlap.
Qed.

(** ** Removing a subnet *)

(** X3.  Removing a name that is not stored gives NotFound and changes
    nothing; and whenever [AddSubnet] succeeded, [RemoveSubnet] of the
    same name succeeds, gives the former map of subnets back and writes
    it out. *)
Theorem RemoveSubnet_undoes_AddSubnet dt :
  (∀ name, Subnets dt !! name = None →
     RemoveSubnet dt name = ((Some "Not Found"%string, StatusNotFound), dt))
  ∧ (∀ s, (AddSubnet dt s).1 = (None, StatusOK) →
       let r := RemoveSubnet (AddSubnet dt s).2 (Name s) in
       r.1 = (None, StatusOK)
       ∧ Subnets r.2 = Subnets dt
       ∧ database r.2 = MarshalJSON <$> Subnets dt).
Proof.
  split.
  - intros name Hn. unfold RemoveSubnet. by rewrite Hn.
  - intros s. unfold AddSubnet.
    destruct (Subnets dt !! Name s) eqn:Hs; [discriminate|].
    destruct (subnetsOverlap dt s); [discriminate|].
    intros _. unfold RemoveSubnet. simpl. rewrite lookup_insert_eq. simpl.
    by rewrite delete_insert_id.
Qed.

Lemma RemoveSubnet_undoes_AddSubnet_witness :
  (AddSubnet Repo.with_lan Repo.lab).1 = (None, StatusOK)
  ∧ Subnets (RemoveSubnet (AddSubnet Repo.with_lan Repo.lab).2 (Name Repo.lab)).2
    = Subnets Repo.with_lan.
Proof.
  assert (H : (AddSubnet Repo.with_lan Repo.lab).1 = (None, StatusOK))
    by (vm_compute; reflexivity).
  split; [exact H|].
  exact (proj1 (proj2 (proj2 (RemoveSubnet_undoes_AddSubnet Repo.with_lan)
                         Repo.lab H))).
Defined.

(** ** Next server *)

Lemma with_Subnets_id dt : with_Subnets (Subnets dt) dt = dt.
Proof. by destruct dt. Qed.

Lemma existsb_values_false {A} (P : A → bool) (m : gmap string A) :
  map_Forall (λ _ v, P v = false) m → existsb P (map_to_list m).*2 = false.
Proof.
  intros H. apply not_true_iff_false. intros He.
  apply existsb_exists in He as (v & Hin & Hv).
  apply list_elem_of_In, list_elem_of_fmap in Hin as ([k v'] & -> & Hin).
  apply elem_of_map_to_list in Hin. apply H in Hin. simpl in *. congruence.
Qed.

Lemma set_next_server_settled ip server v :
  next_server_differs ip server (set_next_server ip server v) = false.
Proof.
  unfold set_next_server.
  destruct (next_server_differs ip server v) eqn:Hd; [|done].
  unfold next_server_differs in *. simpl.
  apply andb_prop in Hd as [-> _]. simpl.
  by rewrite bool_decide_eq_true_2.
Qed.

Lemma set_next_server_fields ip server v :
  Binding_Ip (set_next_server ip server v) = Binding_Ip v
  ∧ Binding_Mac (set_next_server ip server v) = Binding_Mac v
  ∧ Binding_Options (set_next_server ip server v) = Binding_Options v
  ∧ Binding_NextServer (set_next_server ip server v)
    = if Binding_Ip v =? ip then Some server else Binding_NextServer v.
Proof.
  unfold set_next_server, next_server_differs.
  destruct (Binding_Ip v =? ip); simpl; [|done].
  destruct (Binding_NextServer v) as [ns|] eqn:E; simpl; [|done].
  case_bool_decide; simpl; [subst; by rewrite E | done].
Qed.

(** X4.  [SetNextServer] on a stored subnet answers 200; every binding
    keeps its address, MAC and options; the bindings with the given
    address now have the given next server, the others keep theirs;
    leases and bits are untouched.  A second call with the same arguments
    changes nothing and writes nothing, and so does the first when every
    binding with that address had the next server already. *)
Theorem SetNextServer_effect dt name ip server s :
  Subnets dt !! name = Some s →
  let r := SetNextServer dt name ip server in
  r.1 = (None, StatusOK)
  ∧ (∃ s', Subnets r.2 !! name = Some s'
           ∧ Leases s' = Leases s ∧ ActiveBits s' = ActiveBits s
           ∧ dom (Bindings s') = dom (Bindings s)
           ∧ ∀ mac b, Bindings s !! mac = Some b →
               ∃ b', Bindings s' !! mac = Some b'
                     ∧ Binding_Ip b' = Binding_Ip b
                     ∧ Binding_Mac b' = Binding_Mac b
                     ∧ Binding_Options b' = Binding_Options b
                     ∧ Binding_NextServer b'
                       = if Binding_Ip b =? ip then Some server
                         else Binding_NextServer b)
  ∧ SetNextServer r.2 name ip server = ((None, StatusOK), r.2)
  ∧ (map_Forall (λ _ b, Binding_Ip b = ip → Binding_NextServer b = Some server)
       (Bindings s) →
     r.2 = dt).
Proof.
  intros Hs r.
  assert (Hsub : Subnets r.2
                 = <[name := with_Bindings
                               (set_next_server ip server <$> Bindings s) s]>
                     (Subnets dt)).
  { unfold r. by rewrite SetNextServer_Subnets, Hs. }
  split; [unfold r, SetNextServer; by rewrite Hs|].
  split; [|split].
  - eexists. split; [rewrite Hsub; apply lookup_insert_eq|]. simpl.
    split; [done|]. split; [done|]. split; [apply dom_fmap_L|].
    intros mac b Hb. exists (set_next_server ip server b).
    split; [by rewrite lookup_fmap, Hb|]. apply set_next_server_fields.
  - unfold SetNextServer at 1. rewrite Hsub, lookup_insert_eq. simpl.
    rewrite existsb_values_false.
    + rewrite insert_insert_eq, <- map_fmap_compose.
      assert (set_next_server ip server ∘ set_next_server ip server
              <$> Bindings s = set_next_server ip server <$> Bindings s) as ->.
      { apply map_fmap_ext. intros k v _. simpl. unfold set_next_server at 1.
        by rewrite set_next_server_settled. }
      assert (∀ X, with_Bindings X (with_Bindings X s) = with_Bindings X s)
        as -> by done.
      rewrite <- Hsub. by rewrite with_Subnets_id.
    + intros k v [w [<- Hw]]%lookup_fmap_Some. apply set_next_server_settled.
  - intros Hall. unfold r, SetNextServer. rewrite Hs.
    assert (map_Forall (λ _ v, next_server_differs ip server v = false)
              (Bindings s)) as Hno.
    { intros k v Hv. unfold next_server_differs.
      destruct (Z.eqb_spec (Binding_Ip v) ip) as [Hip|]; [|done]. simpl.
      rewrite (Hall k v Hv Hip). by rewrite bool_decide_eq_true_2. }
    rewrite existsb_values_false by done. simpl.
    assert (set_next_server ip server <$> Bindings s = Bindings s) as ->.
    { rewrite <- (map_fmap_id (Bindings s)) at 2. apply map_fmap_ext.
      intros k v Hv. unfold set_next_server. by rewrite (Hno k v Hv). }
    assert (with_Bindings (Bindings s) s = s) as -> by (by destruct s).
    rewrite insert_id by done. by destruct dt.
Qed.

(** ** Lookup of a subnet by MAC *)

Lemma has_binding_of_true mac s :
  has_binding_of mac s = true
  ↔ ∃ k b, Bindings s !! k = Some b ∧ Binding_Mac b = mac.
Proof.
  unfold has_binding_of. rewrite existsb_exists. split.
  - intros (b & Hin & Hb). apply bool_decide_eq_true in Hb.
    apply list_elem_of_In, (elem_of_values (Bindings s)) in Hin as [k Hk];
      [eauto | done].
  - intros (k & b & Hk & Hb). exists b. split.
    + apply list_elem_of_In, (elem_of_values (Bindings s)); [done | eauto].
    + by apply bool_decide_eq_true.
Qed.

(** X5.  [FindBoundIP], in whatever order the map is visited: a subnet
    returned is stored and has a binding whose MAC is the one asked for;
    nothing is returned only when no binding of any stored subnet has that
    MAC.  In particular, once [AddBinding] has succeeded, a subnet is
    found for the MAC of the binding. *)
Theorem FindBoundIP_finds_a_binding dt visit mac :
  visit ≡ₚ (map_to_list (Subnets dt)).*2 →
  match FindBoundIP_order visit mac with
  | Some s =>
      (∃ name, Subnets dt !! name = Some s)
      ∧ ∃ k b, Bindings s !! k = Some b ∧ Binding_Mac b = mac
  | None =>
      ∀ name s k b, Subnets dt !! name = Some s → Bindings s !! k = Some b →
                    Binding_Mac b ≠ mac
  end.
Proof.
  intros Hvisit. unfold FindBoundIP_order.
  destruct (find _ visit) as [s|] eqn:Hfind.
  - apply find_some in Hfind as [Hin Hb].
    apply list_elem_of_In, (elem_of_values _ _ _ Hvisit) in Hin.
    split; [done|]. by apply has_binding_of_true.
  - intros name s k b Hs Hb Hmac.
    pose proof (find_none _ _ Hfind s) as Hn. simpl in Hn.
    assert (has_binding_of mac s = true) as Ht
      by (apply has_binding_of_true; eauto).
    rewrite Hn in Ht; [done|].
    apply list_elem_of_In, (elem_of_values _ _ _ Hvisit). eauto.
Qed.

Lemma AddBinding_stored dt name b s :
  Subnets dt !! name = Some s →
  ∃ s', Subnets (AddBinding dt name b).2 !! name = Some s'
        ∧ Bindings s' = <[Binding_Mac b := b]> (Bindings s)
        ∧ Leases s' = Leases s.
Proof.
  intros Hs. unfold AddBinding. rewrite Hs. simpl.
  eexists. split; [apply lookup_insert_eq|]. simpl.
  by repeat case_match.
Qed.

(** ** Releasing a lease *)

(** X6.  [free_lease] for a MAC without lease changes nothing and does
    not save.  For a MAC with a lease it saves, removes that lease and no
    other, and leaves the bindings, the settings and the length of the bit
    set alone; and it sets no bit. *)
Theorem free_lease_effect subnet nic :
  let r := free_lease subnet nic in
  (Leases subnet !! nic = None → r = (subnet, false))
  ∧ (is_Some (Leases subnet !! nic) →
       r.2 = true
       ∧ Leases r.1 = delete nic (Leases subnet)
       ∧ same_settings subnet r.1
       ∧ bitset.Len (ActiveBits r.1) = bitset.Len (ActiveBits subnet)
       ∧ ∀ i, 0 ≤ i → bitset.Test i (ActiveBits r.1) = true →
               bitset.Test i (ActiveBits subnet) = true).
Proof.
  unfold free_lease. split.
  - by intros ->.
  - intros [l ->]. split; [done|].
    destruct (dhcp.IPInRange _ _ _); simpl.
    + split; [done|]. split; [by repeat split|].
      split; [apply Len_Clear|].
      intros i Hi. rewrite Test_Clear by (done || apply to_uint_nonneg).
      by case_decide.
    + split; [done|]. split; [by repeat split|]. done.
Qed.

(** ** Find or allocate, again *)

Lemma getFreeIP_settings subnet now :
  same_settings subnet (getFreeIP subnet now).2.
Proof.
  unfold getFreeIP.
  destruct (firstClearBit (ActiveBits subnet)); [by repeat split|].
  pose proof (sweep_fold_settings now (map_to_list (Leases subnet))
                (subnet, false)) as [Hs _].
  fold (sweep_leases now subnet) in Hs.
  destruct (sweep_leases now subnet) as [swept reclaimed]. simpl in *.
  destruct (firstClearBit (ActiveBits swept)); simpl; [|done].
  destruct Hs as (? & ? & ? & ? & ? & ? & ? & ? & ?). by repeat split.
Qed.

(** X7.  Once [find_or_get_info] has returned a lease for a MAC, asking
    again, at any later time and with any suggestion, returns the same
    lease and binding, changes nothing and does not save. *)
Theorem find_or_get_info_stable subnet nic suggest now l b subnet' saved :
  find_or_get_info subnet nic suggest now = ((Some l, b), subnet', saved) →
  ∀ suggest' now',
    find_or_get_info subnet' nic suggest' now' = ((Some l, b), subnet', false).
Proof.
  intros H suggest' now'.
  assert (Leases subnet' !! nic = Some l ∧ Bindings subnet' !! nic = b
          ∧ lease_matches_binding (Some l) b
            = match b with Some _ => true | None => false end)
    as (Hl & Hb & Hm).
  { unfold find_or_get_info, find_or_get_info_slow, lease_matches_binding in H.
    destruct (Leases subnet !! nic) as [l0|] eqn:El,
             (Bindings subnet !! nic) as [b0|] eqn:Eb; simpl in H.
    - destruct (Z.eqb_spec (Lease_Ip l0) (Binding_Ip b0)) as [Heq|];
        simplify_eq/=.
      + by rewrite Heq, Z.eqb_refl.
      + rewrite lookup_insert_eq, Z.eqb_refl. done.
    - simplify_eq/=. done.
    - simplify_eq/=. by rewrite lookup_insert_eq, Z.eqb_refl.
    - pose proof (getFreeIP_settings subnet now) as Hs.
      destruct (getFreeIP subnet now) as [[[ip|] flag] s'] eqn:E;
        simplify_eq/=.
      rewrite lookup_insert_eq.
      destruct Hs as (_ & _ & _ & _ & _ & _ & _ & <- & _). by rewrite Eb. }
  unfold find_or_get_info. rewrite Hl, Hb, Hm.
  by destruct b.
Qed.

(** X8.  A MAC that has a binding is always served its bound address:
    [find_or_get_info] returns the binding and a lease on the address of
    the binding, that lease is the one stored for the MAC, and the bit
    set, the bindings and the leases of the other MACs are untouched. *)
Theorem find_or_get_info_serves_binding subnet nic suggest now b :
  Bindings subnet !! nic = Some b →
  let r := find_or_get_info subnet nic suggest now in
  ∃ l, r.1.1 = (Some l, Some b)
       ∧ Lease_Ip l = Binding_Ip b
       ∧ Leases r.1.2 !! nic = Some l
       ∧ (∀ k, k ≠ nic → Leases r.1.2 !! k = Leases subnet !! k)
       ∧ Bindings r.1.2 = Bindings subnet
       ∧ ActiveBits r.1.2 = ActiveBits subnet.
Proof.
  intros Hb. unfold find_or_get_info, find_or_get_info_slow,
    lease_matches_binding. rewrite Hb.
  destruct (Leases subnet !! nic) as [l0|] eqn:El; simpl.
  - destruct (Z.eqb_spec (Lease_Ip l0) (Binding_Ip b)) as [Heq|]; simpl.
    + exists l0. by repeat split.
    + eexists. split; [done|]. split; [done|].
      split; [apply lookup_insert_eq|].
      split; [|done]. intros k Hk. by apply lookup_insert_ne.
  - eexists. split; [done|]. split; [done|].
    split; [apply lookup_insert_eq|].
    split; [|done]. intros k Hk. by apply lookup_insert_ne.
Qed.

(** ** The pool *)

Lemma range_wf_Len s : range_wf s → bitset.Len (ActiveBits s) ≤ 2 ^ 32.
Proof. intros (H0 & He & Hl). rewrite Hl. unfold dhcp.IPRange. lia. Qed.

Lemma IPAdd_in_range s bit :
  range_wf s → 0 ≤ bit < bitset.Len (ActiveBits s) →
  dhcp.IPAdd (ActiveStart s) bit = ActiveStart s + bit
  ∧ ActiveStart s ≤ ActiveStart s + bit ≤ ActiveEnd s.
Proof.
  intros (H0 & He & Hl) Hb. rewrite Hl in Hb. unfold dhcp.IPRange in Hb.
  unfold dhcp.IPAdd, to_uint32. rewrite Z.mod_small by lia. lia.
Qed.

Lemma sweep_leases_range_wf now s :
  range_wf s → range_wf (sweep_leases now s).1.
Proof.
  intros (H0 & He & Hl).
  pose proof (sweep_fold_settings now (map_to_list (Leases s)) (s, false))
    as [Hs Hlen].
  fold (sweep_leases now s) in Hs, Hlen. simpl in *.
  destruct Hs as (_ & _ & _ & Hst & Hen & _). unfold range_wf.
  by rewrite <- Hst, <- Hen, Hlen.
Qed.

(** X9.  With one bit per address of an IPv4 active range, an address
    handed out by [getFreeIP] lies in the active range, comes with the
    flag [true], and has its bit set afterwards; the bit set keeps its
    length. *)
Theorem getFreeIP_in_range subnet now ip flag subnet' :
  range_wf subnet →
  getFreeIP subnet now = (Some ip, flag, subnet') →
  flag = true
  ∧ ActiveStart subnet ≤ ip ≤ ActiveEnd subnet
  ∧ range_wf subnet'
  ∧ bitset.Test (ip - ActiveStart subnet) (ActiveBits subnet') = true.
Proof.
  intros Hwf H.
  assert (∀ s bit, range_wf s → lowest_clear_bit (ActiveBits s) bit →
            ActiveStart s ≤ dhcp.IPAdd (ActiveStart s) bit ≤ ActiveEnd s
            ∧ range_wf (with_ActiveBits (bitset.Set_ bit (ActiveBits s)) s)
            ∧ bitset.Test (dhcp.IPAdd (ActiveStart s) bit - ActiveStart s)
                (bitset.Set_ bit (ActiveBits s)) = true) as Htake.
  { intros s bit Hs (Hb & _ & _).
    destruct (IPAdd_in_range s bit Hs Hb) as [-> Hr].
    split; [done|]. split.
    - destruct Hs as (? & ? & Hl). unfold range_wf. simpl.
      by rewrite Len_Set_lt.
    - replace (ActiveStart s + bit - ActiveStart s) with bit by lia.
      rewrite Test_Set_lt by lia. by case_decide. }
  unfold getFreeIP in H.
  destruct (firstClearBit (ActiveBits subnet)) as [bit|] eqn:E.
  - apply firstClearBit_Some in E. simplify_eq/=.
    split; [done|]. by apply Htake.
  - pose proof (sweep_leases_range_wf now subnet Hwf) as Hwf'.
    pose proof (sweep_fold_settings now (map_to_list (Leases subnet))
                  (subnet, false)) as [Hs _].
    fold (sweep_leases now subnet) in Hs.
    destruct (sweep_leases now subnet) as [swept reclaimed]. simpl in *.
    destruct (firstClearBit (ActiveBits swept)) as [bit|] eqn:E'; [|done].
    apply firstClearBit_Some in E'. simplify_eq/=.
    destruct Hs as (_ & _ & _ & Hstart & Hend & _).
    rewrite Hstart, Hend. split; [done|]. by apply Htake.
Qed.

Lemma sweep_fold_none_expired now l acc :
  Forall (λ kl : string * Lease, now ≤ ExpireTime kl.2) l →
  fold_left (sweep_lease now) l acc = acc.
Proof.
  intros H. revert acc. induction H as [|[k v] l Hv _ IH]; intros [s b]; [done|].
  simpl in Hv. cbn [fold_left].
  assert (sweep_lease now (s, b) (k, v) = (s, b)) as ->; [|apply IH].
  unfold sweep_lease.
  destruct (Z.ltb_spec (ExpireTime v) now); [lia | done].
Qed.

(** X10.  Exhaustion: when every bit is set and no lease has expired,
    [getFreeIP] returns no address and the flag [false] and changes
    nothing; [find_or_get_info] for a MAC with neither lease nor binding
    then returns nothing, changes nothing and does not save. *)
Theorem pool_exhausted subnet now :
  all_bits_set (ActiveBits subnet) →
  none_expired now subnet →
  getFreeIP subnet now = (None, false, subnet)
  ∧ ∀ nic suggest,
      Leases subnet !! nic = None → Bindings subnet !! nic = None →
      find_or_get_info subnet nic suggest now = ((None, None), subnet, false).
Proof.
  intros Hfull Hnone.
  assert (getFreeIP subnet now = (None, false, subnet)) as Hget.
  { unfold getFreeIP. rewrite (all_bits_set_first _ Hfull).
    unfold sweep_leases. rewrite sweep_fold_none_expired.
    - by rewrite (all_bits_set_first _ Hfull).
    - apply Forall_forall. intros [k v] Hin. simpl.
      apply elem_of_map_to_list in Hin. by apply (Hnone k v). }
  split; [done|]. intros nic suggest Hl Hb.
  unfold find_or_get_info, find_or_get_info_slow, lease_matches_binding.
  by rewrite Hl, Hb, Hget.
Qed.

Lemma sweep_lease_keeps_bit now acc kl i :
  range_wf acc.1 → 0 ≤ i →
  (ExpireTime kl.2 < now → Lease_Ip kl.2 ≠ ActiveStart acc.1 + i) →
  bitset.Test i (ActiveBits (sweep_lease now acc kl).1)
  = bitset.Test i (ActiveBits acc.1).
Proof.
  destruct acc as [s b], kl as [k l]. simpl. intros Hwf Hi Hne.
  pose proof (range_wf_Len s Hwf) as Hlen. destruct Hwf as (H0 & He & _).
  unfold sweep_lease.
  destruct (Z.ltb_spec (ExpireTime l) now) as [Hexp|]; [|done].
  destruct (dhcp.IPInRange _ _ _) eqn:Hr; simpl; [|done].
  apply IPInRange_true in Hr. specialize (Hne Hexp).
  unfold to_uint, dhcp.IPRange.
  destruct (decide (Lease_Ip l = ActiveStart s)) as [Heq|Hgt].
  - rewrite Heq. replace (ActiveStart s - ActiveStart s + 1 - 1) with 0 by lia.
    rewrite Z.mod_0_l by lia. rewrite Test_Clear by lia.
    case_decide; [lia | done].
  - assert ((ActiveStart s - Lease_Ip l + 1 - 1) mod 2 ^ 64
            = 2 ^ 64 + (ActiveStart s - Lease_Ip l)) as ->.
    { symmetry. apply Z.mod_unique with (-1); lia. }
    rewrite Clear_ge by lia. done.
Qed.

Lemma sweep_fold_keeps_bit now l acc i :
  range_wf acc.1 → 0 ≤ i →
  Forall (λ kl : string * Lease,
            ExpireTime kl.2 < now → Lease_Ip kl.2 ≠ ActiveStart acc.1 + i) l →
  bitset.Test i (ActiveBits (fold_left (sweep_lease now) l acc).1)
  = bitset.Test i (ActiveBits acc.1).
Proof.
  intros Hwf Hi H. revert acc Hwf H.
  induction l as [|kl l IH]; intros acc Hwf H; [done|].
  apply Forall_cons in H as [Hkl Hl]. simpl.
  destruct (sweep_lease_settings now acc kl)
    as [(_ & _ & _ & Hstart & Hend & _) Hlen].
  rewrite IH.
  - by apply sweep_lease_keeps_bit.
  - destruct Hwf as (? & ? & ?). unfold range_wf.
    by rewrite <- Hstart, <- Hend, Hlen.
  - by rewrite <- Hstart.
Qed.

(** X11.  An address of the active range whose bit is set and on which no
    expired lease sits (the address of a binding, or of a lease still
    running) is never handed out by [getFreeIP], and its bit is still set
    afterwards. *)
Theorem getFreeIP_skips_held_address subnet now ip :
  range_wf subnet →
  ActiveStart subnet ≤ ip ≤ ActiveEnd subnet →
  bitset.Test (ip - ActiveStart subnet) (ActiveBits subnet) = true →
  no_expired_lease_on now subnet ip →
  let r := getFreeIP subnet now in
  r.1.1 ≠ Some ip
  ∧ bitset.Test (ip - ActiveStart subnet) (ActiveBits r.2) = true.
Proof.
  intros Hwf Hip Hset Hno.
  assert (∀ s bit, range_wf s → ActiveStart s = ActiveStart subnet →
            bitset.Test (ip - ActiveStart subnet) (ActiveBits s) = true →
            lowest_clear_bit (ActiveBits s) bit →
            Some (dhcp.IPAdd (ActiveStart s) bit) ≠ Some ip
            ∧ bitset.Test (ip - ActiveStart subnet)
                (bitset.Set_ bit (ActiveBits s)) = true) as Htake.
  { intros s bit Hs Hstart Ht (Hb & Hc & _).
    destruct (IPAdd_in_range s bit Hs Hb) as [-> _]. split.
    - intros [= Heq]. replace (ip - ActiveStart subnet) with bit in Ht by lia.
      congruence.
    - rewrite Test_Set_lt by lia. by case_decide. }
  unfold getFreeIP.
  destruct (firstClearBit (ActiveBits subnet)) as [bit|] eqn:E; simpl.
  - apply firstClearBit_Some in E. by apply Htake.
  - pose proof (sweep_leases_range_wf now subnet Hwf) as Hwf'.
    pose proof (sweep_fold_settings now (map_to_list (Leases subnet))
                  (subnet, false)) as [(_ & _ & _ & Hstart & _) _].
    pose proof (sweep_fold_keeps_bit now (map_to_list (Leases subnet))
                  (subnet, false) (ip - ActiveStart subnet) Hwf) as Hkeep.
    fold (sweep_leases now subnet) in Hstart, Hkeep. simpl in *.
    assert (bitset.Test (ip - ActiveStart subnet)
              (ActiveBits (sweep_leases now subnet).1) = true) as Hset'.
    { rewrite Hkeep; [done | lia |].
      apply Forall_forall. intros [k v] Hin Hexp. simpl in *.
      apply elem_of_map_to_list in Hin.
      replace (ActiveStart subnet + (ip - ActiveStart subnet)) with ip by lia.
      by apply (Hno k v). }
    destruct (sweep_leases now subnet) as [swept reclaimed]. simpl in *.
    destruct (firstClearBit (ActiveBits swept)) as [bit|] eqn:E'; simpl.
    + apply firstClearBit_Some in E'. by apply Htake.
    + done.
Qed.

(** ** Option composition, again *)

Section build_options_order.
Context (Packet : Type) (decode_options : Packet → gmap Z string)
        (template_execute : string → gmap Z string → option string)
        (convertOptionValueToByte : Z → string → option (list Z)).

Lemma fold_option_not_rendered srcOpts opts o c :
  (∀ v, RenderToDHCP template_execute convertOptionValueToByte o srcOpts
        ≠ Some (c, v)) →
  fold_option template_execute convertOptionValueToByte srcOpts opts o !! c
  = opts !! c.
Proof.
  intros Hc. unfold fold_option.
  destruct (RenderToDHCP _ _ o srcOpts) as [[c' v']|] eqn:E; [|done].
  apply lookup_insert_ne. intros ->. by apply (Hc v').
Qed.

Lemma fold_options_not_rendered srcOpts l opts c :
  Forall (λ o, ∀ v, RenderToDHCP template_execute convertOptionValueToByte
                      o srcOpts ≠ Some (c, v)) l →
  fold_left (fold_option template_execute convertOptionValueToByte srcOpts)
            l opts !! c
  = opts !! c.
Proof.
  intros Hl. revert opts.
  induction Hl as [|o l Ho Hl IH]; intros opts; [done|].
  simpl. rewrite IH. by apply fold_option_not_rendered.
Qed.

Lemma build_options_fold s lease binding p :
  (build_options Packet decode_options template_execute
     convertOptionValueToByte s lease binding p).1
  = fold_left
      (fold_option template_execute convertOptionValueToByte (decode_options p))
      (Options s ++ from_option Binding_Options [] binding)
      (<[dhcp.OptionRebindingTimeValue :=
           PutUint32 (to_uint32 (to_uint32
             (match binding with
              | None => ActiveLeaseTime s
              | Some _ => ReservedLeaseTime s
              end) * 3) / 4)]>
         (<[dhcp.OptionRenewalTimeValue :=
              PutUint32 (to_uint32
                (match binding with
                 | None => ActiveLeaseTime s
                 | Some _ => ReservedLeaseTime s
                 end) / 2)]> ∅)).
Proof.
  unfold build_options. destruct binding as [b|]; simpl.
  - by rewrite fold_left_app.
  - by rewrite app_nil_r.
Qed.

(** X12.  In the options [build_options] returns, the subnet's options
    come first and the binding's after them, and for each code the last
    option that renders wins: if an option of that list renders to
    [(c, v)] and no option after it renders to code [c], the result has
    [v] under [c], also when [c] is the renewal or rebinding code; and a
    code to which no option renders, other than those two, is absent. *)
Theorem build_options_last_rendered_wins s lease binding p c :
  let render o :=
    RenderToDHCP template_execute convertOptionValueToByte o
      (decode_options p) in
  let r := build_options Packet decode_options template_execute
             convertOptionValueToByte s lease binding p in
  (∀ l1 o l2 v,
     Options s ++ from_option Binding_Options [] binding = l1 ++ o :: l2 →
     render o = Some (c, v) →
     Forall (λ o', ∀ v', render o' ≠ Some (c, v')) l2 →
     r.1 !! c = Some v)
  ∧ (Forall (λ o', ∀ v', render o' ≠ Some (c, v'))
       (Options s ++ from_option Binding_Options [] binding) →
     c ≠ dhcp.OptionRenewalTimeValue → c ≠ dhcp.OptionRebindingTimeValue →
     r.1 !! c = None).
Proof.
  intros render r. unfold r. rewrite build_options_fold. split.
  - intros l1 o l2 v -> Ho Hl2.
    rewrite fold_left_app. simpl.
    rewrite fold_options_not_rendered by done.
    unfold fold_option. fold (render o). rewrite Ho. apply lookup_insert_eq.
  - intros Hall H58 H59. rewrite fold_options_not_rendered by done.
    by rewrite !lookup_insert_ne, lookup_empty.
Qed.

End build_options_order.

(** ** Decoding a subnet *)

(** What a successful [UnmarshalJSON] returns, field by field. *)
Lemma UnmarshalJSON_inv s0 as_ s :
  UnmarshalJSON s0 as_ = Some s →
  ∃ netdata,
    ParseCIDR (api_Subnet as_) = Some netdata
    ∧ ParseIP (api_ActiveStart as_) = Some (api_ActiveStart as_)
    ∧ ParseIP (api_ActiveEnd as_) = Some (api_ActiveEnd as_)
    ∧ Contains netdata (api_ActiveStart as_) = true
    ∧ Contains netdata (api_ActiveEnd as_) = true
    ∧ Name s = api_Name as_
    ∧ Subnet_Subnet s = netdata
    ∧ NextServer s = match api_NextServer as_ with
                     | Some ip => Some ip
                     | None => NextServer s0
                     end
    ∧ ActiveStart s = api_ActiveStart as_
    ∧ ActiveEnd s = api_ActiveEnd as_
    ∧ ActiveLeaseTime s
      = (let alt := wrap_int64 (api_ActiveLeaseTime as_ * Second) in
         if alt =? 0 then 30 * Second else alt)
    ∧ ReservedLeaseTime s
      = (let rlt := wrap_int64 (api_ReservedLeaseTime as_ * Second) in
         if rlt =? 0 then 2 * Hour else rlt)
    ∧ Leases s = fold_left (insert_by Lease_Mac) (api_Leases as_) (Leases s0)
    ∧ Bindings s
      = fold_left (insert_by Binding_Mac) (api_Bindings as_) (Bindings s0)
    ∧ ActiveBits s
      = fold_left (λ b v, mark_bits (api_ActiveStart as_) (api_ActiveEnd as_)
                            (Binding_Ip v) b)
          (api_Bindings as_)
          (fold_left (λ b v, mark_bits (api_ActiveStart as_)
                               (api_ActiveEnd as_) (Lease_Ip v) b)
             (api_Leases as_)
             (bitset.New (to_uint (dhcp.IPRange (api_ActiveStart as_)
                                                (api_ActiveEnd as_)))))
    ∧ Options s = api_Options as_ ++ synthetic_options netdata.
Proof.
  unfold UnmarshalJSON. intros H.
  destruct (ParseCIDR (api_Subnet as_)) as [netdata|]; [|done].
  exists netdata. split; [done|].
  unfold ParseIP in *.
  destruct ((0 <=? api_ActiveStart as_) && (api_ActiveStart as_ <? 2 ^ 32));
    [|done].
  destruct ((0 <=? api_ActiveEnd as_) && (api_ActiveEnd as_ <? 2 ^ 32));
    [|done].
  destruct (Contains netdata (api_ActiveStart as_)); [|done].
  destruct (Contains netdata (api_ActiveEnd as_)); [|done].
  simpl in H. rewrite fold_load_lease in H. simpl in H.
  rewrite fold_load_binding in H. simpl in H.
  injection H as <-. simpl. by repeat split.
Qed.

Lemma ParseIP_Some text ip : ParseIP text = Some ip → ip = text ∧ 0 ≤ ip < 2 ^ 32.
Proof.
  unfold ParseIP.
  destruct (Z.leb_spec 0 text), (Z.ltb_spec text (2 ^ 32)); simpl; intros [=].
  subst. lia.
Qed.

Lemma ParseCIDR_Some text n :
  ParseCIDR text = Some n →
  0 ≤ IPNet_ones n ≤ 32
  ∧ IPNet_ones n = IPNet_ones text
  ∧ IPNet_IP n = Z.land (IPNet_IP text) (IPNet_Mask text)
  ∧ 0 ≤ IPNet_IP text < 2 ^ 32.
Proof.
  unfold ParseCIDR.
  destruct (Z.leb_spec 0 (IPNet_IP text)), (Z.ltb_spec (IPNet_IP text) (2 ^ 32)),
    (Z.leb_spec 0 (IPNet_ones text)), (Z.leb_spec (IPNet_ones text) 32);
    simpl; intros [=]; subst; simpl. lia.
Qed.

Lemma land_lt_pow2 a b n : 0 ≤ n → 0 ≤ a < 2 ^ n → Z.land a b < 2 ^ n.
Proof.
  intros Hn Ha.
  assert (Z.land a b = Z.land a b mod 2 ^ n) as ->.
  { rewrite <- !Z.land_ones by done.
    rewrite <- Z.land_assoc, (Z.land_comm b), Z.land_assoc.
    rewrite (Z.land_ones a) by done. by rewrite Z.mod_small. }
  apply Z.mod_pos_bound. lia.
Qed.

(** The network [ParseCIDR] returns is masked: parsing it again gives it
    back. *)
Lemma ParseCIDR_masked text n : ParseCIDR text = Some n → ParseCIDR n = Some n.
Proof.
  intros H. destruct (ParseCIDR_Some text n H) as (Ho & Hones & Hip & Hr).
  assert (0 ≤ IPNet_Mask text) as Hm.
  { unfold IPNet_Mask, CIDRMask. rewrite <- Hones.
    assert (2 ^ (32 - IPNet_ones n) ≤ 2 ^ 32) by (apply Z.pow_le_mono_r; lia).
    lia. }
  assert (0 ≤ IPNet_IP n < 2 ^ 32) as Hn.
  { rewrite Hip. split; [apply Z.land_nonneg; lia|].
    apply land_lt_pow2; lia. }
  unfold ParseCIDR.
  destruct (Z.leb_spec 0 (IPNet_IP n)); [|lia].
  destruct (Z.ltb_spec (IPNet_IP n) (2 ^ 32)); [|lia].
  destruct (Z.leb_spec 0 (IPNet_ones n)); [|lia].
  destruct (Z.leb_spec (IPNet_ones n) 32); [|lia]. simpl.
  f_equal. destruct n as [ip ones]. simpl in *. f_equal.
  unfold IPNet_Mask. simpl. rewrite Hip, Hones.
  unfold IPNet_Mask. by rewrite <- Z.land_assoc, Z.land_diag.
Qed.

(** X13.  [UnmarshalJSON] succeeds exactly when the network parses and
    contains both ends of the active range (their order is not looked
    at).  The subnet it then returns has a masked network of IPv4 prefix
    length, lease times that are not zero (30 s and 2 h where the document
    says 0), and options that end with the subnet mask and the broadcast
    address of the network. *)
Theorem UnmarshalJSON_accepts s0 as_ :
  (is_Some (UnmarshalJSON s0 as_)
   ↔ ∃ netdata, ParseCIDR (api_Subnet as_) = Some netdata
                ∧ 0 ≤ api_ActiveStart as_ < 2 ^ 32
                ∧ 0 ≤ api_ActiveEnd as_ < 2 ^ 32
                ∧ Contains netdata (api_ActiveStart as_) = true
                ∧ Contains netdata (api_ActiveEnd as_) = true)
  ∧ ∀ s, UnmarshalJSON s0 as_ = Some s →
         ParseCIDR (Subnet_Subnet s) = Some (Subnet_Subnet s)
         ∧ 0 ≤ IPNet_ones (Subnet_Subnet s) ≤ 32
         ∧ Contains (Subnet_Subnet s) (ActiveStart s) = true
         ∧ Contains (Subnet_Subnet s) (ActiveEnd s) = true
         ∧ ActiveLeaseTime s ≠ 0 ∧ ReservedLeaseTime s ≠ 0
         ∧ (api_ActiveLeaseTime as_ = 0 → ActiveLeaseTime s = 30 * Second)
         ∧ (api_ReservedLeaseTime as_ = 0 → ReservedLeaseTime s = 2 * Hour)
         ∧ Options s = api_Options as_ ++ synthetic_options (Subnet_Subnet s).
Proof.
  split.
  - split.
    + intros [s Hs]. apply UnmarshalJSON_inv in Hs
        as (netdata & Hc & Hs1%ParseIP_Some & He1%ParseIP_Some & ? & ? & _).
      exists netdata. by repeat split; try lia.
    + intros (netdata & Hc & Hs1 & He1 & Hcs & Hce).
      unfold UnmarshalJSON. rewrite Hc, !ParseIP_ok, Hcs, Hce by done. simpl.
      eauto.
  - intros s Hs. apply UnmarshalJSON_inv in Hs
      as (netdata & Hc & _ & _ & Hcs & Hce & _ & Hnet & _ & Hst & Hen
          & Halt & Hrlt & _ & _ & _ & Hopt).
    rewrite Hnet, Hst, Hen, Halt, Hrlt, Hopt.
    split; [by eapply ParseCIDR_masked|].
    split; [by apply ParseCIDR_Some in Hc as (? & _)|].
    split; [done|]. split; [done|]. simpl.
    split; [|split; [|split; [|split]]].
    + destruct (Z.eqb_spec (wrap_int64 (api_ActiveLeaseTime as_ * Second)) 0);
        [done | done].
    + destruct (Z.eqb_spec (wrap_int64 (api_ReservedLeaseTime as_ * Second)) 0);
        [done | done].
    + by intros ->.
    + by intros ->.
    + done.
Qed.

Lemma fold_insert_by_elem {A} (key : A → string) (l : list A)
    (m0 : gmap string A) k v :
  fold_left (insert_by key) l m0 !! k = Some v →
  (v ∈ l ∧ key v = k) ∨ m0 !! k = Some v.
Proof.
  revert m0. induction l as [|a l IH]; intros m0 H; [by right|].
  simpl in H. apply IH in H as [[Hin Hk] | H].
  - left. split; [by right | done].
  - unfold insert_by in H. apply lookup_insert_Some in H as [[<- <-] | [_ H]].
    + left. split; [by left | done].
    + by right.
Qed.

Lemma fold_insert_by_keys {A} (key : A → string) (l : list A) :
  map_Forall (λ k v, key v = k) (fold_left (insert_by key) l ∅).
Proof.
  intros k v H. apply fold_insert_by_elem in H as [[_ ?] | H]; [done|].
  by rewrite lookup_empty in H.
Qed.

(** X14.  After [UnmarshalJSON] into a fresh subnet, every lease and every
    binding is stored under its own MAC; and when the MACs of the leases
    of the document are distinct, those of its bindings too, and the
    active range is not empty, the bit set has one bit per address of the
    range and a bit is set exactly when a lease or a binding stored holds
    its address. *)
Theorem UnmarshalJSON_rebuilds_bits as_ s :
  UnmarshalJSON zero_Subnet as_ = Some s →
  map_Forall (λ k l, Lease_Mac l = k) (Leases s)
  ∧ map_Forall (λ k b, Binding_Mac b = k) (Bindings s)
  ∧ (ActiveStart s ≤ ActiveEnd s →
     NoDup (Lease_Mac <$> api_Leases as_) →
     NoDup (Binding_Mac <$> api_Bindings as_) →
     bits_match_records s (ActiveBits s)).
Proof.
  intros H. apply UnmarshalJSON_inv in H
    as (netdata & _ & Hs1%ParseIP_Some & He1%ParseIP_Some & _ & _ & _ & _ & _
        & Hst & Hen & _ & _ & Hl & Hb & Hbits & _).
  rewrite Hl, Hb. simpl.
  split; [apply fold_insert_by_keys|]. split; [apply fold_insert_by_keys|].
  intros Hle Hndl Hndb. rewrite Hst, Hen in *.
  destruct Hs1 as [_ Hs1], He1 as [_ He1].
  assert (to_uint (dhcp.IPRange (api_ActiveStart as_) (api_ActiveEnd as_))
          = dhcp.IPRange (api_ActiveStart as_) (api_ActiveEnd as_)) as Hn.
  { apply to_uint_small. unfold dhcp.IPRange. lia. }
  rewrite Hn in Hbits.
  assert (bitset.Len (bitset.New (dhcp.IPRange (api_ActiveStart as_)
                                               (api_ActiveEnd as_)))
          = dhcp.IPRange (api_ActiveStart as_) (api_ActiveEnd as_)) as Hlen0.
  { apply Len_New. unfold dhcp.IPRange. lia. }
  destruct (fold_mark_bits_spec (api_ActiveStart as_) (api_ActiveEnd as_)
              (proj1 Hs1) (proj2 He1) Lease_Ip (api_Leases as_) _ Hlen0)
    as [Hl1 Ht1].
  match type of Hl1 with bitset.Len ?b = _ => set (bits1 := b) in * end.
  assert (bitset.Len bits1
          = dhcp.IPRange (api_ActiveStart as_) (api_ActiveEnd as_))
    as Hlen1 by congruence.
  destruct (fold_mark_bits_spec (api_ActiveStart as_) (api_ActiveEnd as_)
              (proj1 Hs1) (proj2 He1) Binding_Ip (api_Bindings as_) _ Hlen1)
    as [Hl2 Ht2].
  rewrite <- Hbits in Hl2, Ht2.
  unfold bits_match_records. rewrite Hst, Hen.
  split; [congruence|]. intros i Hi.
  rewrite Ht2, Ht1 by (rewrite ?Hlen0; lia). rewrite Test_New.
  unfold holds_address. rewrite Hl, Hb. simpl. split.
  - intros [[? | (l & Hin & Hip)] | (b & Hin & Hip)]; [done | left | right].
    + exists (Lease_Mac l), l. split; [|done].
      by apply (lookup_fold_insert_by Lease_Mac (api_Leases as_) ∅
                  (Lease_Mac l) Hndl).
    + exists (Binding_Mac b), b. split; [|done].
      by apply (lookup_fold_insert_by Binding_Mac (api_Bindings as_) ∅
                  (Binding_Mac b) Hndb).
  - intros [(k & l & Hk & Hip) | (k & b & Hk & Hip)].
    + apply fold_insert_by_elem in Hk as [[Hin _] | Hk];
        [|by rewrite lookup_empty in Hk].
      left. right. eauto.
    + apply fold_insert_by_elem in Hk as [[Hin _] | Hk];
        [|by rewrite lookup_empty in Hk].
      right. eauto.
Qed.

(** ** Saving and loading the repository *)

(** One subnet written out and read back. *)
Lemma reload_subnet s :
  snapshot_wf s →
  ∃ s', UnmarshalJSON zero_Subnet (MarshalJSON s) = Some s'
        ∧ Name s' = Name s
        ∧ Subnet_Subnet s' = Subnet_Subnet s
        ∧ NextServer s' = NextServer s
        ∧ ActiveStart s' = ActiveStart s
        ∧ ActiveEnd s' = ActiveEnd s
        ∧ ActiveLeaseTime s' = ActiveLeaseTime s
        ∧ ReservedLeaseTime s' = ReservedLeaseTime s
        ∧ Leases s' = Leases s
        ∧ Bindings s' = Bindings s
        ∧ Options s' = Options s ++ synthetic_options (Subnet_Subnet s).
Proof.
  intros (Hlk & Hbk & Hcidr & Hs0 & Hse & He & Hcs & Hce & Halt & Hrlt).
  assert (is_Some (UnmarshalJSON zero_Subnet (MarshalJSON s))) as [s' Hs'].
  { unfold UnmarshalJSON. simpl.
    rewrite Hcidr, !ParseIP_ok, Hcs, Hce by lia. simpl. eauto. }
  exists s'. split; [done|].
  apply UnmarshalJSON_inv in Hs'
    as (netdata & Hc & _ & _ & _ & _ & Hname & Hnet & Hns & Hst & Hen
        & Ha & Hr & Hl & Hb & _ & Hopt).
  simpl in *. rewrite Hcidr in Hc. injection Hc as <-.
  rewrite whole_seconds_roundtrip in Ha, Hr by done.
  destruct Halt as (Halt & _), Hrlt as (Hrlt & _).
  apply Z.eqb_neq in Halt, Hrlt. rewrite Halt in Ha. rewrite Hrlt in Hr.
  rewrite (fold_insert_by_values Lease_Mac (Leases s) _ Hlk) in Hl by done.
  rewrite (fold_insert_by_values Binding_Mac (Bindings s) _ Hbk) in Hb by done.
  split_and!; try done. rewrite Hns. by destruct (NextServer s).
Qed.

(** X15.  A restart keeps the address book: when every subnet of the
    repository is well formed, [load_data] on a fresh tracker, run on what
    [save_data] wrote, succeeds and yields subnets under the same names
    with the same name, network, next server, active range, lease times,
    leases and bindings; each list of options has gained the two
    synthetic options. *)
Theorem load_data_after_save_data dt :
  map_Forall (λ _ s, snapshot_wf s) (Subnets dt) →
  ∃ dt',
    load_data (NewDataTracker (database (save_data dt))) = Some dt'
    ∧ dom (Subnets dt') = dom (Subnets dt)
    ∧ ∀ k s, Subnets dt !! k = Some s →
        ∃ s', Subnets dt' !! k = Some s'
              ∧ Name s' = Name s
              ∧ Subnet_Subnet s' = Subnet_Subnet s
              ∧ NextServer s' = NextServer s
              ∧ ActiveStart s' = ActiveStart s
              ∧ ActiveEnd s' = ActiveEnd s
              ∧ ActiveLeaseTime s' = ActiveLeaseTime s
              ∧ ReservedLeaseTime s' = ReservedLeaseTime s
              ∧ Leases s' = Leases s
              ∧ Bindings s' = Bindings s
              ∧ Options s' = Options s ++ synthetic_options (Subnet_Subnet s).
Proof.
  intros Hwf. unfold load_data, NewDataTracker, save_data. simpl.
  rewrite bool_decide_eq_true_2.
  - eexists. split; [reflexivity|]. simpl.
    assert (∀ k, (omap id (UnmarshalJSON zero_Subnet <$> (MarshalJSON
                    <$> Subnets dt)) ∪ (∅ : gmap string Subnet)) !! k
                 = Subnets dt !! k ≫= λ s,
                     UnmarshalJSON zero_Subnet (MarshalJSON s)) as Hlook.
    { intros k. rewrite (right_id_L ∅ (∪)), lookup_omap, !lookup_fmap.
      by destruct (Subnets dt !! k). }
    split.
    + apply set_eq. intros k. rewrite !elem_of_dom, Hlook.
      destruct (Subnets dt !! k) as [s|] eqn:Hk; simpl.
      * destruct (reload_subnet s (Hwf k s Hk)) as (s' & -> & _).
        split; eauto.
      * split; intros [? ?]; done.
    + intros k s Hk. rewrite Hlook, Hk. simpl.
      destruct (reload_subnet s (Hwf k s Hk)) as (s' & -> & Hrest). eauto.
  - intros k o Ho. rewrite !lookup_fmap in Ho.
    destruct (Subnets dt !! k) as [s|] eqn:Hk; simpl in Ho; [|done].
    injection Ho as <-.
    destruct (reload_subnet s (Hwf k s Hk)) as (s' & -> & _). eauto.
Qed.

(** ** Bindings, again *)

Lemma bit_index s ip :
  range_wf s → ActiveStart s ≤ ip ≤ ActiveEnd s →
  to_uint (dhcp.IPRange (ActiveStart s) ip - 1) = ip - ActiveStart s
  ∧ 0 ≤ ip - ActiveStart s < bitset.Len (ActiveBits s).
Proof.
  intros (H0 & He & Hl) Hip. rewrite Hl. unfold dhcp.IPRange.
  rewrite to_uint_small by lia. lia.
Qed.

(** The bits after the optional [Clear] of [AddBinding] and
    [DeleteBinding]. *)
Lemma clear_binding_bit s ip :
  range_wf s →
  let s' :=
    if dhcp.IPInRange (ActiveStart s) (ActiveEnd s) ip
    then with_ActiveBits
           (bitset.Clear (to_uint (dhcp.IPRange (ActiveStart s) ip - 1))
              (ActiveBits s)) s
    else s in
  range_wf s'
  ∧ with_ActiveBits (ActiveBits s) s' = s
  ∧ ∀ i, 0 ≤ i →
         bitset.Test i (ActiveBits s')
         = if decide (i = ip - ActiveStart s ∧ ActiveStart s ≤ ip ≤ ActiveEnd s)
           then false else bitset.Test i (ActiveBits s).
Proof.
  intros Hwf. destruct (dhcp.IPInRange _ _ _) eqn:Hr; simpl.
  - apply IPInRange_true in Hr.
    destruct (bit_index s ip Hwf Hr) as [-> Hi].
    split; [|split].
    + destruct Hwf as (? & ? & ?). unfold range_wf. simpl.
      by rewrite Len_Clear.
    + by destruct s.
    + intros i Hi'. rewrite Test_Clear by lia.
      repeat case_decide; try done; lia.
  - split; [done|]. split; [by destruct s|].
    intros i Hi. case_decide as Hd; [|done].
    destruct Hd as [_ Hd]. apply IPInRange_true in Hd. congruence.
Qed.

(** X16.  [AddBinding] on an unknown subnet gives NotFound and changes
    nothing.  On a subnet with one bit per address of its range it
    succeeds and saves; the binding is stored under its MAC, the other
    bindings, the leases and the other subnets are as before; the bit of
    the new address is set when the address lies in the active range, the
    bit of the address the MAC was bound to before is cleared when that
    address differs, and no other bit changes. *)
Theorem AddBinding_effect dt name b :
  (Subnets dt !! name = None →
     AddBinding dt name b = ((Some "Not Found"%string, StatusNotFound), dt))
  ∧ ∀ s, Subnets dt !! name = Some s → range_wf s →
      let r := AddBinding dt name b in
      let start := ActiveStart s in
      let in_range ip := ActiveStart s ≤ ip ≤ ActiveEnd s in
      r.1 = (None, StatusOK)
      ∧ database r.2 = MarshalJSON <$> Subnets r.2
      ∧ (∀ k, k ≠ name → Subnets r.2 !! k = Subnets dt !! k)
      ∧ ∃ s', Subnets r.2 !! name = Some s'
              ∧ same_settings (with_Bindings (Bindings s') s) s'
              ∧ Bindings s' = <[Binding_Mac b := b]> (Bindings s)
              ∧ Leases s' = Leases s
              ∧ range_wf s'
              ∧ (in_range (Binding_Ip b) →
                 bitset.Test (Binding_Ip b - start) (ActiveBits s') = true)
              ∧ (∀ old, Bindings s !! Binding_Mac b = Some old →
                   in_range (Binding_Ip old) → Binding_Ip old ≠ Binding_Ip b →
                   bitset.Test (Binding_Ip old - start) (ActiveBits s') = false)
              ∧ (∀ i, 0 ≤ i → i ≠ Binding_Ip b - start →
                   (∀ old, Bindings s !! Binding_Mac b = Some old →
                           i ≠ Binding_Ip old - start) →
                   bitset.Test i (ActiveBits s')
                   = bitset.Test i (ActiveBits s)).
Proof.
  split; [intros Hn; unfold AddBinding; by rewrite Hn|].
  intros s Hs Hwf. unfold AddBinding. rewrite Hs. simpl.
  split; [done|]. split; [done|].
  split; [intros k Hk; by apply lookup_insert_ne|].
  eexists. split; [apply lookup_insert_eq|]. simpl.
  (* the subnet after the Clear of the old binding *)
  set (s1 := match Bindings s !! Binding_Mac b with
             | Some b0 => _
             | None => s
             end).
  assert (range_wf s1 ∧ with_ActiveBits (ActiveBits s) s1 = s
          ∧ ∀ i, 0 ≤ i →
              bitset.Test i (ActiveBits s1)
              = match Bindings s !! Binding_Mac b with
                | Some old =>
                    if decide (i = Binding_Ip old - ActiveStart s
                               ∧ ActiveStart s ≤ Binding_Ip old ≤ ActiveEnd s)
                    then false else bitset.Test i (ActiveBits s)
                | None => bitset.Test i (ActiveBits s)
                end)
    as (Hwf1 & Heq1 & Hbits1).
  { unfold s1. destruct (Bindings s !! Binding_Mac b) as [old|] eqn:Hold.
    - apply (clear_binding_bit s (Binding_Ip old) Hwf).
    - split; [done|]. split; [by destruct s | done]. }
  assert (ActiveStart s1 = ActiveStart s ∧ ActiveEnd s1 = ActiveEnd s
          ∧ Leases s1 = Leases s ∧ Bindings s1 = Bindings s
          ∧ same_settings s s1) as (Hst & Hen & Hl1 & Hb1 & Hset).
  { clearbody s1.
    pose proof (f_equal Name Heq1). pose proof (f_equal Subnet_Subnet Heq1).
    pose proof (f_equal NextServer Heq1). pose proof (f_equal ActiveStart Heq1).
    pose proof (f_equal ActiveEnd Heq1).
    pose proof (f_equal ActiveLeaseTime Heq1).
    pose proof (f_equal ReservedLeaseTime Heq1).
    pose proof (f_equal Leases Heq1). pose proof (f_equal Bindings Heq1).
    pose proof (f_equal Options Heq1). simpl in *. by repeat split. }
  clearbody s1.
  destruct (dhcp.IPInRange (ActiveStart s1) (ActiveEnd s1) (Binding_Ip b))
    eqn:Hr; simpl.
  - apply IPInRange_true in Hr.
    destruct (bit_index s1 (Binding_Ip b) Hwf1 Hr) as [-> Hi].
    rewrite Hst, Hen in *.
    split; [destruct Hset as (?&?&?&?&?&?&?&?&?); by repeat split|].
    split; [by rewrite Hb1|]. split; [done|].
    split.
    { destruct Hwf1 as (? & ? & ?). unfold range_wf. simpl.
      rewrite Len_Set_lt by lia. by rewrite Hst, Hen in *. }
    split; [intros _; rewrite Test_Set_lt by lia; by case_decide|].
    split.
    + intros old Hold Hin Hne. rewrite Test_Set_lt by lia.
      case_decide; [lia|]. rewrite Hbits1, Hold by lia.
      destruct (decide (_ ∧ _)); [done | lia].
    + intros i Hi' Hnb Hno. rewrite Test_Set_lt by lia.
      case_decide; [lia|]. rewrite Hbits1 by lia.
      destruct (Bindings s !! Binding_Mac b) as [old|]; [|done].
      destruct (decide (_ ∧ _)) as [[Hd _]|]; [|done].
      by specialize (Hno old eq_refl).
  - rewrite Hst, Hen in *.
    split; [destruct Hset as (?&?&?&?&?&?&?&?&?); by repeat split|].
    split; [by rewrite Hb1|]. split; [done|].
    split; [exact Hwf1|].
    split.
    { intros Hin. apply IPInRange_true in Hin. congruence. }
    split.
    + intros old Hold Hin Hne. rewrite Hbits1, Hold by lia.
      destruct (decide (_ ∧ _)); [done | lia].
    + intros i Hi' Hnb Hno. rewrite Hbits1 by lia.
      destruct (Bindings s !! Binding_Mac b) as [old|]; [|done].
      destruct (decide (_ ∧ _)) as [[Hd _]|]; [|done].
      by specialize (Hno old eq_refl).
Qed.

(** X17.  [DeleteBinding] gives NotFound and changes nothing when the
    subnet or the binding is unknown.  Otherwise, on a subnet with one bit
    per address of its range, it succeeds and saves; the binding of the
    MAC is gone, the other bindings, the leases and the other subnets are
    as before; the bit of the address of the binding is cleared when the
    address lies in the active range, whether or not a lease holds that
    address, and no other bit changes. *)
Theorem DeleteBinding_effect dt name mac :
  (Subnets dt !! name = None →
     DeleteBinding dt name mac
     = ((Some "Subnet Not Found"%string, StatusNotFound), dt))
  ∧ ∀ s, Subnets dt !! name = Some s →
      (Bindings s !! mac = None →
         DeleteBinding dt name mac
         = ((Some "Binding Not Found"%string, StatusNotFound), dt))
      ∧ ∀ b, Bindings s !! mac = Some b → range_wf s →
          let r := DeleteBinding dt name mac in
          r.1 = (None, StatusOK)
          ∧ database r.2 = MarshalJSON <$> Subnets r.2
          ∧ (∀ k, k ≠ name → Subnets r.2 !! k = Subnets dt !! k)
          ∧ ∃ s', Subnets r.2 !! name = Some s'
                  ∧ Bindings s' = delete mac (Bindings s)
                  ∧ Leases s' = Leases s
                  ∧ range_wf s'
                  ∧ ∀ i, 0 ≤ i →
                      bitset.Test i (ActiveBits s')
                      = if decide (i = Binding_Ip b - ActiveStart s
                                   ∧ ActiveStart s ≤ Binding_Ip b
                                     ≤ ActiveEnd s)
                        then false else bitset.Test i (ActiveBits s).
Proof.
  split; [intros Hn; unfold DeleteBinding; by rewrite Hn|].
  intros s Hs. split; [intros Hn; unfold DeleteBinding; by rewrite Hs, Hn|].
  intros b Hb Hwf. unfold DeleteBinding. rewrite Hs, Hb. simpl.
  split; [done|]. split; [done|].
  split; [intros k Hk; by apply lookup_insert_ne|].
  eexists. split; [apply lookup_insert_eq|]. simpl.
  destruct (clear_binding_bit s (Binding_Ip b) Hwf) as (Hwf1 & Heq1 & Hbits1).
  simpl in *.
  pose proof (f_equal Leases Heq1) as Hl. pose proof (f_equal Bindings Heq1) as Hbd.
  simpl in *. by rewrite Hl, Hbd.
Qed.

(** ** The management handlers *)

Section api_facts.
Context (CapabilityMap Tenant : Type)
        (HasCapability : CapabilityMap → Tenant → string → bool)
        (TenantId : Subnet → Tenant) (ToLower : string → string).

Lemma refuse_refused {A} capMap subnet :
  refused (refuse CapabilityMap Tenant HasCapability TenantId capMap subnet
           : reply A).
Proof.
  unfold refuse, refused. case_match; eauto 10.
Qed.

Local Ltac refusal :=
  simpl; split;
  [reflexivity
  | first [apply refuse_refused | unfold refused; eauto 10]].

(** X18.  A caller whose capability map grants none of SUBNET_CREATE,
    SUBNET_UPDATE and SUBNET_DESTROY on any tenant, or for whom no
    capability map can be made, changes nothing through any of the six
    handlers that write, whatever the request: the repository is the
    same afterwards and the reply is an error with status 400, 403 or
    404. *)
Theorem handlers_need_capability dt capMap :
  (∀ cm t, capMap = Some cm →
     HasCapability cm t "SUBNET_CREATE" = false
     ∧ HasCapability cm t "SUBNET_UPDATE" = false
     ∧ HasCapability cm t "SUBNET_DESTROY" = false) →
  (∀ body,
     let r := CreateSubnet CapabilityMap Tenant HasCapability TenantId
                dt body capMap in
     r.2 = dt ∧ refused r.1)
  ∧ (∀ id body,
       let r := UpdateSubnet CapabilityMap Tenant HasCapability TenantId
                  dt id body capMap in
       r.2 = dt ∧ refused r.1)
  ∧ (∀ id,
       let r := DeleteSubnet CapabilityMap Tenant HasCapability TenantId
                  dt id capMap in
       r.2 = dt ∧ refused r.1)
  ∧ (∀ id body,
       let r := BindSubnet CapabilityMap Tenant HasCapability TenantId ToLower
                  dt id body capMap in
       r.2 = dt ∧ refused r.1)
  ∧ (∀ id mac,
       let r := UnbindSubnet CapabilityMap Tenant HasCapability TenantId
                  ToLower dt id mac capMap in
       r.2 = dt ∧ refused r.1)
  ∧ (∀ id ip body,
       let r := NextServer_handler CapabilityMap Tenant HasCapability TenantId
                  dt id ip body capMap in
       r.2 = dt ∧ refused r.1).
Proof.
  intros Hcap.
  split_and!.
  - intros [[msg|s]|]; simpl; try refusal.
    destruct capMap as [cm|]; [|refusal].
    destruct (Hcap cm (TenantId s) eq_refl) as (-> & _). refusal.
  - intros id [payload|]; simpl; [|refusal].
    destruct (Subnets dt !! id) as [net|]; [|refusal].
    destruct capMap as [cm|]; [|refusal].
    destruct (Hcap cm (TenantId net) eq_refl) as (_ & -> & _). refusal.
  - intros id. simpl. unfold DeleteSubnet.
    destruct (Subnets dt !! id) as [net|]; [|refusal].
    destruct capMap as [cm|]; [|refusal].
    destruct (Hcap cm (TenantId net) eq_refl) as (_ & _ & ->). refusal.
  - intros id [[msg|b]|]; simpl; try refusal.
    destruct (Subnets dt !! id) as [net|]; [|refusal].
    destruct capMap as [cm|]; [|refusal].
    destruct (Hcap cm (TenantId net) eq_refl) as (_ & -> & _). refusal.
  - intros id mac. simpl. unfold UnbindSubnet.
    destruct (Subnets dt !! id) as [net|]; [|refusal].
    destruct capMap as [cm|]; [|refusal].
    destruct (Hcap cm (TenantId net) eq_refl) as (_ & -> & _). refusal.
  - intros id ip [[msg|server]|]; simpl; try refusal.
    destruct (Subnets dt !! id) as [net|]; [|refusal].
    destruct capMap as [cm|]; [|refusal].
    destruct (Hcap cm (TenantId net) eq_refl) as (_ & -> & _). refusal.
Qed.

(** X19.  MACs are matched without regard to letter case: for a caller
    with SUBNET_UPDATE, [BindSubnet] on a stored subnet stores the binding
    under the lower-cased MAC and answers with that binding, and
    [UnbindSubnet] with any MAC that lower-cases to the same text then
    answers 200 and the binding is gone. *)
Theorem UnbindSubnet_after_BindSubnet dt id b mac cm s :
  Subnets dt !! id = Some s →
  (∀ t, HasCapability cm t "SUBNET_UPDATE" = true) →
  ToLower mac = ToLower (Binding_Mac b) →
  let b' := with_Mac (ToLower (Binding_Mac b)) b in
  let r1 := BindSubnet CapabilityMap Tenant HasCapability TenantId ToLower
              dt id (Some (inr b)) (Some cm) in
  let r2 := UnbindSubnet CapabilityMap Tenant HasCapability TenantId ToLower
              r1.2 id mac (Some cm) in
  r1.1 = WriteJson b'
  ∧ (∃ s1, Subnets r1.2 !! id = Some s1
           ∧ Bindings s1 !! ToLower mac = Some b')
  ∧ r2.1 = WriteHeader StatusOK
  ∧ ∃ s2, Subnets r2.2 !! id = Some s2 ∧ Bindings s2 !! ToLower mac = None.
Proof.
  intros Hs Hcap Hmac b'. simpl.
  unfold BindSubnet. rewrite Hs, Hcap. simpl.
  fold b'.
  destruct (AddBinding_stored dt id b' s Hs) as (s1 & Hs1 & Hb1 & _).
  assert (AddBinding dt id b' = ((None, StatusOK), (AddBinding dt id b').2))
    as Hadd by (unfold AddBinding; by rewrite Hs).
  rewrite Hadd. simpl. split; [done|].
  assert (Bindings s1 !! ToLower mac = Some b') as Hlook.
  { rewrite Hb1, Hmac. apply lookup_insert_eq. }
  split; [eauto|].
  unfold UnbindSubnet. rewrite Hs1, Hcap. simpl.
  unfold DeleteBinding. rewrite Hs1, Hlook. simpl.
  split; [done|]. eexists. split; [apply lookup_insert_eq|].
  simpl. apply lookup_delete_eq.
Qed.

End api_facts.

(** ** Overlap means a shared address *)

(** X20.  With IPv4 prefix lengths, a subnet that [AddSubnet] accepts
    shares no address with any subnet already stored: the test on the two
    base addresses catches every pair of networks with an address in
    common. *)
Theorem AddSubnet_accepts_only_disjoint dt s :
  prefixes_valid (Subnets dt) →
  0 ≤ IPNet_ones (Subnet_Subnet s) ≤ 32 →
  (AddSubnet dt s).1 = (None, StatusOK) →
  ∀ k es ip, Subnets dt !! k = Some es →
             Contains (Subnet_Subnet s) ip = true →
             Contains (Subnet_Subnet es) ip = false.
Proof.
  intros Hvalid Hs Hok k es ip Hk Hc.
  unfold AddSubnet in Hok.
  destruct (Subnets dt !! Name s); [discriminate|].
  destruct (subnetsOverlap dt s) eqn:Hov; [discriminate|].
  apply subnetsOverlap_false in Hov.
  apply not_true_iff_false. intros Hc'. apply Hov. exists k, es.
  split; [done|]. eapply Contains_both_overlaps; [done | | done | done].
  by apply (Hvalid k es).
Qed.

(** ** The theorems above at the scenarios *)

Lemma with_lan_lab_no_overlap : no_overlap (Subnets Repo.with_lan_lab).
Proof.
  apply (AddSubnet_no_overlap Repo.with_lan Repo.lab).
  apply (AddSubnet_no_overlap Repo.empty S1.lan). apply no_overlap_empty.
Qed.

Lemma lan_two_leases_range_wf : range_wf S1.lan_two_leases.
Proof.
  split; [vm_compute; discriminate|]. split; vm_compute; reflexivity.
Qed.

Lemma FindSubnet_finds_the_owner_witness :
  prefixes_valid (Subnets Repo.with_lan_lab)
  ∧ no_overlap (Subnets Repo.with_lan_lab)
  ∧ FindSubnet Repo.with_lan_lab (ip4 192 168 1 15) = Some Repo.lab
  ∧ ∀ k' s', Subnets Repo.with_lan_lab !! k' = Some s' →
             Contains (Subnet_Subnet s') (ip4 192 168 1 15) = true →
             s' = Repo.lab.
Proof.
  assert (H1 : prefixes_valid (Subnets Repo.with_lan_lab))
    by (apply (bool_decide_unpack _); vm_compute; exact I).
  pose proof with_lan_lab_no_overlap as H2.
  assert (H3 : FindSubnet Repo.with_lan_lab (ip4 192 168 1 15) = Some Repo.lab)
    by (vm_compute; reflexivity).
  split; [exact H1|]. split; [exact H2|]. split; [exact H3|].
  pose proof (FindSubnet_finds_the_owner Repo.with_lan_lab
                (map_to_list (Subnets Repo.with_lan_lab)).*2
                (ip4 192 168 1 15) (Permutation_refl _) H1 H2) as H.
  unfold FindSubnet in H3. rewrite H3 in H. exact (proj2 (proj2 H)).
Defined.

Lemma admin_operations_keep_no_overlap_witness :
  names_are_keys Repo.with_lan_lab
  ∧ no_overlap (Subnets Repo.with_lan_lab)
  ∧ no_overlap (Subnets (ReplaceSubnet Repo.with_lan_lab "lan" Repo.renamed).2).
Proof.
  assert (H1 : names_are_keys Repo.with_lan_lab)
    by (apply (bool_decide_unpack _); vm_compute; exact I).
  pose proof with_lan_lab_no_overlap as H2.
  split; [exact H1|]. split; [exact H2|].
  exact (proj2 (proj1 (proj2 (proj2
           (admin_operations_keep_no_overlap Repo.with_lan_lab H1 H2)))
           "lan"%string Repo.renamed)).
Defined.

Lemma SetNextServer_effect_witness :
  Subnets Bound.with_b1 !! "lan"%string = Some More.lan_b1
  ∧ (let r := SetNextServer Bound.with_b1 "lan" (ip4 10 0 0 50) "10.0.0.1" in
     SetNextServer r.2 "lan" (ip4 10 0 0 50) "10.0.0.1"
     = ((None, StatusOK), r.2)).
Proof.
  assert (H : Subnets Bound.with_b1 !! "lan"%string = Some More.lan_b1)
    by (vm_compute; reflexivity).
  split; [exact H|].
  exact (proj1 (proj2 (proj2
           (SetNextServer_effect Bound.with_b1 "lan" (ip4 10 0 0 50)
              "10.0.0.1" More.lan_b1 H)))).
Defined.

Lemma FindBoundIP_finds_a_binding_witness :
  FindBoundIP Bound.with_b1 S1.mac2 = Some More.lan_b1
  ∧ ∃ k b, Bindings More.lan_b1 !! k = Some b ∧ Binding_Mac b = S1.mac2.
Proof.
  assert (H : FindBoundIP Bound.with_b1 S1.mac2 = Some More.lan_b1)
    by (vm_compute; reflexivity).
  split; [exact H|].
  pose proof (FindBoundIP_finds_a_binding Bound.with_b1
                (map_to_list (Subnets Bound.with_b1)).*2 S1.mac2
                (Permutation_refl _)) as H'.
  unfold FindBoundIP in H. rewrite H in H'. exact (proj2 H').
Defined.

Lemma free_lease_effect_witness :
  is_Some (Leases S1.lan_two_leases !! S1.mac2)
  ∧ Leases (free_lease S1.lan_two_leases S1.mac2).1
    = delete S1.mac2 (Leases S1.lan_two_leases).
Proof.
  assert (H : is_Some (Leases S1.lan_two_leases !! S1.mac2))
    by (vm_compute; eauto).
  split; [exact H|].
  exact (proj1 (proj2 (proj2 (free_lease_effect S1.lan_two_leases S1.mac2) H))).
Defined.

Lemma find_or_get_info_stable_witness :
  let l := {| Lease_Ip := ip4 10 0 0 10; Lease_Mac := S1.mac1; Valid := true;
              ExpireTime := 0 |} in
  let s' := (find_or_get_info S1.lan S1.mac1 0 100).1.2 in
  find_or_get_info S1.lan S1.mac1 0 100 = ((Some l, None), s', true)
  ∧ find_or_get_info s' S1.mac1 (ip4 10 0 0 12) (10 ^ 12)
    = ((Some l, None), s', false).
Proof.
  intros l s'.
  assert (H : find_or_get_info S1.lan S1.mac1 0 100 = ((Some l, None), s', true))
    by (vm_compute; reflexivity).
  split; [exact H|].
  exact (find_or_get_info_stable S1.lan S1.mac1 0 100 l None s' true H
           (ip4 10 0 0 12) (10 ^ 12)).
Defined.

Lemma find_or_get_info_serves_binding_witness :
  Bindings More.lan_b1 !! S1.mac2 = Some Bound.b1
  ∧ ∃ l, (find_or_get_info More.lan_b1 S1.mac2 0 100).1.1
         = (Some l, Some Bound.b1)
         ∧ Lease_Ip l = ip4 10 0 0 50.
Proof.
  assert (H : Bindings More.lan_b1 !! S1.mac2 = Some Bound.b1)
    by (vm_compute; reflexivity).
  split; [exact H|].
  destruct (find_or_get_info_serves_binding More.lan_b1 S1.mac2 0 100
              Bound.b1 H) as (l & H1 & H2 & _).
  exists l. split; [exact H1 | exact H2].
Defined.

Lemma getFreeIP_in_range_witness :
  range_wf S1.lan_two_leases
  ∧ (getFreeIP S1.lan_two_leases 100).1.1 = Some (ip4 10 0 0 12)
  ∧ ActiveStart S1.lan_two_leases ≤ ip4 10 0 0 12
    ≤ ActiveEnd S1.lan_two_leases.
Proof.
  pose proof lan_two_leases_range_wf as Hwf.
  split; [exact Hwf|]. split; [vm_compute; reflexivity|].
  assert (H : getFreeIP S1.lan_two_leases 100
              = (Some (ip4 10 0 0 12), true,
                 (getFreeIP S1.lan_two_leases 100).2))
    by (vm_compute; reflexivity).
  exact (proj1 (proj2 (getFreeIP_in_range S1.lan_two_leases 100 _ _ _ Hwf H))).
Defined.

Lemma pool_exhausted_witness :
  all_bits_set (ActiveBits S1.lan_full)
  ∧ none_expired 0 S1.lan_full
  ∧ getFreeIP S1.lan_full 0 = (None, false, S1.lan_full).
Proof.
  assert (H1 : all_bits_set (ActiveBits S1.lan_full))
    by (apply firstClearBit_None; vm_compute; reflexivity).
  assert (H2 : none_expired 0 S1.lan_full)
    by (apply (bool_decide_unpack _); vm_compute; exact I).
  split; [exact H1|]. split; [exact H2|].
  exact (proj1 (pool_exhausted S1.lan_full 0 H1 H2)).
Defined.

Lemma getFreeIP_skips_held_address_witness :
  bitset.Test (ip4 10 0 0 11 - ActiveStart S1.lan_two_leases)
    (ActiveBits S1.lan_two_leases) = true
  ∧ no_expired_lease_on 0 S1.lan_two_leases (ip4 10 0 0 11)
  ∧ (getFreeIP S1.lan_two_leases 0).1.1 ≠ Some (ip4 10 0 0 11).
Proof.
  assert (H1 : bitset.Test (ip4 10 0 0 11 - ActiveStart S1.lan_two_leases)
                 (ActiveBits S1.lan_two_leases) = true)
    by (vm_compute; reflexivity).
  assert (H2 : no_expired_lease_on 0 S1.lan_two_leases (ip4 10 0 0 11))
    by (apply (bool_decide_unpack _); vm_compute; exact I).
  assert (H3 : ActiveStart S1.lan_two_leases ≤ ip4 10 0 0 11
               ≤ ActiveEnd S1.lan_two_leases)
    by (split; vm_compute; discriminate).
  split; [exact H1|]. split; [exact H2|].
  exact (proj1 (getFreeIP_skips_held_address S1.lan_two_leases 0
                  (ip4 10 0 0 11) lan_two_leases_range_wf H3 H1 H2)).
Defined.

Lemma build_options_last_rendered_wins_witness :
  let lease := {| Lease_Ip := ip4 10 0 0 10; Lease_Mac := S1.mac1;
                  Valid := true; ExpireTime := 0 |} in
  let bcast := {| Code := 28; Value := "10.0.0.255" |} in
  Plain.template_execute (Value bcast) (Plain.decode_options tt)
  = Some "10.0.0.255"%string
  ∧ (build_options Plain.Packet Plain.decode_options Plain.template_execute
       Plain.convertOptionValueToByte S1.lan lease None tt).1 !! 28
    = Some (Plain.string_bytes "10.0.0.255").
Proof.
  intros lease bcast. split; [reflexivity|].
  refine (proj1 (build_options_last_rendered_wins Plain.Packet
                   Plain.decode_options Plain.template_execute
                   Plain.convertOptionValueToByte S1.lan lease None tt 28)
            [ {| Code := 1; Value := "255.255.255.0" |} ] bcast []
            (Plain.string_bytes "10.0.0.255") _ _ _).
  - vm_compute. reflexivity.
  - vm_compute. reflexivity.
  - constructor.
Defined.

Lemma UnmarshalJSON_accepts_witness :
  UnmarshalJSON zero_Subnet S1.lan_json = Some S1.lan
  ∧ api_ReservedLeaseTime S1.lan_json = 0
  ∧ ReservedLeaseTime S1.lan = 2 * Hour
  ∧ ActiveLeaseTime S1.lan ≠ 0.
Proof.
  assert (H : UnmarshalJSON zero_Subnet S1.lan_json = Some S1.lan)
    by (vm_compute; reflexivity).
  pose proof (proj2 (UnmarshalJSON_accepts zero_Subnet S1.lan_json) S1.lan H)
    as (_ & _ & _ & _ & Ha & _ & _ & Hr & _).
  split; [exact H|]. split; [reflexivity|].
  split; [exact (Hr eq_refl) | exact Ha].
Defined.

Lemma UnmarshalJSON_rebuilds_bits_witness :
  let as_ := MarshalJSON S1.lan_two_leases in
  let s := default zero_Subnet (UnmarshalJSON zero_Subnet as_) in
  UnmarshalJSON zero_Subnet as_ = Some s
  ∧ NoDup (Lease_Mac <$> api_Leases as_)
  ∧ bits_match_records s (ActiveBits s).
Proof.
  intros as_ s.
  assert (H : UnmarshalJSON zero_Subnet as_ = Some s)
    by (vm_compute; reflexivity).
  assert (H1 : ActiveStart s ≤ ActiveEnd s) by (vm_compute; discriminate).
  assert (H2 : NoDup (Lease_Mac <$> api_Leases as_))
    by (apply (bool_decide_unpack _); vm_compute; exact I).
  assert (H3 : NoDup (Binding_Mac <$> api_Bindings as_))
    by (vm_compute; constructor).
  split; [exact H|]. split; [exact H2|].
  exact (proj2 (proj2 (UnmarshalJSON_rebuilds_bits as_ s H)) H1 H2 H3).
Defined.

Lemma lan_two_leases_snapshot_wf : snapshot_wf S1.lan_two_leases.
Proof.
  split; [apply (bool_decide_unpack _); vm_compute; exact I|].
  split; [apply (bool_decide_unpack _); vm_compute; exact I|].
  split; [vm_compute; reflexivity|].
  split; [vm_compute; discriminate|].
  split; [vm_compute; discriminate|].
  split; [vm_compute; reflexivity|].
  split; [vm_compute; reflexivity|].
  split; [vm_compute; reflexivity|].
  split.
  - split; [vm_compute; discriminate|].
    split; [vm_compute; reflexivity|].
    split; [vm_compute; discriminate | vm_compute; reflexivity].
  - split; [vm_compute; discriminate|].
    split; [vm_compute; reflexivity|].
    split; [vm_compute; discriminate | vm_compute; reflexivity].
Qed.

Lemma load_data_after_save_data_witness :
  map_Forall (λ _ s, snapshot_wf s) (Subnets Repo.with_leases)
  ∧ ∃ dt',
      load_data (NewDataTracker (database (save_data Repo.with_leases)))
      = Some dt'
      ∧ dom (Subnets dt') = dom (Subnets Repo.with_leases).
Proof.
  assert (H : map_Forall (λ _ s, snapshot_wf s) (Subnets Repo.with_leases)).
  { apply map_Forall_singleton. apply lan_two_leases_snapshot_wf. }
  split; [exact H|].
  destruct (load_data_after_save_data Repo.with_leases H) as (dt' & H1 & H2 & _).
  exists dt'. split; [exact H1 | exact H2].
Defined.

Lemma AddBinding_effect_witness :
  Subnets Repo.with_leases !! "lan"%string = Some S1.lan_two_leases
  ∧ range_wf S1.lan_two_leases
  ∧ (AddBinding Repo.with_leases "lan" Bound.b4).1 = (None, StatusOK)
  ∧ ∃ s', Subnets (AddBinding Repo.with_leases "lan" Bound.b4).2
            !! "lan"%string = Some s'
          ∧ bitset.Test (ip4 10 0 0 12 - ActiveStart S1.lan_two_leases)
              (ActiveBits s') = true.
Proof.
  assert (H1 : Subnets Repo.with_leases !! "lan"%string
               = Some S1.lan_two_leases) by (vm_compute; reflexivity).
  pose proof lan_two_leases_range_wf as H2.
  assert (H3 : ActiveStart S1.lan_two_leases ≤ Binding_Ip Bound.b4
               ≤ ActiveEnd S1.lan_two_leases)
    by (split; vm_compute; discriminate).
  destruct (proj2 (AddBinding_effect Repo.with_leases "lan" Bound.b4)
              S1.lan_two_leases H1 H2)
    as (Hr & _ & _ & s' & Hs' & _ & _ & _ & _ & Hbit & _).
  split; [exact H1|]. split; [exact H2|]. split; [exact Hr|].
  exists s'. split; [exact Hs' | exact (Hbit H3)].
Defined.

Lemma DeleteBinding_effect_witness :
  Subnets Bound.with_b1 !! "lan"%string = Some More.lan_b1
  ∧ Bindings More.lan_b1 !! S1.mac2 = Some Bound.b1
  ∧ range_wf More.lan_b1
  ∧ (DeleteBinding Bound.with_b1 "lan" S1.mac2).1 = (None, StatusOK)
  ∧ (DeleteBinding Bound.with_b1 "lan" S1.mac3).1
    = (Some "Binding Not Found"%string, StatusNotFound).
Proof.
  assert (H1 : Subnets Bound.with_b1 !! "lan"%string = Some More.lan_b1)
    by (vm_compute; reflexivity).
  assert (H2 : Bindings More.lan_b1 !! S1.mac2 = Some Bound.b1)
    by (vm_compute; reflexivity).
  assert (H3 : range_wf More.lan_b1).
  { split; [vm_compute; discriminate|]. split; vm_compute; reflexivity. }
  assert (H4 : Bindings More.lan_b1 !! S1.mac3 = None)
    by (vm_compute; reflexivity).
  pose proof (proj2 (DeleteBinding_effect Bound.with_b1 "lan" S1.mac2)
                More.lan_b1 H1) as [_ Hok].
  pose proof (proj2 (DeleteBinding_effect Bound.with_b1 "lan" S1.mac3)
                More.lan_b1 H1) as [Hmiss _].
  split; [exact H1|]. split; [exact H2|]. split; [exact H3|].
  split; [exact (proj1 (Hok Bound.b1 H2 H3))|].
  rewrite (Hmiss H4). reflexivity.
Defined.

Lemma handlers_need_capability_witness :
  (∀ (cm t : unit),
     Plain.read_only cm t "SUBNET_CREATE" = false
     ∧ Plain.read_only cm t "SUBNET_UPDATE" = false
     ∧ Plain.read_only cm t "SUBNET_DESTROY" = false)
  ∧ Plain.read_only tt tt "SUBNET_READ" = true
  ∧ (BindSubnet unit unit Plain.read_only Plain.TenantId lower_ASCII
       Repo.with_lan "lan" (Some (inr Bound.b1)) (Some tt)).2
    = Repo.with_lan
  ∧ (DeleteSubnet unit unit Plain.read_only Plain.TenantId
       Repo.with_lan "lan" (Some tt)).2
    = Repo.with_lan.
Proof.
  assert (H : ∀ (cm t : unit),
            Plain.read_only cm t "SUBNET_CREATE" = false
            ∧ Plain.read_only cm t "SUBNET_UPDATE" = false
            ∧ Plain.read_only cm t "SUBNET_DESTROY" = false)
    by (intros; repeat split; vm_compute; reflexivity).
  pose proof (handlers_need_capability unit unit Plain.read_only
                Plain.TenantId lower_ASCII Repo.with_lan (Some tt)
                (λ cm t _, H cm t)) as (_ & _ & Hdel & Hbind & _).
  split; [exact H|]. split; [vm_compute; reflexivity|].
  split; [exact (proj1 (Hbind "lan"%string (Some (inr Bound.b1))))|].
  exact (proj1 (Hdel "lan"%string)).
Defined.

Lemma UnbindSubnet_after_BindSubnet_witness :
  Subnets Repo.with_lan !! "lan"%string = Some S1.lan
  ∧ lower_ASCII "aa:BB:cc:00:00:0f" = lower_ASCII (Binding_Mac More.b_upper)
  ∧ (let r1 := BindSubnet unit unit Plain.grant_all Plain.TenantId lower_ASCII
                 Repo.with_lan "lan" (Some (inr More.b_upper)) (Some tt) in
     (UnbindSubnet unit unit Plain.grant_all Plain.TenantId lower_ASCII
        r1.2 "lan" "aa:BB:cc:00:00:0f" (Some tt)).1
     = WriteHeader StatusOK).
Proof.
  assert (H1 : Subnets Repo.with_lan !! "lan"%string = Some S1.lan)
    by (vm_compute; reflexivity).
  assert (H2 : lower_ASCII "aa:BB:cc:00:00:0f"
               = lower_ASCII (Binding_Mac More.b_upper))
    by (vm_compute; reflexivity).
  split; [exact H1|]. split; [exact H2|].
  exact (proj1 (proj2 (proj2
           (UnbindSubnet_after_BindSubnet unit unit Plain.grant_all
              Plain.TenantId lower_ASCII Repo.with_lan "lan" More.b_upper
              "aa:BB:cc:00:00:0f" tt S1.lan H1 (λ _, eq_refl) H2)))).
Defined.

Lemma AddSubnet_accepts_only_disjoint_witness :
  prefixes_valid (Subnets Repo.with_lan)
  ∧ (AddSubnet Repo.with_lan Repo.lab).1 = (None, StatusOK)
  ∧ Contains (Subnet_Subnet Repo.lab) (ip4 192 168 1 15) = true
  ∧ Contains (Subnet_Subnet S1.lan) (ip4 192 168 1 15) = false.
Proof.
  assert (H1 : prefixes_valid (Subnets Repo.with_lan))
    by (apply (bool_decide_unpack _); vm_compute; exact I).
  assert (H2 : 0 ≤ IPNet_ones (Subnet_Subnet Repo.lab) ≤ 32)
    by (split; vm_compute; discriminate).
  assert (H3 : (AddSubnet Repo.with_lan Repo.lab).1 = (None, StatusOK))
    by (vm_compute; reflexivity).
  assert (H4 : Subnets Repo.with_lan !! "lan"%string = Some S1.lan)
    by (vm_compute; reflexivity).
  assert (H5 : Contains (Subnet_Subnet Repo.lab) (ip4 192 168 1 15) = true)
    by (vm_compute; reflexivity).
  split; [exact H1|]. split; [exact H3|]. split; [exact H5|].
  exact (AddSubnet_accepts_only_disjoint Repo.with_lan Repo.lab H1 H2 H3
           "lan"%string S1.lan (ip4 192 168 1 15) H4 H5).
Defined.
